(** * An in-memory Unix-style file system: shallow embedding of [module.cpp]

    The image is the 1 MiB buffer [memory] of class [FileSystem].  Every
    access the program makes to it is through an [unsigned int*] (or a
    struct made of 4-byte fields and a [char[28]] name) at a 4-byte aligned
    offset, so the buffer is modelled as a finite map from word index
    (byte offset / 4) to 32-bit word, kept block by block; an absent key
    reads as 0, which is what [memset(memory, 0, MEMORY_SIZE)] leaves.
    Names and file contents are unpacked from the words in little-endian
    byte order.  An access outside the buffer, undefined in the program,
    reads or writes the map at the index computed.

    [struct Inode] is laid out with a 4-byte [time_t], the only ABI under
    which [sizeof(Inode)] (60) fits the 64 bytes [INODE_SIZE] reserves for
    a record: type, size, creationTime, modificationTime, ten block
    addresses, indirectBlock are words 0..14 of a 16-word record.  Built
    with an 8-byte [time_t] the structure takes 72 bytes, the records of
    neighbouring inodes overlap and [indirectBlock] of inode 127 is the
    first word of block 9; that build is not modelled, and everything
    below is about the 4-byte layout.

    Arithmetic on [unsigned int] wraps modulo 2^32 ([wrap32]); [int] values
    obtained from an [unsigned int] are read back in two's complement
    ([to_int]).  [time(nullptr)] is the field [clock] of the state.  What
    a command prints is returned as a value of type [msg]. *)

From Stdlib Require Import ZArith List String Ascii Lia Bool.
From stdpp Require Import base option list gmap.
Import ListNotations.
Open Scope Z_scope.

(** ** Constants *)

Definition MEMORY_SIZE : Z := 1024 * 1024.
Definition BLOCK_SIZE : Z := 1024.
Definition TOTAL_BLOCKS : Z := MEMORY_SIZE / BLOCK_SIZE.
Definition MAX_INODES : Z := 128.
Definition INODE_SIZE : Z := 64.
Definition INODE_BLOCKS : Z := (MAX_INODES * INODE_SIZE + BLOCK_SIZE - 1) / BLOCK_SIZE.
Definition FIRST_DATA_BLOCK : Z := 1 + INODE_BLOCKS.
Definition DIRECT_BLOCKS : Z := 10.
Definition MAX_FILENAME_LENGTH : Z := 28.

(** [sizeof(DirectoryEntry)] and [sizeof(unsigned int)]. *)
Definition DIRENT_SIZE : Z := 32.
Definition WORD_SIZE : Z := 4.

Definition wrap32 (x : Z) : Z := x mod 4294967296.

(** Conversion [unsigned int -> int]. *)
Definition to_int (x : Z) : Z := if 2147483648 <=? x then x - 4294967296 else x.

(** Conversion [int -> unsigned int]. *)
Definition to_uint (x : Z) : Z := wrap32 x.

(** ** The image buffer *)

(** The buffer, block by block: block number to the words of that block
    (word offset in the block to word).  A block or a word that is absent
    reads as 0. *)
Abbreviation mem := (gmap Z (gmap Z Z)).

Definition BLOCK_WORDS : Z := BLOCK_SIZE / WORD_SIZE.

(** A word of the buffer is an [unsigned int]: whatever the map holds is
    read modulo 2^32. *)
Definition load (m : mem) (w : Z) : Z :=
  wrap32 (default 0 (m !! (w / BLOCK_WORDS) ≫= fun blk => blk !! (w mod BLOCK_WORDS))).

Definition store (m : mem) (w : Z) (v : Z) : mem :=
  <[w / BLOCK_WORDS := <[w mod BLOCK_WORDS := v]> (default ∅ (m !! (w / BLOCK_WORDS)))]> m.

(** The words [ws] written from word [w] on: a [memcpy] or a struct
    assignment. *)
Fixpoint store_words (m : mem) (w : Z) (ws : list Z) : mem :=
  match ws with
  | [] => m
  | x :: ws' => store_words (store m w x) (w + 1) ws'
  end.

(** [memset(memory + 4*w, 0, BLOCK_SIZE)] for [w] the first word of a
    block: the block is dropped from the map. *)
Definition zero_block (m : mem) (w : Z) : mem := delete (w / BLOCK_WORDS) m.

(** Word index of [memory + blockNum * BLOCK_SIZE]; the product is an
    [unsigned int]. *)
Definition block_word (blockNum : Z) : Z := wrap32 (blockNum * BLOCK_SIZE) / WORD_SIZE.

(** Word index of [memory + BLOCK_SIZE + inodeNum * INODE_SIZE]. *)
Definition inode_word (inodeNum : Z) : Z :=
  BLOCK_SIZE / WORD_SIZE + wrap32 (inodeNum * INODE_SIZE) / WORD_SIZE.

Record FileSystem := mkFS {
  memory : mem;
  currentInodeNumber : Z;
  currentPath : string;
  clock : Z
}.

Definition set_memory (fs : FileSystem) (m : mem) : FileSystem :=
  mkFS m (currentInodeNumber fs) (currentPath fs) (clock fs).

(** ** Superblock: eight words at the start of block 0 *)

Module SB.
Definition magic : Z := 0.
Definition blockSize : Z := 1.
Definition totalBlocks : Z := 2.
Definition freeBlocks : Z := 3.
Definition maxInodes : Z := 4.
Definition freeInodes : Z := 5.
Definition firstFreeBlock : Z := 6.
Definition firstFreeInode : Z := 7.
End SB.

Definition freeBlocks (fs : FileSystem) : Z := load (memory fs) SB.freeBlocks.
Definition freeInodes (fs : FileSystem) : Z := load (memory fs) SB.freeInodes.
Definition firstFreeBlock (fs : FileSystem) : Z := load (memory fs) SB.firstFreeBlock.
Definition firstFreeInode (fs : FileSystem) : Z := load (memory fs) SB.firstFreeInode.

(** ** Inode records *)

Record Inode := mkInode {
  type : Z;
  size : Z;
  creationTime : Z;
  modificationTime : Z;
  blockAddresses : list Z;
  indirectBlock : Z
}.

Module IN.
Definition type : Z := 0.
Definition size : Z := 1.
Definition creationTime : Z := 2.
Definition modificationTime : Z := 3.
Definition blockAddresses : Z := 4.
Definition indirectBlock : Z := 14.
End IN.

Definition zero_inode : Inode := mkInode 0 0 0 0 (replicate 10 0) 0.

Definition set_type (i : Inode) (v : Z) : Inode :=
  mkInode v (size i) (creationTime i) (modificationTime i) (blockAddresses i) (indirectBlock i).
Definition set_size (i : Inode) (v : Z) : Inode :=
  mkInode (type i) v (creationTime i) (modificationTime i) (blockAddresses i) (indirectBlock i).
Definition set_mtime (i : Inode) (v : Z) : Inode :=
  mkInode (type i) (size i) (creationTime i) v (blockAddresses i) (indirectBlock i).
Definition set_indirect (i : Inode) (v : Z) : Inode :=
  mkInode (type i) (size i) (creationTime i) (modificationTime i) (blockAddresses i) v.
(** [inode.blockAddresses[k] = v] for [k < DIRECT_BLOCKS]. *)
Definition set_addr (i : Inode) (k : Z) (v : Z) : Inode :=
  mkInode (type i) (size i) (creationTime i) (modificationTime i)
          (<[Z.to_nat k := v]> (blockAddresses i)) (indirectBlock i).
Definition addr (i : Inode) (k : Z) : Z := default 0 (blockAddresses i !! Z.to_nat k).

Definition readInode (fs : FileSystem) (inodeNum : Z) : Inode :=
  if MAX_INODES <=? inodeNum then zero_inode
  else
    let b := inode_word inodeNum in
    let m := memory fs in
    mkInode (load m (b + IN.type)) (load m (b + IN.size))
            (load m (b + IN.creationTime)) (load m (b + IN.modificationTime))
            (map (fun k => load m (b + IN.blockAddresses + k)) (seqZ 0 DIRECT_BLOCKS))
            (load m (b + IN.indirectBlock)).

(** The fifteen words [memcpy] takes from a [struct Inode], which is
    [sizeof(Inode)] = 60 bytes on the 4-byte [time_t] layout fixed
    above. *)
Definition inode_words (i : Inode) : list Z :=
  [type i; size i; creationTime i; modificationTime i]
  ++ map (addr i) (seqZ 0 DIRECT_BLOCKS) ++ [indirectBlock i].

Definition store_inode (m : mem) (b : Z) (i : Inode) : mem :=
  store_words m b (inode_words i).

Definition writeInode (fs : FileSystem) (inodeNum : Z) (i : Inode) : FileSystem :=
  if MAX_INODES <=? inodeNum then fs
  else set_memory fs (store_inode (memory fs) (inode_word inodeNum) i).

(** ** Block allocator *)

(** Returns the state and the block number, 0 meaning failure. *)
Definition allocateBlock (fs : FileSystem) : FileSystem * Z :=
  let m := memory fs in
  if (load m SB.freeBlocks =? 0) || (load m SB.firstFreeBlock =? 0) then (fs, 0)
  else
    let blockNum := load m SB.firstFreeBlock in
    if TOTAL_BLOCKS <=? blockNum then (fs, 0)
    else
      let nextFree := load m (block_word blockNum) in
      let m := store m SB.firstFreeBlock nextFree in
      let m := store m SB.freeBlocks (wrap32 (load m SB.freeBlocks - 1)) in
      let m := zero_block m (block_word blockNum) in
      (set_memory fs m, blockNum).

Definition deallocateBlock (fs : FileSystem) (blockNum : Z) : FileSystem :=
  if (blockNum <? FIRST_DATA_BLOCK) || (TOTAL_BLOCKS <=? blockNum) then fs
  else
    let m := memory fs in
    let m := store m (block_word blockNum) (load m SB.firstFreeBlock) in
    let m := store m SB.firstFreeBlock blockNum in
    let m := store m SB.freeBlocks (wrap32 (load m SB.freeBlocks + 1)) in
    set_memory fs m.

(** ** Inode allocator *)

(** Returns the state and the inode number, [MAX_INODES] meaning failure. *)
Definition allocateInode (fs : FileSystem) : FileSystem * Z :=
  let m := memory fs in
  if (load m SB.freeInodes =? 0) || (load m SB.firstFreeInode =? 0) then (fs, MAX_INODES)
  else
    let inodeNum := load m SB.firstFreeInode in
    let b := inode_word inodeNum in
    let m := store m SB.firstFreeInode (load m (b + IN.indirectBlock)) in
    let m := store m SB.freeInodes (wrap32 (load m SB.freeInodes - 1)) in
    let t := wrap32 (clock fs) in
    (set_memory fs (store_inode m b (mkInode 0 0 t t (replicate 10 0) 0)), inodeNum).

Definition deallocateInode (fs : FileSystem) (inodeNum : Z) : FileSystem :=
  if MAX_INODES <=? inodeNum then fs
  else
    let m := memory fs in
    let b := inode_word inodeNum in
    let m := store m (b + IN.indirectBlock) (load m SB.firstFreeInode) in
    let m := store m SB.firstFreeInode inodeNum in
    let m := store m SB.freeInodes (wrap32 (load m SB.freeInodes + 1)) in
    set_memory fs m.

(** ** Strings and names *)

Definition bytes_of_string (s : string) : list Z :=
  map (fun a => Z.of_N (N_of_ascii a)) (list_ascii_of_string s).

(** The C string held in a byte array: the bytes before the first NUL. *)
Fixpoint cstr (bs : list Z) : list Z :=
  match bs with
  | [] => []
  | b :: bs' => if b =? 0 then [] else b :: cstr bs'
  end.

(** [name.c_str()] as [strncpy] and [strcmp] see it. *)
Definition c_str (s : string) : list Z := cstr (bytes_of_string s).

(** [name.length()] *)
Definition str_length (s : string) : Z := Z.of_nat (String.length s).

Definition bytes_of_word (w : Z) : list Z :=
  [w mod 256; (w / 256) mod 256; (w / 65536) mod 256; (w / 16777216) mod 256].

Fixpoint words_of_bytes (bs : list Z) : list Z :=
  match bs with
  | a :: b :: c :: d :: bs' => (a + 256 * b + 65536 * c + 16777216 * d) :: words_of_bytes bs'
  | _ => []
  end.

(** [strncpy(newEntry.name, name.c_str(), MAX_FILENAME_LENGTH - 1);
     newEntry.name[MAX_FILENAME_LENGTH - 1] = '\0';] *)
Definition name_field (s : string) : list Z :=
  take 27 (c_str s ++ replicate 27 0) ++ [0].

(** ** Directory entries: eight words, seven of name and the inode number *)

Record DirectoryEntry := mkEntry {
  name : list Z;
  inodeNumber : Z
}.

Definition ENTRY_WORDS : Z := DIRENT_SIZE / WORD_SIZE.
Definition entriesPerBlock : Z := BLOCK_SIZE / DIRENT_SIZE.
Definition NAME_WORDS : Z := MAX_FILENAME_LENGTH / WORD_SIZE.

(** Word index of [blockData + j * sizeof(DirectoryEntry)]. *)
Definition entry_word (blockNum j : Z) : Z := block_word blockNum + j * ENTRY_WORDS.

Definition read_entry (m : mem) (w : Z) : DirectoryEntry :=
  mkEntry (flat_map bytes_of_word (map (fun k => load m (w + k)) (seqZ 0 NAME_WORDS)))
          (load m (w + NAME_WORDS)).

(** [*entry = newEntry] *)
Definition store_entry (m : mem) (w : Z) (e : DirectoryEntry) : mem :=
  store (store_words m w (words_of_bytes (name e))) (w + NAME_WORDS) (inodeNumber e).

(** [strcmp(entry.name, s) == 0] *)
Definition name_matches (e : DirectoryEntry) (s : list Z) : bool :=
  bool_decide (cstr (name e) = s).

(** The live entries of one directory block, in slot order. *)
Definition block_entries (m : mem) (blockNum : Z) : list DirectoryEntry :=
  List.filter (fun e => negb (inodeNumber e =? 0))
         (map (fun j => read_entry m (entry_word blockNum j)) (seqZ 0 entriesPerBlock)).

(** The words of the indirect block [ind]: [indirectBlockData[0..255]]. *)
Definition indirect_slots (m : mem) (ind : Z) : list Z :=
  map (fun i => load m (block_word ind + i)) (seqZ 0 (BLOCK_SIZE / WORD_SIZE)).

Definition nonzero (x : Z) : bool := negb (x =? 0).

Definition readDirectoryEntries (fs : FileSystem) (inodeNum : Z) : list DirectoryEntry :=
  let inode := readInode fs inodeNum in
  let m := memory fs in
  if negb (type inode =? 1) then []
  else
    flat_map (block_entries m) (List.filter nonzero (blockAddresses inode))
    ++ (if indirectBlock inode =? 0 then []
        else flat_map (block_entries m)
                      (List.filter nonzero (indirect_slots m (indirectBlock inode)))).

Definition findDirectoryEntry (fs : FileSystem) (dirInodeNum : Z) (nm : string) : Z :=
  match List.find (fun e => name_matches e (c_str nm)) (readDirectoryEntries fs dirInodeNum) with
  | Some e => to_int (inodeNumber e)
  | None => -1
  end.

(** ** addDirectoryEntry *)

(** The first slot of block [blockNum] whose inode number is 0. *)
Definition find_free_slot (m : mem) (blockNum : Z) : option Z :=
  List.find (fun j => load m (entry_word blockNum j + NAME_WORDS) =? 0) (seqZ 0 entriesPerBlock).

(** Found a free slot: write the entry, bump size and modification time,
    persist the directory inode. *)
Definition commit_entry (fs : FileSystem) (dirInodeNum : Z) (dirInode : Inode)
    (w : Z) (e : DirectoryEntry) : FileSystem :=
  let fs := set_memory fs (store_entry (memory fs) w e) in
  let dirInode := set_size dirInode (wrap32 (size dirInode + DIRENT_SIZE)) in
  let dirInode := set_mtime dirInode (wrap32 (clock fs)) in
  writeInode fs dirInodeNum dirInode.

(** Outcome of a loop that may [return] from the enclosing function. *)
Inductive loop (A R : Type) :=
  | Continue (a : A)
  | Return (r : R).
Arguments Continue {A R} a.
Arguments Return {A R} r.

(** The loop over the direct slots [idx]; the loop state is the image and
    the local copy [dirInode]. *)
Fixpoint add_direct (fs : FileSystem) (dirInodeNum : Z) (dirInode : Inode)
    (e : DirectoryEntry) (idx : list Z) : loop (FileSystem * Inode) (FileSystem * bool) :=
  match idx with
  | [] => Continue (fs, dirInode)
  | i :: idx' =>
    let step (fs : FileSystem) (dirInode : Inode) :=
      match find_free_slot (memory fs) (addr dirInode i) with
      | Some j => Return (commit_entry fs dirInodeNum dirInode (entry_word (addr dirInode i) j) e, true)
      | None => add_direct fs dirInodeNum dirInode e idx'
      end in
    if addr dirInode i =? 0 then
      let '(fs1, newBlock) := allocateBlock fs in
      if newBlock =? 0 then Return (fs1, false)
      else
        let dirInode := set_addr dirInode i newBlock in
        step (writeInode fs1 dirInodeNum dirInode) dirInode
    else step fs dirInode
  end.

(** The loop over the slots [idx] of the indirect block. *)
Fixpoint add_indirect (fs : FileSystem) (dirInodeNum : Z) (dirInode : Inode)
    (e : DirectoryEntry) (idx : list Z) : FileSystem * bool :=
  match idx with
  | [] => (fs, false)
  | i :: idx' =>
    let slot := block_word (indirectBlock dirInode) + i in
    let step (fs : FileSystem) :=
      let child := load (memory fs) slot in
      match find_free_slot (memory fs) child with
      | Some j => (commit_entry fs dirInodeNum dirInode (entry_word child j) e, true)
      | None => add_indirect fs dirInodeNum dirInode e idx'
      end in
    if load (memory fs) slot =? 0 then
      let '(fs1, newBlock) := allocateBlock fs in
      if newBlock =? 0 then (fs1, false)
      else step (set_memory fs1 (store (memory fs1) slot newBlock))
    else step fs
  end.

Definition addDirectoryEntry (fs : FileSystem) (dirInodeNum : Z) (nm : string)
    (inodeNum : Z) : FileSystem * bool :=
  if MAX_FILENAME_LENGTH <=? str_length nm then (fs, false)
  else
    let dirInode := readInode fs dirInodeNum in
    if negb (type dirInode =? 1) then (fs, false)
    else
      let newEntry := mkEntry (name_field nm) inodeNum in
      match add_direct fs dirInodeNum dirInode newEntry (seqZ 0 DIRECT_BLOCKS) with
      | Return r => r
      | Continue (fs, dirInode) =>
        let with_indirect (fs : FileSystem) (dirInode : Inode) :=
          add_indirect fs dirInodeNum dirInode newEntry (seqZ 0 (BLOCK_SIZE / WORD_SIZE)) in
        if indirectBlock dirInode =? 0 then
          let '(fs1, ib) := allocateBlock fs in
          if ib =? 0 then (fs1, false)
          else
            let dirInode := set_indirect dirInode ib in
            with_indirect (writeInode fs1 dirInodeNum dirInode) dirInode
        else with_indirect fs dirInode
      end.

(** ** removeDirectoryEntry *)

(** The first slot of block [blockNum] that is live and named [s]. *)
Definition find_named_slot (m : mem) (blockNum : Z) (s : list Z) : option Z :=
  List.find (fun j => let e := read_entry m (entry_word blockNum j) in
                      nonzero (inodeNumber e) && name_matches e s)
            (seqZ 0 entriesPerBlock).

Definition tombstone (fs : FileSystem) (dirInodeNum : Z) (dirInode : Inode) (w : Z) : FileSystem :=
  let fs := set_memory fs (store (memory fs) (w + NAME_WORDS) 0) in
  let dirInode := set_size dirInode (wrap32 (size dirInode - DIRENT_SIZE)) in
  let dirInode := set_mtime dirInode (wrap32 (clock fs)) in
  writeInode fs dirInodeNum dirInode.

(** Both search loops skip zero addresses and stop at the first match. *)
Fixpoint remove_in (fs : FileSystem) (dirInodeNum : Z) (dirInode : Inode)
    (s : list Z) (blocks : list Z) : option FileSystem :=
  match blocks with
  | [] => None
  | b :: blocks' =>
    if b =? 0 then remove_in fs dirInodeNum dirInode s blocks'
    else match find_named_slot (memory fs) b s with
         | Some j => Some (tombstone fs dirInodeNum dirInode (entry_word b j))
         | None => remove_in fs dirInodeNum dirInode s blocks'
         end
  end.

Definition removeDirectoryEntry (fs : FileSystem) (dirInodeNum : Z) (nm : string)
    : FileSystem * bool :=
  let dirInode := readInode fs dirInodeNum in
  if negb (type dirInode =? 1) then (fs, false)
  else
    match remove_in fs dirInodeNum dirInode (c_str nm) (blockAddresses dirInode) with
    | Some fs' => (fs', true)
    | None =>
      if indirectBlock dirInode =? 0 then (fs, false)
      else
        match remove_in fs dirInodeNum dirInode (c_str nm)
                        (indirect_slots (memory fs) (indirectBlock dirInode)) with
        | Some fs' => (fs', true)
        | None => (fs, false)
        end
    end.

Definition initializeDirectory (fs : FileSystem) (dirInodeNum parentInodeNum : Z) : FileSystem :=
  let fs := fst (addDirectoryEntry fs dirInodeNum "." dirInodeNum) in
  fst (addDirectoryEntry fs dirInodeNum ".." parentInodeNum).

(** ** Path resolver *)

Definition slash : ascii := "/"%char.

(** The pieces [std::getline(ss, component, '/')] yields, empty ones
    included; [cur] is the piece being read. *)
Fixpoint split_slash (s : string) (cur : string) : list string :=
  match s with
  | EmptyString => [cur]
  | String c s' =>
    if Ascii.eqb c slash then cur :: split_slash s' EmptyString
    else split_slash s' (cur ++ String c EmptyString)
  end.

Definition str_empty (s : string) : bool :=
  match s with EmptyString => true | _ => false end.

Definition parsePath (path : string) : list string :=
  let rest := match path with
              | String c s' => if Ascii.eqb c slash then s' else path
              | EmptyString => path
              end in
  List.filter (fun c => negb (str_empty c)) (split_slash rest EmptyString).

(** The components loop of [getInodeFromPath]; [inodeNum] is an [int]. *)
Fixpoint walk_components (fs : FileSystem) (inodeNum : Z) (components : list string) : Z :=
  match components with
  | [] => inodeNum
  | component :: rest =>
    if String.eqb component "."%string then walk_components fs inodeNum rest
    else if String.eqb component ".."%string then
      if inodeNum =? 0 then walk_components fs inodeNum rest
      else
        match List.find (fun e => name_matches e (c_str ".."%string))
                        (readDirectoryEntries fs (to_uint inodeNum)) with
        | Some e => walk_components fs (to_int (inodeNumber e)) rest
        | None => -1
        end
    else
      let nextInode := findDirectoryEntry fs (to_uint inodeNum) component in
      if nextInode =? -1 then -1
      else walk_components fs nextInode rest
  end.

Definition getInodeFromPath (fs : FileSystem) (path : string) : Z :=
  match path with
  | EmptyString => currentInodeNumber fs
  | String c _ =>
    let start := if Ascii.eqb c slash then 0 else currentInodeNumber fs in
    walk_components fs start (parsePath path)
  end.

(** [path.find_last_of('/')]; [None] is [std::string::npos]. *)
Fixpoint find_last_of (s : string) : option nat :=
  match s with
  | EmptyString => None
  | String c s' =>
    match find_last_of s' with
    | Some k => Some (S k)
    | None => if Ascii.eqb c slash then Some O else None
    end
  end.

(** [path.substr(pos)] and [path.substr(0, n)]. *)
Fixpoint substr_from (pos : nat) (s : string) : string :=
  match pos, s with
  | O, _ => s
  | S p, String _ s' => substr_from p s'
  | S _, EmptyString => EmptyString
  end.

Fixpoint substr_to (n : nat) (s : string) : string :=
  match n, s with
  | O, _ => EmptyString
  | S p, String c s' => String c (substr_to p s')
  | S _, EmptyString => EmptyString
  end.

(** The [dirname] and [basename] locals of [getParentInodeAndFilename]. *)
Definition split_path (path : string) : string * string :=
  match find_last_of path with
  | None => ("."%string, path)
  | Some O => ("/"%string, substr_from 1 path)
  | Some lastSlash => (substr_to lastSlash path, substr_from (S lastSlash) path)
  end.

Definition getParentInodeAndFilename (fs : FileSystem) (path : string) : Z * string :=
  let '(dirname, basename) := split_path path in
  (getInodeFromPath fs dirname, basename).

(** ** Image initialisation and loading *)

Definition initializeFileSystem (now : Z) : FileSystem :=
  let m : mem := ∅ in
  let m := store m SB.magic 305419896 in
  let m := store m SB.blockSize BLOCK_SIZE in
  let m := store m SB.totalBlocks TOTAL_BLOCKS in
  let m := store m SB.freeBlocks (TOTAL_BLOCKS - FIRST_DATA_BLOCK) in
  let m := store m SB.maxInodes MAX_INODES in
  let m := store m SB.freeInodes (MAX_INODES - 1) in
  let m := store m SB.firstFreeBlock FIRST_DATA_BLOCK in
  let m := store m SB.firstFreeInode 1 in
  let m := foldl (fun acc i => store acc (block_word i) (i + 1)) m
                 (seqZ FIRST_DATA_BLOCK (TOTAL_BLOCKS - 1 - FIRST_DATA_BLOCK)) in
  let m := store m (block_word (TOTAL_BLOCKS - 1)) 0 in
  let m := foldl (fun acc i => store acc (inode_word i + IN.indirectBlock) (i + 1)) m
                 (seqZ 1 (MAX_INODES - 1 - 1)) in
  let m := store m (inode_word (MAX_INODES - 1) + IN.indirectBlock) 0 in
  let fs := mkFS m 0 "/" now in
  let t := wrap32 now in
  let rootInode := mkInode 1 0 t t (replicate 10 0) 0 in
  let '(fs, rootBlock) := allocateBlock fs in
  let rootInode := set_indirect (set_addr rootInode 0 rootBlock) 0 in
  let fs := writeInode fs 0 rootInode in
  let fs := initializeDirectory fs 0 0 in
  mkFS (memory fs) 0 "/" now.

(** [file] is the content of the backing file, when there is one: a
    file of [MEMORY_SIZE] bytes or more, given by the words of its first
    [MEMORY_SIZE] bytes, which replace the buffer.  A shorter file
    replaces only the bytes it holds; [loadFileSystem_from] below reads a
    file of any length. *)
Definition loadFileSystem (fs : FileSystem) (file : option (mem)) : FileSystem :=
  match file with
  | Some image => mkFS image 0 "/" (clock fs)
  | None => fs
  end.

(** ** Namespace operations *)

(** What a command prints: its error line, or its success line. *)
Inductive msg :=
  | Err_invalid_path
  | Err_already_exists
  | Err_too_large
  | Err_not_enough_blocks
  | Err_no_free_inodes
  | Err_alloc_blocks
  | Err_alloc_indirect
  | Err_alloc_indirect_data
  | Err_add_entry
  | Err_not_found
  | Err_not_a_file
  | Err_not_a_directory
  | Err_not_empty
  | Err_remove_entry
  | Err_source_not_found
  | Err_source_not_a_file
  | Ok_created
  | Ok_removed
  | Ok_copied
  | Ok_silent.

Definition is_error (r : msg) : bool :=
  match r with
  | Ok_created | Ok_removed | Ok_copied | Ok_silent => false
  | _ => true
  end.

Definition blocks_needed (size : Z) : Z := wrap32 (size + BLOCK_SIZE - 1) / BLOCK_SIZE.
Definition maxBlocks : Z := DIRECT_BLOCKS + BLOCK_SIZE / WORD_SIZE.

(** [for (i = 0; i < directBlocks; i++)] allocating; the flag is
    [allocationFailed]. *)
Fixpoint alloc_direct (fs : FileSystem) (inode : Inode) (idx : list Z)
    : FileSystem * Inode * bool :=
  match idx with
  | [] => (fs, inode, false)
  | i :: idx' =>
    let '(fs1, newBlock) := allocateBlock fs in
    if newBlock =? 0 then (fs1, inode, true)
    else alloc_direct fs1 (set_addr inode i newBlock) idx'
  end.

(** The cleanup loops over [inode.blockAddresses]; [guarded] tells whether
    the loop tests the address against 0 before the call. *)
Definition free_direct (guarded : bool) (fs : FileSystem) (inode : Inode) (idx : list Z)
    : FileSystem :=
  foldl (fun fs i => let b := addr inode i in
                     if guarded && (b =? 0) then fs else deallocateBlock fs b) fs idx.

(** The cleanup loops over [indirectBlockData], read from the image at
    each iteration. *)
Definition free_children (guarded : bool) (fs : FileSystem) (ind : Z) (idx : list Z)
    : FileSystem :=
  foldl (fun fs i => let b := load (memory fs) (block_word ind + i) in
                     if guarded && (b =? 0) then fs else deallocateBlock fs b) fs idx.

(** Allocation of the blocks recorded in the indirect block; on failure
    the index reached is returned for the cleanup. *)
Fixpoint alloc_children (fs : FileSystem) (ind : Z) (idx : list Z)
    : loop FileSystem (FileSystem * Z) :=
  match idx with
  | [] => Continue fs
  | i :: idx' =>
    let '(fs1, newBlock) := allocateBlock fs in
    if newBlock =? 0 then Return (fs1, i)
    else alloc_children (set_memory fs1 (store (memory fs1) (block_word ind + i) newBlock))
                        ind idx'
  end.

Definition cmdTouch (fs : FileSystem) (filename : string) (size : Z) : FileSystem * msg :=
  let '(parentInode, name) := getParentInodeAndFilename fs filename in
  if parentInode =? -1 then (fs, Err_invalid_path)
  else if negb (findDirectoryEntry fs (to_uint parentInode) name =? -1)
  then (fs, Err_already_exists)
  else
    let blocksNeeded := blocks_needed size in
    if maxBlocks <? blocksNeeded then (fs, Err_too_large)
    else
      let indirectBlockNeeded := if DIRECT_BLOCKS <? blocksNeeded then 1 else 0 in
      if freeBlocks fs <? blocksNeeded + indirectBlockNeeded then (fs, Err_not_enough_blocks)
      else
        let '(fs, newInode) := allocateInode fs in
        if newInode =? MAX_INODES then (fs, Err_no_free_inodes)
        else
          let inode := set_size (set_type (readInode fs newInode) 0) size in
          let directBlocks := Z.min blocksNeeded DIRECT_BLOCKS in
          let '(fs, inode, allocationFailed) := alloc_direct fs inode (seqZ 0 directBlocks) in
          if allocationFailed then
            let fs := free_direct true fs inode (seqZ 0 directBlocks) in
            (deallocateInode fs newInode, Err_alloc_blocks)
          else
            let finish (fs : FileSystem) (inode : Inode) :=
              let fs := writeInode fs newInode inode in
              let '(fs, added) := addDirectoryEntry fs (to_uint parentInode) name newInode in
              if added then (fs, Ok_created)
              else
                let fs := free_direct false fs inode (seqZ 0 directBlocks) in
                let fs :=
                  if indirectBlock inode =? 0 then fs
                  else
                    let fs := free_children true fs (indirectBlock inode)
                                (seqZ 0 (wrap32 (blocksNeeded - DIRECT_BLOCKS))) in
                    deallocateBlock fs (indirectBlock inode) in
                (deallocateInode fs newInode, Err_add_entry) in
            if DIRECT_BLOCKS <? blocksNeeded then
              let '(fs, ib) := allocateBlock fs in
              if ib =? 0 then
                let fs := free_direct false fs inode (seqZ 0 directBlocks) in
                (deallocateInode fs newInode, Err_alloc_indirect)
              else
                let inode := set_indirect inode ib in
                match alloc_children fs ib (seqZ 0 (blocksNeeded - DIRECT_BLOCKS)) with
                | Return (fs, i) =>
                  let fs := free_children false fs ib (seqZ 0 i) in
                  let fs := deallocateBlock fs ib in
                  let fs := free_direct false fs inode (seqZ 0 directBlocks) in
                  (deallocateInode fs newInode, Err_alloc_indirect_data)
                | Continue fs => finish fs inode
                end
            else finish fs inode.

(** The block-freeing tail shared, statement for statement, by [cmdRm] and
    [cmdRmdir]: direct blocks, indirect children, indirect block, inode. *)
Definition release_inode (fs : FileSystem) (inode : Inode) (inodeNum : Z) : FileSystem :=
  let fs := free_direct true fs inode (seqZ 0 DIRECT_BLOCKS) in
  let fs :=
    if indirectBlock inode =? 0 then fs
    else
      let fs := free_children true fs (indirectBlock inode) (seqZ 0 (BLOCK_SIZE / WORD_SIZE)) in
      deallocateBlock fs (indirectBlock inode) in
  deallocateInode fs (to_uint inodeNum).

Definition cmdRm (fs : FileSystem) (filename : string) : FileSystem * msg :=
  let '(parentInode, name) := getParentInodeAndFilename fs filename in
  if parentInode =? -1 then (fs, Err_invalid_path)
  else
    let fileInode := findDirectoryEntry fs (to_uint parentInode) name in
    if fileInode =? -1 then (fs, Err_not_found)
    else
      let inode := readInode fs (to_uint fileInode) in
      if negb (type inode =? 0) then (fs, Err_not_a_file)
      else
        let '(fs1, removed) := removeDirectoryEntry fs (to_uint parentInode) name in
        if negb removed then (fs1, Err_remove_entry)
        else (release_inode fs1 inode fileInode, Ok_removed).

Definition cmdMkdir (fs : FileSystem) (dirname : string) : FileSystem * msg :=
  let '(parentInode, name) := getParentInodeAndFilename fs dirname in
  if parentInode =? -1 then (fs, Err_invalid_path)
  else if negb (findDirectoryEntry fs (to_uint parentInode) name =? -1)
  then (fs, Err_already_exists)
  else if freeBlocks fs <? 1 then (fs, Err_not_enough_blocks)
  else
    let '(fs, newInode) := allocateInode fs in
    if newInode =? MAX_INODES then (fs, Err_no_free_inodes)
    else
      let inode := set_size (set_type (readInode fs newInode) 1) 0 in
      let '(fs, newBlock) := allocateBlock fs in
      if newBlock =? 0 then (deallocateInode fs newInode, Err_not_enough_blocks)
      else
        let inode := set_addr inode 0 newBlock in
        let fs := writeInode fs newInode inode in
        let fs := initializeDirectory fs newInode (to_uint parentInode) in
        let '(fs, added) := addDirectoryEntry fs (to_uint parentInode) name newInode in
        if added then (fs, Ok_created)
        else (deallocateInode (deallocateBlock fs newBlock) newInode, Err_add_entry).

(** The checks of [cmdRmdir] up to and including the emptiness test: the
    error printed, or the parent, the name, the directory found and the
    copy of its inode. *)
Definition rmdir_lookup (fs : FileSystem) (dirname : string) : msg + (Z * string * Z * Inode) :=
  let '(parentInode, name) := getParentInodeAndFilename fs dirname in
  if parentInode =? -1 then inl Err_invalid_path
  else
    let dirInode := findDirectoryEntry fs (to_uint parentInode) name in
    if dirInode =? -1 then inl Err_not_found
    else
      let inode := readInode fs (to_uint dirInode) in
      if negb (type inode =? 1) then inl Err_not_a_directory
      else if 2 <? Z.of_nat (length (readDirectoryEntries fs (to_uint dirInode)))
      then inl Err_not_empty
      else inr (parentInode, name, dirInode, inode).

Definition cmdRmdir (fs : FileSystem) (dirname : string) : FileSystem * msg :=
  match rmdir_lookup fs dirname with
  | inl e => (fs, e)
  | inr (parentInode, name, dirInode, inode) =>
    let '(fs1, removed) := removeDirectoryEntry fs (to_uint parentInode) name in
    if negb removed then (fs1, Err_remove_entry)
    else (release_inode fs1 inode dirInode, Ok_removed)
  end.

(** [memcpy(memory + dst * BLOCK_SIZE, memory + src * BLOCK_SIZE, BLOCK_SIZE)] *)
Definition copy_block (fs : FileSystem) (dst src : Z) : FileSystem :=
  let m := memory fs in
  set_memory fs
    (store_words m (block_word dst)
       (map (fun k => load m (block_word src + k)) (seqZ 0 (BLOCK_SIZE / WORD_SIZE)))).

(** The direct-block loop of [cmdCopyFile]: allocate, record, copy. *)
Fixpoint copy_direct (fs : FileSystem) (srcInode destInode : Inode) (idx : list Z)
    : FileSystem * Inode * bool :=
  match idx with
  | [] => (fs, destInode, false)
  | i :: idx' =>
    let '(fs1, newBlock) := allocateBlock fs in
    if newBlock =? 0 then (fs1, destInode, true)
    else
      let destInode := set_addr destInode i newBlock in
      let fs2 := if addr srcInode i =? 0 then fs1 else copy_block fs1 newBlock (addr srcInode i) in
      copy_direct fs2 srcInode destInode idx'
  end.

(** The loop over the source's indirect slots. *)
Fixpoint copy_children (fs : FileSystem) (srcInd destInd : Z) (idx : list Z)
    : loop FileSystem (FileSystem * Z) :=
  match idx with
  | [] => Continue fs
  | i :: idx' =>
    let srcChild := load (memory fs) (block_word srcInd + i) in
    if srcChild =? 0 then copy_children fs srcInd destInd idx'
    else
      let '(fs1, newBlock) := allocateBlock fs in
      if newBlock =? 0 then Return (fs1, i)
      else
        let fs2 := set_memory fs1 (store (memory fs1) (block_word destInd + i) newBlock) in
        let fs3 := copy_block fs2 newBlock (load (memory fs2) (block_word srcInd + i)) in
        copy_children fs3 srcInd destInd idx'
  end.

Definition cmdCopyFile (fs : FileSystem) (src dest : string) : FileSystem * msg :=
  let srcInodeNum := getInodeFromPath fs src in
  if srcInodeNum =? -1 then (fs, Err_source_not_found)
  else
    let srcInode := readInode fs (to_uint srcInodeNum) in
    if negb (type srcInode =? 0) then (fs, Err_source_not_a_file)
    else
      let '(destParentInode, destName) := getParentInodeAndFilename fs dest in
      if destParentInode =? -1 then (fs, Err_invalid_path)
      else if negb (findDirectoryEntry fs (to_uint destParentInode) destName =? -1)
      then (fs, Err_already_exists)
      else
        let blocksNeeded := blocks_needed (size srcInode) in
        let indirectBlockNeeded := if DIRECT_BLOCKS <? blocksNeeded then 1 else 0 in
        if freeBlocks fs <? wrap32 (blocksNeeded + indirectBlockNeeded)
        then (fs, Err_not_enough_blocks)
        else
          let '(fs, destInodeNum) := allocateInode fs in
          if destInodeNum =? MAX_INODES then (fs, Err_no_free_inodes)
          else
            let destInode := set_size (set_type (readInode fs destInodeNum) 0) (size srcInode) in
            let directBlocks := Z.min blocksNeeded DIRECT_BLOCKS in
            let '(fs, destInode, allocationFailed) :=
              copy_direct fs srcInode destInode (seqZ 0 directBlocks) in
            if allocationFailed then
              let fs := free_direct true fs destInode (seqZ 0 directBlocks) in
              (deallocateInode fs destInodeNum, Err_alloc_blocks)
            else
              let finish (fs : FileSystem) (destInode : Inode) :=
                let fs := writeInode fs destInodeNum destInode in
                let '(fs, added) :=
                  addDirectoryEntry fs (to_uint destParentInode) destName destInodeNum in
                if added then (fs, Ok_copied)
                else
                  let fs := free_direct false fs destInode (seqZ 0 directBlocks) in
                  let fs :=
                    if indirectBlock destInode =? 0 then fs
                    else
                      let fs := free_children true fs (indirectBlock destInode)
                                  (seqZ 0 (wrap32 (blocksNeeded - DIRECT_BLOCKS))) in
                      deallocateBlock fs (indirectBlock destInode) in
                  (deallocateInode fs destInodeNum, Err_add_entry) in
              if DIRECT_BLOCKS <? blocksNeeded then
                let '(fs, ib) := allocateBlock fs in
                if ib =? 0 then
                  let fs := free_direct false fs destInode (seqZ 0 directBlocks) in
                  (deallocateInode fs destInodeNum, Err_alloc_indirect)
                else
                  let destInode := set_indirect destInode ib in
                  if indirectBlock srcInode =? 0 then finish fs destInode
                  else
                    match copy_children fs (indirectBlock srcInode) ib
                                        (seqZ 0 (blocksNeeded - DIRECT_BLOCKS)) with
                    | Return (fs, i) =>
                      let fs := free_children true fs ib (seqZ 0 i) in
                      let fs := deallocateBlock fs ib in
                      let fs := free_direct false fs destInode (seqZ 0 directBlocks) in
                      (deallocateInode fs destInodeNum, Err_alloc_indirect_data)
                    | Continue fs => finish fs destInode
                    end
              else finish fs destInode.

(** ** change-dir *)

(** The normalisation loop; [acc] is [normalizedComponents]. *)
Fixpoint normalize_components (components : list string) (acc : list string) : list string :=
  match components with
  | [] => acc
  | component :: rest =>
    if String.eqb component "."%string then normalize_components rest acc
    else if String.eqb component ".."%string then normalize_components rest (removelast acc)
    else normalize_components rest (acc ++ [component])
  end.

Fixpoint last_char (s : string) : option ascii :=
  match s with
  | EmptyString => None
  | String c EmptyString => Some c
  | String _ s' => last_char s'
  end.

Definition strip_trailing_slash (s : string) : string :=
  if (1 <? str_length s)
     && match last_char s with Some c => Ascii.eqb c slash | None => false end
  then substr_to (Nat.pred (String.length s)) s
  else s.

Definition cmdCd (fs : FileSystem) (path : string) : FileSystem * msg :=
  match path with
  | EmptyString => (fs, Ok_silent)
  | String c _ =>
    let inodeNum := getInodeFromPath fs path in
    if inodeNum =? -1 then (fs, Err_invalid_path)
    else
      let inode := readInode fs (to_uint inodeNum) in
      if negb (type inode =? 1) then (fs, Err_not_a_directory)
      else
        let p : string :=
          if Ascii.eqb c slash then path
          else if String.eqb (currentPath fs) "/" then (currentPath fs ++ path)%string
          else (currentPath fs ++ "/" ++ path)%string in
        let normalizedComponents := normalize_components (parsePath p) [] in
        let p : string :=
          fold_left (fun acc component =>
                       if str_empty component then acc
                       else (acc ++ (component ++ "/"))%string)
                    normalizedComponents "/"%string in
        (mkFS (memory fs) (to_uint inodeNum) (strip_trailing_slash p) (clock fs), Ok_silent)
  end.

(** ** dump *)

(** The 1024 bytes at [memory + blockNum * BLOCK_SIZE]. *)
Definition block_bytes (m : mem) (blockNum : Z) : list Z :=
  flat_map bytes_of_word
           (map (fun k => load m (block_word blockNum + k)) (seqZ 0 (BLOCK_SIZE / WORD_SIZE))).

(** One of the two reading loops of [cmdCat] over the addresses [blocks]:
    the bytes written and the value of [remainingBytes] at exit.
    [remainingBytes -= bytesToRead] cannot wrap, [bytesToRead] being at
    most [remainingBytes]. *)
Fixpoint cat_loop (m : mem) (remainingBytes : Z) (blocks : list Z) : list Z * Z :=
  match blocks with
  | [] => ([], remainingBytes)
  | b :: blocks' =>
    if negb (0 <? remainingBytes) then ([], remainingBytes)
    else if b =? 0 then cat_loop m remainingBytes blocks'
    else
      let bytesToRead := Z.min remainingBytes BLOCK_SIZE in
      let '(out, r) := cat_loop m (remainingBytes - bytesToRead) blocks' in
      (take (Z.to_nat bytesToRead) (block_bytes m b) ++ out, r)
  end.

(** The bytes [cmdCat] writes between its header line and the final
    newline, for the inode copy [inode]. *)
Definition cat_inode (m : mem) (inode : Inode) : list Z :=
  let '(out1, remainingBytes) := cat_loop m (size inode) (blockAddresses inode) in
  if negb (indirectBlock inode =? 0) && (0 <? remainingBytes) then
    out1 ++ fst (cat_loop m remainingBytes (indirect_slots m (indirectBlock inode)))
  else out1.

Definition cmdCat (fs : FileSystem) (filename : string) : msg * list Z :=
  let inodeNum := getInodeFromPath fs filename in
  if inodeNum =? -1 then (Err_not_found, [])
  else
    let inode := readInode fs (to_uint inodeNum) in
    if negb (type inode =? 0) then (Err_not_a_file, [])
    else (Ok_silent, cat_inode (memory fs) inode).

(** ** Sequences of shell commands *)

Inductive command :=
  | Touch (filename : string) (size : Z)
  | Rm (filename : string)
  | Mkdir (dirname : string)
  | Rmdir (dirname : string)
  | Cp (src dest : string)
  | Cd (path : string).

Definition exec (fs : FileSystem) (c : command) : FileSystem * msg :=
  match c with
  | Touch f sz => cmdTouch fs f sz
  | Rm f => cmdRm fs f
  | Mkdir d => cmdMkdir fs d
  | Rmdir d => cmdRmdir fs d
  | Cp s d => cmdCopyFile fs s d
  | Cd p => cmdCd fs p
  end.

Definition run (fs : FileSystem) (cs : list command) : FileSystem :=
  fold_left (fun fs c => fst (exec fs c)) cs fs.

(** The namespace operations that change the image. *)
Definition mutating (c : command) : bool :=
  match c with Cd _ => false | _ => true end.

(** ** Walking the free-block list *)

(** At most [fuel] links are followed from [b]; [None] when the list has
    not reached its terminating 0 by then. *)
Fixpoint walk_free (m : mem) (fuel : nat) (b : Z) : option (list Z) :=
  if b =? 0 then Some []
  else match fuel with
       | O => None
       | S fuel' => cons b <$> walk_free m fuel' (load m (block_word b))
       end.

Definition in_data_area (b : Z) : bool := (FIRST_DATA_BLOCK <=? b) && (b <? TOTAL_BLOCKS).

(** The free-list invariant: the walk ends within [TOTAL_BLOCKS] steps,
    stays in the data area, and has [freeBlocks] entries. *)
Definition free_list_ok (fs : FileSystem) : bool :=
  match walk_free (memory fs) (Z.to_nat TOTAL_BLOCKS) (firstFreeBlock fs) with
  | Some l => forallb in_data_area l && (Z.of_nat (length l) =? freeBlocks fs)
  | None => false
  end.

(** ** Images and command sequences used as examples *)

(** The image a first start builds (no backing file), at a fixed clock. *)
Definition fresh : FileSystem :=
  loadFileSystem (initializeFileSystem 1700000000) None.

(** States the shell reaches from the fresh image without [cd]. *)
Definition reachable (fs : FileSystem) : Prop :=
  exists cs : list command, forallb mutating cs = true /\ fs = run fresh cs.

(** A directory is removed through its own [.] entry, then by its name. *)
Definition rmdir_dot_script : list command :=
  [Mkdir "/a"; Rmdir "/a/."; Rmdir "/a"].

(** A backing file whose superblock names block 5, an inode-table block,
    as the head of the free-block list. *)
Definition low_head_image : mem := store (memory fresh) SB.firstFreeBlock 5.

Definition low_head : FileSystem := loadFileSystem fresh (Some low_head_image).

(** Names [xaa], [xab], ... and the paths [/xaa], [/xab], ... *)
Definition link_name (k : nat) : string :=
  String "x" (String (ascii_of_nat (97 + k / 26))
                     (String (ascii_of_nat (97 + k mod 26)) EmptyString)).

Definition xname (k : nat) : string := String "/" (link_name k).

(** The files under [/d] take every data block but ten. *)
Definition big_files_script : list command :=
  [Mkdir "/d";
   Touch "/d/a" (266 * 1024); Touch "/d/b" (266 * 1024); Touch "/d/c" (266 * 1024);
   Touch "/d/e" (201 * 1024)].

(** A backing file whose root holds 320 live entries in ten full direct
    blocks and has no indirect block: the directory [d] and 319 further
    names of the file [/d/a] (inode 2), each added by [addDirectoryEntry].
    One data block is free; every other one belongs to the root, to [d]
    or to a file. *)
Definition full_root : FileSystem :=
  fold_left (fun fs k => fst (addDirectoryEntry fs 0 (link_name k) 2))
            (seq 0 319) (run fresh big_files_script).

(** [n] directories are made and each is removed through its own [.]
    entry, which frees its inode and block and leaves its name in the
    root. *)
Definition fill_root (n : nat) : list command :=
  flat_map (fun k => [Mkdir (xname k); Rmdir (xname k ++ "/.")]) (seq 0 n).

(** Shell commands after which the root has 320 live entries in ten full
    direct blocks and no indirect block, and one block is free. *)
Definition full_root_script : list command :=
  [Mkdir "/d"] ++ fill_root 319 ++
  [Touch "/d/a" (266 * 1024); Touch "/d/b" (266 * 1024); Touch "/d/c" (266 * 1024);
   Touch "/d/e" (201 * 1024)].

(** Thirty-two empty files fill the root's first block. *)
Definition one_block_script : list command :=
  map (fun k => Touch (xname k) 0) (seq 0 32).

Definition one_block_root : FileSystem := run fresh one_block_script.

(** A file of size 2048 whose first block address is 0: a backing file
    with a sparse file. *)
Definition sparse_file : FileSystem :=
  let fs := run fresh [Touch "/f" 2048] in
  writeInode fs 1 (set_addr (readInode fs 1) 0 0).

(** The superblock fields the round-trip laws compare. *)
Definition counts (fs : FileSystem) : Z * Z * Z * Z :=
  (freeBlocks fs, freeInodes fs, firstFreeBlock fs, firstFreeInode fs).

(** Every live entry of every directory block reachable from [inodeNum]. *)
Definition entry_names (fs : FileSystem) (inodeNum : Z) : list (list Z) :=
  map (fun e => cstr (name e)) (readDirectoryEntries fs inodeNum).

(** The blocks [cmdCat] reads for an inode: the nonzero direct addresses
    in index order, then the nonzero words of the indirect block in index
    order. *)
Definition file_blocks (m : mem) (inode : Inode) : list Z :=
  List.filter nonzero (blockAddresses inode)
  ++ (if indirectBlock inode =? 0 then []
      else List.filter nonzero (indirect_slots m (indirectBlock inode))).

(** The slot a new entry takes when the directory needs no new block: the
    first free slot of a direct block met before any empty direct
    address. *)
Fixpoint room_direct (m : mem) (addrs : list Z) : option (Z * Z) :=
  match addrs with
  | [] => None
  | a :: rest =>
    if a =? 0 then None
    else match find_free_slot m a with
         | Some j => Some (a, j)
         | None => room_direct m rest
         end
  end.

(** What create-dir under [parent] relies on: the heads of both free
    lists are valid and do not name the parent or one of its blocks, the
    parent's direct blocks lie in the data area, and the parent has room
    for one more entry in a direct block it already holds. *)
Definition mkdir_ready (fs : FileSystem) (parent : Z) : bool :=
  (firstFreeInode fs <? MAX_INODES) && negb (firstFreeInode fs =? parent)
  && in_data_area (firstFreeBlock fs)
  && forallb (fun a => (a =? 0) || (in_data_area a && negb (a =? firstFreeBlock fs)))
             (blockAddresses (readInode fs parent))
  && match room_direct (memory fs) (blockAddresses (readInode fs parent)) with
     | Some _ => true
     | None => false
     end.

(** A record whose fields are 32-bit values and which has its ten
    addresses. *)
Definition inode_ok (i : Inode) : Prop :=
  wrap32 (type i) = type i /\ wrap32 (size i) = size i
  /\ wrap32 (creationTime i) = creationTime i
  /\ wrap32 (modificationTime i) = modificationTime i
  /\ map wrap32 (blockAddresses i) = blockAddresses i
  /\ length (blockAddresses i) = 10%nat
  /\ wrap32 (indirectBlock i) = indirectBlock i.

Definition is_byte (x : Z) : Prop := 0 <= x < 256.

(** An entry as [addDirectoryEntry] builds it: a 28-byte name and a
    32-bit inode number. *)
Definition entry_ok (e : DirectoryEntry) : Prop :=
  length (name e) = 28%nat /\ Forall is_byte (name e) /\ 0 <= inodeNumber e < 4294967296.

(** ** The root's second block and a stale directory inode *)

(** The paths [/fxaa], [/fxab], ... *)
Definition fname (k : nat) : string := String "/" (String "f" (link_name k)).

(** Inode 1 gets two names in the root, [a] and [.]: the directory [/a]
    is freed through its own [.] entry, which leaves the entry [a] behind,
    and [mkdir /.] is given inode 1 again.  The directory [/s], its two
    files and 29 files in the root then fill the 32 slots of the root's
    block 9.  [rmdir /a] frees inode 1 and its block 10 a second time
    under the name [a] and leaves the entry [.]; the two inodes released
    by removing the files of [/s] come before inode 1 on the free list, so
    the next two files of the root take those: the first fills the slot
    of [a], the second makes the root allocate block 10 as its second
    block.  Inode 1, free and not cleared, still records block 10. *)
Definition root_block_script : list command :=
  [Mkdir "/a"; Rmdir "/a/."; Mkdir "/."; Mkdir "/s"; Touch "/s/x" 0; Touch "/s/y" 0]
  ++ map (fun k => Touch (fname k) 0) (seq 0 29)
  ++ [Rmdir "/a"; Rm "/s/x"; Rm "/s/y"; Touch "/g" 0; Touch "/h" 0].

(** What each command of a sequence reports, in order. *)
Fixpoint outcomes (fs : FileSystem) (cs : list command) : list msg :=
  match cs with
  | [] => []
  | c :: cs' => snd (exec fs c) :: outcomes (fst (exec fs c)) cs'
  end.

(** * Persistence, the listing, the debug report, and predicates on images *)

From stdpp Require sorting.

(** ** The inode record in its slot *)

(** [sizeof(Inode)] on the layout this development fixes: [time_t] takes 4
    bytes, every field is one word, and [indirectBlock], the last one, is
    word 14.  The slots of the inode table are [INODE_SIZE] = 64 bytes
    apart, so a record of 60 bytes lies within its slot.  With an 8-byte
    [time_t] the structure takes 72 bytes, [indirectBlock] is word 16 and
    falls on the first word of the next slot (for inode 127, on the link
    word of block 9): that build is not what is modelled here, and what
    is proved about inode records is proved for the 4-byte layout only. *)
Definition sizeof_Inode : Z := WORD_SIZE * (IN.indirectBlock + 1).

(** A directory record: size 64, block 12, indirect block 40. *)
Definition sample_inode : Inode :=
  mkInode 1 64 1700000000 1700000001 (12 :: replicate 9 0) 40.

(** ** The image file *)

(** What [filesystem.dat] holds: the number of its bytes, and the bytes
    themselves, taken four at a time as little-endian words (word index to
    word, as for the buffer).  Of a last word the file holds only in
    part, the bytes beyond the end of the file count for nothing. *)
Record image_file := mkFile {
  file_bytes : Z;
  file_words : mem
}.

Definition MEMORY_WORDS : Z := MEMORY_SIZE / WORD_SIZE.

(** [file.read(memory, MEMORY_SIZE)]: the bytes the file holds, at most
    [MEMORY_SIZE] of them, are copied to the start of the buffer; the
    buffer beyond them keeps what it held.  The word the file ends in,
    when it ends inside one, gets its low-order bytes from the file. *)
Definition read_file (m : mem) (f : image_file) : mem :=
  let n := Z.min (Z.max 0 (file_bytes f)) MEMORY_SIZE in
  let q := n / WORD_SIZE in
  let r := n mod WORD_SIZE in
  let m1 := foldl (fun acc w => store acc w (load (file_words f) w)) m (seqZ 0 q) in
  if r =? 0 then m1
  else store m1 q (load (file_words f) q mod 2 ^ (8 * r)
                   + load m q / 2 ^ (8 * r) * 2 ^ (8 * r)).

(** [loadFileSystem] on the file as it is: [None] when the file cannot be
    opened, and then nothing happens.  [loadFileSystem] above is this for
    a file of [MEMORY_SIZE] bytes or more, given by its words. *)
Definition loadFileSystem_from (fs : FileSystem) (file : option image_file) : FileSystem :=
  match file with
  | Some f => mkFS (read_file (memory fs) f) 0 "/" (clock fs)
  | None => fs
  end.

(** [saveFileSystem]: the file afterwards.  When it can be opened for
    writing it is truncated and the [MEMORY_SIZE] bytes of the buffer are
    written to it; when it cannot, it stays as it was ([old]).  A write
    that the system cuts short is not modelled. *)
Definition saveFileSystem (fs : FileSystem) (can_open : bool) (old : option image_file)
    : option image_file :=
  if can_open then Some (mkFile MEMORY_SIZE (memory fs)) else old.

(** The constructor: [initializeFileSystem] then [loadFileSystem]. *)
Definition newFileSystem (now : Z) (file : option image_file) : FileSystem :=
  loadFileSystem_from (initializeFileSystem now) file.

(** ** cmdLs *)

(** [strcmp(a, b) < 0] on C strings, compared as unsigned bytes. *)
Fixpoint strcmp_lt (a b : list Z) : bool :=
  match a, b with
  | [], [] => false
  | [], _ :: _ => true
  | _ :: _, [] => false
  | x :: a', y :: b' =>
    if x <? y then true else if y <? x then false else strcmp_lt a' b'
  end.

(** What [std::sort] with the comparator [strcmp(a.name, b.name) < 0]
    establishes between an entry and a later one: the later name is not
    less than the earlier.  The order it leaves entries of equal name in
    is unspecified; the merge sort below is one such order, and nothing
    proved about the listing depends on which. *)
Definition name_le (e1 e2 : DirectoryEntry) : Prop :=
  strcmp_lt (cstr (name e2)) (cstr (name e1)) = false.

#[global] Instance name_le_dec (e1 e2 : DirectoryEntry) : Decision (name_le e1 e2) :=
  decide (strcmp_lt (cstr (name e2)) (cstr (name e1)) = false).

(** One line of the listing: the name, whether the type column says
    [File], the size, and the modification time (printed by the C library
    in local time, which is not modelled). *)
Record ls_row := mkRow {
  row_name : list Z;
  row_is_file : bool;
  row_size : Z;
  row_mtime : Z
}.

Definition ls_entry_row (fs : FileSystem) (e : DirectoryEntry) : ls_row :=
  let entryInode := readInode fs (inodeNumber e) in
  mkRow (cstr (name e)) (type entryInode =? 0) (size entryInode) (modificationTime entryInode).

(** The message, the path of the header line and the rows. *)
Definition cmdLs (fs : FileSystem) (path : string) : msg * string * list ls_row :=
  let inodeNum := if str_empty path then currentInodeNumber fs else getInodeFromPath fs path in
  if inodeNum =? -1 then (Err_invalid_path, EmptyString, [])
  else
    let inode := readInode fs (to_uint inodeNum) in
    if negb (type inode =? 1) then (Err_not_a_directory, EmptyString, [])
    else
      let entries := sorting.merge_sort name_le (readDirectoryEntries fs (to_uint inodeNum)) in
      (Ok_silent, if str_empty path then currentPath fs else path,
       map (ls_entry_row fs) entries).

(** ** cmdDebug *)

Inductive debug_error :=
| Debug_invalid_block (block : Z)
| Debug_cycle.

Record debug_report := mkReport {
  counted : Z;
  error : option debug_error;
  mismatch : bool
}.

(** The integrity loop.  Each round adds one to [count] and the loop runs
    while [count < freeBlocks], so [freeBlocks] rounds of fuel are enough;
    [None] is fuel running out. *)
Fixpoint debug_walk (m : mem) (fuel : nat) (block count : Z)
  : option (Z * option debug_error) :=
  if (block =? 0) || negb (count <? load m SB.freeBlocks) then Some (count, None)
  else
    match fuel with
    | O => None
    | S fuel' =>
        if TOTAL_BLOCKS <=? block then Some (count, Some (Debug_invalid_block block))
        else
          let block := load m (block_word block) in
          let count := wrap32 (count + 1) in
          if load m SB.totalBlocks <? count then Some (count, Some Debug_cycle)
          else debug_walk m fuel' block count
    end.

Definition cmdDebug (fs : FileSystem) : option debug_report :=
  let m := memory fs in
  match debug_walk m (Z.to_nat (load m SB.freeBlocks)) (load m SB.firstFreeBlock) 0 with
  | Some (count, err) => Some (mkReport count err (negb (count =? load m SB.freeBlocks)))
  | None => None
  end.

(** ** Predicates on images *)

(** The free list as a walk from the superblock's head. *)
Definition free_list (fs : FileSystem) : option (list Z) :=
  walk_free (memory fs) (Z.to_nat TOTAL_BLOCKS) (firstFreeBlock fs).

Definition on_free_list (fs : FileSystem) (b : Z) : bool :=
  match free_list fs with
  | Some l => existsb (Z.eqb b) l
  | None => false
  end.

(** Every direct address of inode [d] is 0 or a data block. *)
Definition dir_direct_ok (fs : FileSystem) (d : Z) : bool :=
  forallb (fun a => (a =? 0) || in_data_area a) (blockAddresses (readInode fs d)).

(** What adding an entry to directory [d] without a new block relies on:
    [d] is a directory whose direct blocks lie in the data area and one of
    them, met before any empty direct address, has a free slot. *)
Definition add_ready (fs : FileSystem) (d : Z) : bool :=
  (0 <=? d) && (type (readInode fs d) =? 1) && dir_direct_ok fs d
  && match room_direct (memory fs) (blockAddresses (readInode fs d)) with
     | Some _ => true
     | None => false
     end.

(** What create-file under [parent] followed by remove-file relies on:
    the free-block list is well formed, the head of the free-inode list is
    a valid inode other than the parent, and the parent is a directory
    without indirect block that has room for the entry in a direct block
    and none of whose blocks is on the free list. *)
Definition touch_ready (fs : FileSystem) (parent : Z) : bool :=
  free_list_ok fs
  && (firstFreeInode fs <? MAX_INODES) && negb (firstFreeInode fs =? parent)
  && add_ready fs parent
  && (indirectBlock (readInode fs parent) =? 0)
  && forallb (fun a => negb (on_free_list fs a)) (blockAddresses (readInode fs parent)).

(** Whether [s] begins with a slash. *)
Definition is_absolute (s : string) : bool :=
  match s with
  | String c _ => Ascii.eqb c slash
  | EmptyString => false
  end.

(** The errors a command reports before it has allocated anything, and
    the failure of [removeDirectoryEntry]. *)
Definition is_rejection (r : msg) : bool :=
  match r with
  | Err_invalid_path | Err_already_exists | Err_too_large | Err_not_enough_blocks
  | Err_not_found | Err_not_a_file | Err_not_a_directory | Err_not_empty
  | Err_source_not_found | Err_source_not_a_file | Err_remove_entry => true
  | _ => false
  end.

(** [cmdMkdir] prints its out-of-blocks message a second time after it has
    allocated and released an inode, so for it that message is no sign of
    an untouched state. *)
Definition rejected (c : command) (r : msg) : bool :=
  match c, r with
  | Mkdir _, Err_not_enough_blocks => false
  | _, _ => is_rejection r
  end.

(** A path component as [parsePath] yields them: not empty, no slash. *)
Definition component_ok (c : string) : Prop := c <> EmptyString /\ find_last_of c = None.

(** Case analysis on every test and call result a command's result
    depends on. *)
Ltac split_branches :=
  repeat (match goal with
          | |- context [match ?x with _ => _ end] =>
            match type of x with
            | bool => destruct x eqn:?
            | prod _ _ => destruct x as [? ?] eqn:?
            | loop _ _ => destruct x as [?|[? ?]] eqn:?
            end
          end; cbn [fst snd is_rejection negb]).


(** * Properties *)

(** ** Memory *)

Lemma wrap32_range (x : Z) : 0 <= wrap32 x < 4294967296.
Proof. unfold wrap32. apply Z.mod_pos_bound. lia. Qed.

Lemma wrap32_small (x : Z) : 0 <= x < 4294967296 -> wrap32 x = x.
Proof. intros H. unfold wrap32. apply Z.mod_small. exact H. Qed.

Lemma load_range (m : mem) (a : Z) : 0 <= load m a < 4294967296.
Proof. apply wrap32_range. Qed.

Lemma block_offset_eq (a b : Z) :
  a / BLOCK_WORDS = b / BLOCK_WORDS -> a mod BLOCK_WORDS = b mod BLOCK_WORDS -> a = b.
Proof.
  change BLOCK_WORDS with 256. intros H1 H2.
  rewrite (Z.div_mod a 256), (Z.div_mod b 256) by lia. rewrite H1, H2. reflexivity.
Qed.

Lemma load_store (m : mem) (a b v : Z) :
  load (store m a v) b = if decide (a = b) then wrap32 v else load m b.
Proof.
  unfold load, store.
  destruct (decide (a = b)) as [->|Hne].
  - rewrite lookup_insert_eq. cbn [mbind option_bind]. rewrite lookup_insert_eq. reflexivity.
  - destruct (decide (a / BLOCK_WORDS = b / BLOCK_WORDS)) as [E|E].
    + rewrite E, lookup_insert_eq. cbn [mbind option_bind].
      rewrite lookup_insert_ne
        by (intros E'; apply Hne, block_offset_eq; [exact E|exact E']).
      destruct (m !! (b / BLOCK_WORDS)) as [blk|]; cbn [default mbind option_bind];
        [reflexivity|]. rewrite lookup_empty. reflexivity.
    + rewrite lookup_insert_ne by exact E. reflexivity.
Qed.

Lemma load_store_eq (m : mem) (a v : Z) : load (store m a v) a = wrap32 v.
Proof. rewrite load_store. destruct (decide (a = a)); congruence. Qed.

Lemma load_store_ne (m : mem) (a b v : Z) : a <> b -> load (store m a v) b = load m b.
Proof. intros H. rewrite load_store. destruct (decide (a = b)); congruence. Qed.

(** ** change-dir *)

(** C10: change-dir with the empty path returns at once: the state, and so
    the current inode number and the current path, is the one it was
    given, and nothing is reported. *)
Theorem cmdCd_empty_noop (fs : FileSystem) :
  cmdCd fs "" = (fs, Ok_silent)
  /\ currentInodeNumber (fst (cmdCd fs "")) = currentInodeNumber fs
  /\ currentPath (fst (cmdCd fs "")) = currentPath fs
  /\ is_error (snd (cmdCd fs "")) = false.
Proof. repeat split. Qed.

(** ** The free-block list *)

Example fresh_free_list_ok : free_list_ok fresh = true.
Proof. vm_compute. reflexivity. Qed.

(** C1: the sequence [mkdir /a; rmdir /a/.; rmdir /a] uses only namespace
    operations, yet in the state it reaches the walk from the head does
    not end within 1024 steps (block 10 links to itself) and the count,
    1031, exceeds the number of data blocks. *)
Theorem free_list_broken_by_rmdir_dot :
  reachable (run fresh rmdir_dot_script)
  /\ walk_free (memory (run fresh rmdir_dot_script)) (Z.to_nat TOTAL_BLOCKS)
               (firstFreeBlock (run fresh rmdir_dot_script)) = None
  /\ free_list_ok (run fresh rmdir_dot_script) = false
  /\ freeBlocks (run fresh rmdir_dot_script) = 1031
  /\ load (memory (run fresh rmdir_dot_script)) (block_word 10) = 10.
Proof.
  split.
  - exists rmdir_dot_script. split; reflexivity.
  - vm_compute. repeat split.
Qed.

(** ** allocateBlock *)

Lemma allocateBlock_high_head (fs : FileSystem) :
  TOTAL_BLOCKS <= firstFreeBlock fs -> allocateBlock fs = (fs, 0).
Proof.
  intros H. unfold allocateBlock, firstFreeBlock in *.
  destruct (_ || _); [reflexivity|].
  destruct (TOTAL_BLOCKS <=? load (memory fs) SB.firstFreeBlock) eqn:E; [reflexivity|].
  apply Z.leb_gt in E. lia.
Qed.

(** C6: with head 5 and a nonzero count, [allocateBlock] returns 5, a
    block of the inode table, pops it and decrements the count. *)
Theorem allocateBlock_returns_low_head :
  firstFreeBlock low_head = 5
  /\ in_data_area 5 = false
  /\ snd (allocateBlock low_head) = 5
  /\ freeBlocks (fst (allocateBlock low_head)) = freeBlocks low_head - 1
  /\ firstFreeBlock (fst (allocateBlock low_head)) = load (memory low_head) (block_word 5).
Proof. vm_compute. repeat split. Qed.

(** ** The size check of create-file *)


(** Past the path and duplicate checks, a block count above 266 is
    refused and the image is the one given. *)
Lemma cmdTouch_too_large (fs : FileSystem) (filename : string) (size : Z) :
  fst (getParentInodeAndFilename fs filename) <> -1 ->
  findDirectoryEntry fs (to_uint (fst (getParentInodeAndFilename fs filename)))
                     (snd (getParentInodeAndFilename fs filename)) = -1 ->
  maxBlocks < blocks_needed size ->
  cmdTouch fs filename size = (fs, Err_too_large).
Proof.
  intros Hp Hd Hs. unfold cmdTouch.
  destruct (getParentInodeAndFilename fs filename) as [p n]; simpl in *.
  destruct (p =? -1) eqn:E1; [apply Z.eqb_eq in E1; congruence|].
  rewrite Hd. simpl.
  destruct (maxBlocks <? blocks_needed size) eqn:E2; [reflexivity|].
  apply Z.ltb_ge in E2. lia.
Qed.

Example touch_266_blocks_succeeds :
  blocks_needed (266 * 1024) = 266
  /\ snd (cmdTouch fresh "/f" (266 * 1024)) = Ok_created
  /\ freeBlocks (fst (cmdTouch fresh "/f" (266 * 1024))) = freeBlocks fresh - 267.
Proof. vm_compute. repeat split. Qed.

Example touch_267_blocks_fails :
  blocks_needed (266 * 1024 + 1) = 267
  /\ cmdTouch fresh "/f" (266 * 1024 + 1) = (fresh, Err_too_large).
Proof.
  split; [reflexivity|]. apply cmdTouch_too_large; vm_compute; congruence.
Qed.

(** C4: for size 4294967295, [size + BLOCK_SIZE - 1] wraps, the block count
    computed is 0 where the ceiling of size/1024 is 4194304, and the file
    is created: an inode is taken and an entry is added. *)
Theorem touch_size_wraps :
  (4294967295 + BLOCK_SIZE - 1) / BLOCK_SIZE = 4194304
  /\ blocks_needed 4294967295 = 0
  /\ snd (cmdTouch fresh "/f" 4294967295) = Ok_created
  /\ freeInodes (fst (cmdTouch fresh "/f" 4294967295)) = freeInodes fresh - 1
  /\ size (readInode (fst (cmdTouch fresh "/f" 4294967295)) 1) = 4294967295
  /\ entry_names (fst (cmdTouch fresh "/f" 4294967295)) 0 = [c_str "f"].
Proof. vm_compute. repeat split. Qed.

(** ** Stores and the words they leave *)

Lemma load_store_words (ws : list Z) (m : mem) (w a : Z) :
  load (store_words m w ws) a
  = if decide (w <= a < w + Z.of_nat (length ws))
    then wrap32 (default 0 (ws !! Z.to_nat (a - w)))
    else load m a.
Proof.
  revert m w. induction ws as [|x ws IH]; intros m w; cbn [store_words length].
  - destruct (decide _) as [H|H]; [lia|reflexivity].
  - rewrite IH, load_store.
    destruct (decide (w + 1 <= a < w + 1 + Z.of_nat (length ws))) as [H1|H1];
      destruct (decide (w <= a < w + Z.of_nat (S (length ws)))) as [H2|H2]; try lia.
    + replace (Z.to_nat (a - w)) with (S (Z.to_nat (a - (w + 1)))) by lia. reflexivity.
    + destruct (decide (w = a)) as [->|H3]; [|lia].
      replace (a - a) with 0 by lia. reflexivity.
    + destruct (decide (w = a)) as [H3|H3]; [lia|reflexivity].
Qed.

Lemma load_store_words_out (ws : list Z) (m : mem) (w a : Z) :
  a < w \/ w + Z.of_nat (length ws) <= a -> load (store_words m w ws) a = load m a.
Proof.
  intros H. rewrite load_store_words. destruct (decide _); [lia|reflexivity].
Qed.

Lemma load_store_words_in (ws : list Z) (m : mem) (w : Z) (k : nat) (x : Z) :
  ws !! k = Some x -> load (store_words m w ws) (w + Z.of_nat k) = wrap32 x.
Proof.
  intros H. rewrite load_store_words.
  pose proof (lookup_lt_Some _ _ _ H) as Hk.
  destruct (decide _); [|lia].
  replace (Z.to_nat (w + Z.of_nat k - w)) with k by lia. rewrite H. reflexivity.
Qed.

Lemma load_zero_block (m : mem) (w a : Z) :
  w mod BLOCK_WORDS = 0 ->
  load (zero_block m w) a = if decide (w <= a < w + BLOCK_WORDS) then 0 else load m a.
Proof.
  change BLOCK_WORDS with 256. intros Hw. unfold load, zero_block.
  change BLOCK_WORDS with 256.
  assert (w = 256 * (w / 256)) as Ew by (rewrite (Z.div_mod w 256) at 1 by lia; lia).
  destruct (decide (w <= a < w + 256)) as [H|H].
  - assert (a / 256 = w / 256) as -> by (symmetry; apply (Z.div_unique a 256 _ (a - w)); lia).
    rewrite lookup_delete_eq. reflexivity.
  - rewrite lookup_delete_ne; [reflexivity|].
    intros E. apply H.
    pose proof (Z.mod_pos_bound a 256 ltac:(lia)) as Ha.
    rewrite (Z.div_mod a 256) by lia. rewrite <- E. lia.
Qed.

Lemma block_word_aligned (b : Z) : block_word b mod BLOCK_WORDS = 0.
Proof.
  unfold block_word, wrap32, BLOCK_SIZE, WORD_SIZE. change BLOCK_WORDS with 256.
  pose proof (Z.div_mod (b * 1024) 4294967296 ltac:(lia)) as H.
  set (q := b * 1024 / 4294967296) in *.
  replace ((b * 1024) mod 4294967296) with ((b - 4194304 * q) * 256 * 4) by lia.
  rewrite Z.div_mul by lia. apply Z.mod_mul. lia.
Qed.

Lemma length_inode_words (i : Inode) : length (inode_words i) = 15%nat.
Proof. reflexivity. Qed.

(** ** Word indices *)

Lemma block_word_small (b : Z) : 0 <= b < 4194304 -> block_word b = 256 * b.
Proof.
  intros H. unfold block_word, wrap32, BLOCK_SIZE, WORD_SIZE.
  rewrite Z.mod_small by lia. replace (b * 1024) with (256 * b * 4) by lia.
  apply Z.div_mul. lia.
Qed.

Lemma inode_word_small (i : Z) : 0 <= i < 67108864 -> inode_word i = 256 + 16 * i.
Proof.
  intros H. unfold inode_word, wrap32, BLOCK_SIZE, INODE_SIZE, WORD_SIZE.
  rewrite Z.mod_small by lia. replace (i * 64) with (16 * i * 4) by lia.
  rewrite Z.div_mul by lia. reflexivity.
Qed.

Lemma entry_word_small (b j : Z) : 0 <= b < 4194304 -> entry_word b j = 256 * b + 8 * j.
Proof.
  intros H. unfold entry_word. rewrite block_word_small by exact H.
  unfold ENTRY_WORDS, DIRENT_SIZE, WORD_SIZE. change (32 / 4) with 8. lia.
Qed.

(** ** Inode records read back *)

Lemma wrap32_idem (x : Z) : wrap32 (wrap32 x) = wrap32 x.
Proof. apply wrap32_small, wrap32_range. Qed.

Lemma wrap32_load (m : mem) (a : Z) : wrap32 (load m a) = load m a.
Proof. apply wrap32_small, load_range. Qed.

Lemma readInode_ok (fs : FileSystem) (i : Z) : inode_ok (readInode fs i).
Proof.
  unfold readInode. destruct (MAX_INODES <=? i).
  - repeat split.
  - unfold inode_ok. cbn [type size creationTime modificationTime blockAddresses indirectBlock].
    rewrite !wrap32_load. repeat split.
    rewrite map_map. apply map_ext. intros k. apply wrap32_load.
Qed.

Lemma map_addr_seqZ (i : Inode) :
  length (blockAddresses i) = 10%nat ->
  map (addr i) (seqZ 0 DIRECT_BLOCKS) = blockAddresses i.
Proof.
  intros H. unfold addr. destruct i as [? ? ? ? l ?]. cbn [blockAddresses] in *.
  do 10 (destruct l as [|? l]; [discriminate|]). destruct l; [reflexivity|discriminate].
Qed.

Lemma readInode_ext (fs fs' : FileSystem) (i : Z) :
  (forall a, inode_word i <= a < inode_word i + 15 -> load (memory fs') a = load (memory fs) a) ->
  readInode fs' i = readInode fs i.
Proof.
  intros H. unfold readInode. destruct (MAX_INODES <=? i); [reflexivity|].
  unfold IN.type, IN.size, IN.creationTime, IN.modificationTime, IN.blockAddresses,
    IN.indirectBlock.
  rewrite !H by lia. f_equal.
  apply map_ext_in. intros k Hk. apply list_elem_of_In, elem_of_seqZ in Hk.
  unfold DIRECT_BLOCKS in Hk. apply H. lia.
Qed.

Lemma readInode_writeInode (fs : FileSystem) (i : Z) (ino : Inode) :
  i < MAX_INODES -> inode_ok ino -> readInode (writeInode fs i ino) i = ino.
Proof.
  intros Hi (H1 & H2 & H3 & H4 & H5 & H6 & H7).
  unfold readInode, writeInode.
  destruct (MAX_INODES <=? i) eqn:E; [apply Z.leb_le in E; lia|].
  cbn [memory set_memory]. unfold store_inode.
  set (b := inode_word i).
  assert (forall (k : Z) x, 0 <= k -> inode_words ino !! Z.to_nat k = Some x ->
            load (store_words (memory fs) b (inode_words ino)) (b + k) = wrap32 x) as L.
  { intros k x Hk Hx. replace k with (Z.of_nat (Z.to_nat k)) at 1 by lia.
    apply load_store_words_in, Hx. }
  unfold IN.type, IN.size, IN.creationTime, IN.modificationTime, IN.blockAddresses,
    IN.indirectBlock.
  destruct ino as [ty sz ct mt l ind]. cbn [type size creationTime modificationTime
    blockAddresses indirectBlock] in *.
  do 10 (destruct l as [|? l]; [discriminate|]). destruct l; [|discriminate].
  injection H5 as ? ? ? ? ? ? ? ? ? ?.
  change (seqZ 0 DIRECT_BLOCKS) with [0;1;2;3;4;5;6;7;8;9]. cbn [map].
  rewrite (L 0 ty), (L 1 sz), (L 2 ct), (L 3 mt), (L 14 ind) by (reflexivity || lia).
  replace (b + 4 + 0) with (b + 4) by lia.
  replace (b + 4 + 1) with (b + 5) by lia.
  replace (b + 4 + 2) with (b + 6) by lia.
  replace (b + 4 + 3) with (b + 7) by lia.
  replace (b + 4 + 4) with (b + 8) by lia.
  replace (b + 4 + 5) with (b + 9) by lia.
  replace (b + 4 + 6) with (b + 10) by lia.
  replace (b + 4 + 7) with (b + 11) by lia.
  replace (b + 4 + 8) with (b + 12) by lia.
  replace (b + 4 + 9) with (b + 13) by lia.
  rewrite (L 4 z), (L 5 z0), (L 6 z1), (L 7 z2), (L 8 z3),
    (L 9 z4), (L 10 z5), (L 11 z6), (L 12 z7), (L 13 z8) by (reflexivity || lia).
  congruence.
Qed.

Lemma load_writeInode_out (fs : FileSystem) (i : Z) (ino : Inode) (a : Z) :
  a < inode_word i \/ inode_word i + 15 <= a ->
  load (memory (writeInode fs i ino)) a = load (memory fs) a.
Proof.
  intros H. unfold writeInode. destruct (MAX_INODES <=? i); [reflexivity|].
  cbn [memory set_memory]. unfold store_inode.
  apply load_store_words_out. rewrite length_inode_words. lia.
Qed.

(** ** split_parent *)

Lemma find_last_of_app_slash (p : string) :
  find_last_of (p ++ "/") = Some (String.length p).
Proof.
  induction p as [|c p IH]; simpl; [reflexivity|].
  rewrite IH. reflexivity.
Qed.

Lemma substr_to_app (p s : string) : substr_to (String.length p) (p ++ s) = p.
Proof. induction p as [|c p IH]; simpl; [destruct s; reflexivity|]. rewrite IH. reflexivity. Qed.

Lemma substr_from_app (p s : string) : substr_from (String.length p) (p ++ s) = s.
Proof. induction p as [|c p IH]; simpl; [reflexivity|]. exact IH. Qed.

Lemma substr_from_past (p : string) :
  substr_from (S (String.length p)) (p ++ "/") = ""%string.
Proof. induction p as [|c p IH]; simpl; [reflexivity|]. exact IH. Qed.

Lemma split_path_trailing_slash (p : string) :
  split_path (p ++ "/") = (if str_empty p then "/"%string else p, ""%string).
Proof.
  unfold split_path. rewrite find_last_of_app_slash.
  destruct p as [|c p]; [reflexivity|].
  cbn [String.length str_empty].
  f_equal.
  - apply (substr_to_app (String c p)).
  - apply (substr_from_past (String c p)).
Qed.

(** C8, the claim at a concrete input: on the fresh image [/] is split into
    the root and the empty basename with no error, and create-dir [/]
    succeeds and leaves in the root a live entry whose name is empty. *)
Lemma split_parent_accepts_empty_basename :
  getParentInodeAndFilename fresh "/" = (0, ""%string)
  /\ snd (cmdMkdir fresh "/") = Ok_created
  /\ entry_names (fst (cmdMkdir fresh "/")) 0 = [[]].
Proof. vm_compute. repeat split. Qed.

(** C8 as amended: a path ending in [/] is split into the path before the
    slash (the root for [/] itself) and the empty basename; the parent
    returned is what that path resolves to, so the only error reported is
    an unresolved parent.  The empty path likewise gives the current
    directory and the empty basename. *)
Theorem split_parent_trailing_slash (fs : FileSystem) (p : string) :
  getParentInodeAndFilename fs (p ++ "/")
  = (getInodeFromPath fs (if str_empty p then "/" else p), ""%string)
  /\ getParentInodeAndFilename fs "" = (currentInodeNumber fs, ""%string).
Proof.
  split.
  - unfold getParentInodeAndFilename. rewrite split_path_trailing_slash. reflexivity.
  - reflexivity.
Qed.

(** ** remove-dir and the root *)

Lemma block_entries_live (m : mem) (b : Z) (e : DirectoryEntry) :
  In e (block_entries m b) -> 0 < inodeNumber e < 4294967296.
Proof.
  unfold block_entries. intros H. apply filter_In in H as [H Hnz].
  apply in_map_iff in H as (j & <- & _). cbn [inodeNumber read_entry] in *.
  pose proof (load_range m (entry_word b j + NAME_WORDS)) as R.
  apply negb_true_iff, Z.eqb_neq in Hnz. lia.
Qed.

Lemma readDirectoryEntries_live (fs : FileSystem) (i : Z) (e : DirectoryEntry) :
  In e (readDirectoryEntries fs i) -> 0 < inodeNumber e < 4294967296.
Proof.
  unfold readDirectoryEntries. destruct (negb _); [intros []|].
  intros H. apply in_app_or in H as [H|H].
  - apply in_flat_map in H as (b & _ & H). eapply block_entries_live, H.
  - destruct (indirectBlock _ =? 0); [destruct H|].
    apply in_flat_map in H as (b & _ & H). eapply block_entries_live, H.
Qed.

(** The lookup answers -1 or the nonzero inode number of a live entry. *)
Lemma findDirectoryEntry_cases (fs : FileSystem) (d : Z) (nm : string) :
  findDirectoryEntry fs d nm = -1
  \/ exists x, 0 < x < 4294967296 /\ findDirectoryEntry fs d nm = to_int x.
Proof.
  unfold findDirectoryEntry.
  destruct (List.find _ _) as [e|] eqn:E; [right|left; reflexivity].
  apply find_some in E as [E _]. apply readDirectoryEntries_live in E. eauto.
Qed.

Lemma findDirectoryEntry_nonzero (fs : FileSystem) (d : Z) (nm : string) :
  findDirectoryEntry fs d nm <> 0.
Proof.
  destruct (findDirectoryEntry_cases fs d nm) as [->|(x & Hx & ->)]; [lia|].
  unfold to_int. destruct (2147483648 <=? x) eqn:E; lia.
Qed.

Lemma readInode_directory_range (fs : FileSystem) (i : Z) :
  type (readInode fs i) = 1 -> i < MAX_INODES.
Proof.
  unfold readInode. destruct (MAX_INODES <=? i) eqn:E; [discriminate|].
  intros _. apply Z.leb_gt in E. exact E.
Qed.

Lemma removeDirectoryEntry_failure (fs fs' : FileSystem) (d : Z) (nm : string) :
  removeDirectoryEntry fs d nm = (fs', false) -> fs' = fs.
Proof.
  unfold removeDirectoryEntry. destruct (negb _); [congruence|].
  destruct (remove_in _ _ _ _ (blockAddresses _)); [discriminate|].
  destruct (indirectBlock _ =? 0); [congruence|].
  destruct (remove_in _ _ _ _ _); [discriminate|congruence].
Qed.

Lemma firstFreeInode_deallocateInode (fs : FileSystem) (i : Z) :
  0 <= i < MAX_INODES -> firstFreeInode (deallocateInode fs i) = i.
Proof.
  intros H. unfold deallocateInode, MAX_INODES in *.
  destruct (128 <=? i) eqn:E; [apply Z.leb_le in E; lia|].
  unfold firstFreeInode. cbn [memory set_memory].
  rewrite load_store_ne by (unfold SB.freeInodes, SB.firstFreeInode; lia).
  rewrite load_store_eq. apply wrap32_small. lia.
Qed.

(** The directory found for a basename is an inode of [1, MAX_INODES). *)
Lemma rmdir_lookup_target (fs : FileSystem) (dirname : string)
    (parent : Z) (nm : string) (d : Z) (inode : Inode) :
  rmdir_lookup fs dirname = inr (parent, nm, d, inode) ->
  1 <= d < MAX_INODES /\ to_uint d = d /\ inode = readInode fs d
  /\ d = findDirectoryEntry fs (to_uint parent) nm.
Proof.
  unfold rmdir_lookup.
  destruct (getParentInodeAndFilename fs dirname) as [p n].
  destruct (p =? -1); [discriminate|].
  pose proof (findDirectoryEntry_cases fs (to_uint p) n) as C.
  destruct (findDirectoryEntry fs (to_uint p) n =? -1) eqn:E1; [discriminate|].
  destruct (negb (type _ =? 1)) eqn:E2; [discriminate|].
  destruct (2 <? _); [discriminate|].
  intros [= <- <- <- <-].
  apply Z.eqb_neq in E1. apply negb_false_iff, Z.eqb_eq in E2.
  apply readInode_directory_range in E2.
  destruct C as [C|(x & Hx & C)]; [congruence|].
  rewrite C in *. unfold to_uint, to_int, MAX_INODES in *.
  destruct (2147483648 <=? x) eqn:E3.
  - apply Z.leb_le in E3. exfalso.
    unfold wrap32 in E2.
    replace (x - 4294967296) with (x + (-1) * 4294967296) in E2 by lia.
    rewrite Z.mod_add in E2 by lia. rewrite Z.mod_small in E2 by lia. lia.
  - apply Z.leb_gt in E3. rewrite wrap32_small in * by lia.
    repeat split; lia.
Qed.

(** After create-dir [/.] the path [/.] still resolves to inode 0, and
    remove-dir [/.] succeeds: it removes the directory just made,
    inode 1. *)
Example rmdir_root_path_succeeds :
  snd (exec fresh (Mkdir "/.")) = Ok_created
  /\ getInodeFromPath (run fresh [Mkdir "/."]) "/." = 0
  /\ snd (cmdRmdir (run fresh [Mkdir "/."]) "/.") = Ok_removed
  /\ firstFreeInode (fst (cmdRmdir (run fresh [Mkdir "/."]) "/.")) = 1.
Proof. vm_compute. repeat split. Qed.

(** Whatever remove-dir reports other than success, the image is the
    one it was given. *)
Lemma cmdRmdir_error_unchanged (fs : FileSystem) (dirname : string) :
  snd (cmdRmdir fs dirname) <> Ok_removed -> fst (cmdRmdir fs dirname) = fs.
Proof.
  unfold cmdRmdir.
  destruct (rmdir_lookup fs dirname) as [e|[[[parent nm] d] inode]]; [reflexivity|].
  destruct (removeDirectoryEntry fs (to_uint parent) nm) as [fs1 [|]] eqn:R; cbn [negb fst snd].
  - congruence.
  - intros _. apply removeDirectoryEntry_failure in R. exact R.
Qed.

Example rmdir_root_fresh :
  snd (cmdRmdir fresh "/.") = Err_not_found /\ fst (cmdRmdir fresh "/.") = fresh.
Proof.
  assert (snd (cmdRmdir fresh "/.") = Err_not_found) as H by (vm_compute; reflexivity).
  split; [exact H|]. apply cmdRmdir_error_unchanged. rewrite H. discriminate.
Qed.

(** The inode remove-dir frees is never inode 0.  When it reports
    success, the directory it found for the basename among the live
    entries of the parent is an inode [d] with 1 <= d < 128, the blocks
    it releases are those recorded in inode [d], and [d] is the new head
    of the free-inode list; in every other case the image is the one
    given.  Nothing in this says that the blocks recorded in inode [d]
    belong to [d] alone. *)
Lemma rmdir_frees_named_inode (fs : FileSystem) (dirname : string) :
  match cmdRmdir fs dirname with
  | (fs', Ok_removed) =>
    exists parent nm d,
      rmdir_lookup fs dirname = inr (parent, nm, d, readInode fs d)
      /\ 1 <= d < MAX_INODES
      /\ fs' = release_inode (fst (removeDirectoryEntry fs (to_uint parent) nm))
                             (readInode fs d) d
      /\ firstFreeInode fs' = d
  | (fs', _) => fs' = fs
  end.
Proof.
  pose proof (cmdRmdir_error_unchanged fs dirname) as U.
  unfold cmdRmdir in *.
  destruct (rmdir_lookup fs dirname) as [e|[[[parent nm] d] inode]] eqn:L.
  - cbn [fst snd] in U. destruct e; try reflexivity.
    exfalso. unfold rmdir_lookup in L.
    destruct (getParentInodeAndFilename fs dirname) as [p n].
    destruct (p =? -1); [discriminate|].
    destruct (_ =? -1); [discriminate|].
    destruct (negb _); [discriminate|].
    destruct (2 <? _); discriminate.
  - destruct (rmdir_lookup_target _ _ _ _ _ _ L) as (Hd & Hu & -> & _).
    destruct (removeDirectoryEntry fs (to_uint parent) nm) as [fs1 [|]] eqn:R;
      cbn [negb fst snd] in *.
    + exists parent, nm, d.
      split; [reflexivity|]. split; [exact Hd|]. split; [rewrite R; reflexivity|].
      unfold release_inode. rewrite Hu.
      apply firstFreeInode_deallocateInode. lia.
    + apply U. discriminate.
Qed.

(** After create-file [/.] the path [/.] resolves to inode 0 and the root
    holds a live entry [.], a file: remove-dir [/.] is refused as not a
    directory. *)
Example rmdir_root_path_file :
  let s := run fresh [Touch "/." 0] in
  getInodeFromPath s "/." = 0
  /\ findDirectoryEntry s 0 "." = 1
  /\ snd (cmdRmdir s "/.") = Err_not_a_directory.
Proof. vm_compute. repeat split. Qed.

(** C3: remove-dir does not refuse every path that resolves to inode 0,
    and it can return a data block of the root to the free list.  In the
    state that [root_block_script] reaches from the fresh image (every
    command reports success, and the free list is well formed) the root
    owns blocks 9 and 10, block 10 is not on the free list, the path [/.]
    resolves to inode 0 and [/h] to inode 3.  remove-dir [/.] then reports
    success.  Inode 0 is not freed (the inode freed is inode 1, the new
    head of the free-inode list, and inode 0 still is a directory owning
    blocks 9 and 10), but block 10 is now the third block of the free
    list (34, then 35, then 10), three blocks were added to the count, the
    list is no longer well formed, and the root has lost its entry [h],
    whose name the link word of block 10 overwrote. *)
Theorem rmdir_frees_root_block :
  let s := run fresh root_block_script in
  let r := cmdRmdir s "/." in
  let s' := fst r in
  forallb mutating root_block_script = true
  /\ existsb is_error (outcomes fresh root_block_script) = false
  /\ free_list_ok s = true
  /\ getInodeFromPath s "/." = 0
  /\ blockAddresses (readInode s 0) = [9; 10; 0; 0; 0; 0; 0; 0; 0; 0]
  /\ on_free_list s 10 = false
  /\ getInodeFromPath s "/h" = 3
  /\ snd r = Ok_removed
  /\ firstFreeInode s' = 1
  /\ type (readInode s' 0) = 1
  /\ blockAddresses (readInode s' 0) = [9; 10; 0; 0; 0; 0; 0; 0; 0; 0]
  /\ firstFreeBlock s' = 34
  /\ load (memory s') (block_word 34) = 35
  /\ load (memory s') (block_word 35) = 10
  /\ freeBlocks s = 1012 /\ freeBlocks s' = 1015
  /\ free_list_ok s' = false
  /\ getInodeFromPath s' "/h" = -1.
Proof. vm_compute. repeat split. Qed.

(** ** dump *)

Lemma length_flat_map_const {A B : Type} (f : A -> list B) (n : nat) (l : list A) :
  (forall a, length (f a) = n) -> length (flat_map f l) = (n * length l)%nat.
Proof.
  intros H. induction l as [|a l IH]; simpl; [lia|].
  rewrite length_app, H, IH. lia.
Qed.

Lemma length_block_bytes (m : mem) (b : Z) : length (block_bytes m b) = 1024%nat.
Proof.
  unfold block_bytes.
  rewrite (length_flat_map_const bytes_of_word 4) by reflexivity.
  rewrite length_map, length_seqZ. reflexivity.
Qed.

Lemma length_blocks_bytes (m : mem) (bs : list Z) :
  length (flat_map (block_bytes m) bs) = (1024 * length bs)%nat.
Proof. apply length_flat_map_const, length_block_bytes. Qed.

(** One reading loop: what it writes is the prefix of the nonzero blocks'
    bytes, and what remains is the part of the count they did not cover. *)
Lemma cat_loop_spec (m : mem) (blocks : list Z) (r : Z) :
  0 <= r ->
  cat_loop m r blocks
  = (take (Z.to_nat r) (flat_map (block_bytes m) (List.filter nonzero blocks)),
     Z.max 0 (r - BLOCK_SIZE * Z.of_nat (length (List.filter nonzero blocks)))).
Proof.
  revert r. induction blocks as [|b blocks IH]; intros r Hr.
  - simpl. rewrite take_nil. f_equal. unfold BLOCK_SIZE. lia.
  - cbn [cat_loop List.filter].
    destruct (0 <? r) eqn:E; cbn [negb].
    + apply Z.ltb_lt in E.
      assert (nonzero b = negb (b =? 0)) as Hn by reflexivity.
      destruct (b =? 0) eqn:Eb; rewrite Hn; cbn [negb].
      * apply IH, Hr.
      * rewrite IH by lia. cbn [flat_map length].
        rewrite take_app, length_block_bytes.
        unfold BLOCK_SIZE in *. f_equal; [|lia].
        destruct (Z.le_gt_cases r 1024) as [Hle|Hgt].
        -- rewrite Z.min_l by lia.
           replace (Z.to_nat (r - r)) with 0%nat by lia.
           replace (Z.to_nat r - 1024)%nat with 0%nat by lia.
           reflexivity.
        -- rewrite Z.min_r by lia.
           rewrite (take_ge (block_bytes m b) (Z.to_nat 1024))
             by (rewrite length_block_bytes; lia).
           rewrite (take_ge (block_bytes m b) (Z.to_nat r))
             by (rewrite length_block_bytes; lia).
           f_equal. f_equal. lia.
    + apply Z.ltb_ge in E. assert (r = 0) as -> by lia.
      cbn [Z.to_nat take]. rewrite take_0. f_equal. unfold BLOCK_SIZE. lia.
Qed.

(** The bytes written for an inode are the first [size] bytes of its
    nonzero blocks. *)
Lemma cat_inode_spec (m : mem) (inode : Inode) :
  0 <= size inode ->
  cat_inode m inode
  = take (Z.to_nat (size inode)) (flat_map (block_bytes m) (file_blocks m inode)).
Proof.
  intros Hs. unfold cat_inode, file_blocks.
  rewrite cat_loop_spec by exact Hs.
  set (D := List.filter nonzero (blockAddresses inode)).
  rewrite flat_map_app, take_app, length_blocks_bytes.
  unfold BLOCK_SIZE.
  destruct (indirectBlock inode =? 0) eqn:Ei; cbn [negb andb].
  - cbn [flat_map]. rewrite take_nil, app_nil_r. reflexivity.
  - destruct (0 <? Z.max 0 (size inode - 1024 * Z.of_nat (length D))) eqn:E.
    + apply Z.ltb_lt in E. rewrite cat_loop_spec by lia. cbn [fst].
      f_equal. f_equal. lia.
    + apply Z.ltb_ge in E.
      replace (Z.to_nat (size inode) - 1024 * length D)%nat with 0%nat by lia.
      rewrite take_0, app_nil_r. reflexivity.
Qed.

Lemma readInode_size_nonneg (fs : FileSystem) (i : Z) : 0 <= size (readInode fs i).
Proof.
  unfold readInode. destruct (MAX_INODES <=? i); cbn [size zero_inode]; [lia|].
  apply load_range.
Qed.

(** C7, the claim at a concrete input: the file [/f] of the image
    [sparse_file] has size 2048 and one nonzero block address; dump
    reports no error and writes 1024 bytes. *)
Lemma cat_sparse_file_short :
  fst (cmdCat sparse_file "/f") = Ok_silent
  /\ size (readInode sparse_file (getInodeFromPath sparse_file "/f")) = 2048
  /\ blockAddresses (readInode sparse_file (getInodeFromPath sparse_file "/f"))
     = [0; 11; 0; 0; 0; 0; 0; 0; 0; 0]
  /\ length (snd (cmdCat sparse_file "/f")) = 1024%nat.
Proof. vm_compute. repeat split. Qed.

(** C7 as amended: for a path that resolves to a file inode, dump writes
    the first [size] bytes of the concatenation of the blocks whose
    address is nonzero, direct ones in index order and then the indirect
    children in index order, the last block read being clipped; the number
    of bytes is the smaller of [size] and 1024 times the number of such
    blocks.  Otherwise it writes nothing. *)
Theorem cmdCat_emits_prefix (fs : FileSystem) (filename : string) :
  match cmdCat fs filename with
  | (Ok_silent, out) =>
    let inode := readInode fs (to_uint (getInodeFromPath fs filename)) in
    type inode = 0
    /\ out = take (Z.to_nat (size inode))
                  (flat_map (block_bytes (memory fs)) (file_blocks (memory fs) inode))
    /\ Z.of_nat (length out)
       = Z.min (size inode) (BLOCK_SIZE * Z.of_nat (length (file_blocks (memory fs) inode)))
  | (_, out) => out = []
  end.
Proof.
  unfold cmdCat.
  destruct (getInodeFromPath fs filename =? -1); [reflexivity|].
  destruct (negb (type _ =? 0)) eqn:Et; [reflexivity|].
  apply negb_false_iff, Z.eqb_eq in Et.
  pose proof (readInode_size_nonneg fs (to_uint (getInodeFromPath fs filename))) as Hs.
  cbv zeta. rewrite cat_inode_spec by exact Hs.
  split; [exact Et|]. split; [reflexivity|].
  rewrite length_take, length_blocks_bytes. unfold BLOCK_SIZE. lia.
Qed.

(** A file whose block count covers its size is written in full. *)
Corollary cmdCat_full_file :
  fst (cmdCat (run fresh [Touch "/f" 2500]) "/f") = Ok_silent
  /\ length (snd (cmdCat (run fresh [Touch "/f" 2500]) "/f")) = 2500%nat.
Proof. vm_compute. split; reflexivity. Qed.

(** ** Rollback of create-file and add_entry *)

Example full_root_shape :
  let fs := full_root in
  length (readDirectoryEntries fs 0) = 320%nat
  /\ blockAddresses (readInode fs 0) = [9; 1014; 1015; 1016; 1017; 1018; 1019; 1020; 1021; 1022]
  /\ indirectBlock (readInode fs 0) = 0
  /\ free_list_ok fs = true.
Proof. vm_compute. repeat split. Qed.

(** C5: in [full_root] the root's ten direct blocks are full, it has no
    indirect block, and one block is free.  [addDirectoryEntry] takes that
    block as the indirect block, installs it in the root inode, fails to
    allocate the first child and returns [false]: the block it allocated
    is not back on the free list. *)
Theorem addDirectoryEntry_keeps_indirect_block :
  let fs := full_root in
  let r := addDirectoryEntry fs 0 "z" 5 in
  freeBlocks fs = 1
  /\ firstFreeBlock fs = 1023
  /\ indirectBlock (readInode fs 0) = 0
  /\ snd r = false
  /\ freeBlocks (fst r) = 0
  /\ indirectBlock (readInode (fst r) 0) = 1023.
Proof. vm_compute. repeat split. Qed.

(** C2: [full_root_script] uses namespace operations only.  In the state
    it reaches, create-file [/z] of size 0 reports the add_entry failure;
    the root's 320 live entries and the free-inode count are the ones
    before the call and no entry [z] exists, but the free-block count went
    from 1 to 0: the block [addDirectoryEntry] took for the root's indirect
    block is not given back. *)
Theorem cmdTouch_failure_loses_a_block :
  let fs := run fresh full_root_script in
  let r := cmdTouch fs "/z" 0 in
  forallb mutating full_root_script = true
  /\ snd r = Err_add_entry
  /\ entry_names (fst r) 0 = entry_names fs 0
  /\ findDirectoryEntry (fst r) 0 "z" = -1
  /\ freeInodes fs = 122 /\ freeInodes (fst r) = 122
  /\ freeBlocks fs = 1 /\ freeBlocks (fst r) = 0
  /\ indirectBlock (readInode fs 0) = 0
  /\ indirectBlock (readInode (fst r) 0) = 1023.
Proof. vm_compute. repeat split. Qed.

(** A failure before add_entry touches the parent is rolled back in full:
    a name of 28 bytes is refused after the inode and two blocks were
    taken, and the counts come back. *)
Example cmdTouch_name_too_long_rolled_back :
  snd (cmdTouch fresh "/abcdefghijklmnopqrstuvwxyzab" 2048) = Err_add_entry
  /\ freeBlocks (fst (cmdTouch fresh "/abcdefghijklmnopqrstuvwxyzab" 2048)) = freeBlocks fresh
  /\ freeInodes (fst (cmdTouch fresh "/abcdefghijklmnopqrstuvwxyzab" 2048)) = freeInodes fresh.
Proof. vm_compute. repeat split. Qed.

(** ** create-dir followed by remove-dir *)

(** C9, the claim at a concrete input: the root's only block is full, so
    create-dir [/p] allocates a second block for the root, which remove-dir
    [/p] does not give back: the free-block count ends one lower. *)
Lemma mkdir_rmdir_grows_parent :
  snd (exec one_block_root (Mkdir "/p")) = Ok_created
  /\ snd (exec (run one_block_root [Mkdir "/p"]) (Rmdir "/p")) = Ok_removed
  /\ counts one_block_root = (1014, 95, 10, 33)
  /\ counts (run one_block_root [Mkdir "/p"; Rmdir "/p"]) = (1013, 95, 10, 33).
Proof. vm_compute. repeat split. Qed.

(** ** Searching lists *)

Lemma find_app {A : Type} (f : A -> bool) (l1 l2 : list A) :
  List.find f (l1 ++ l2)
  = match List.find f l1 with Some x => Some x | None => List.find f l2 end.
Proof. induction l1 as [|x l1 IH]; simpl; [reflexivity|]. destruct (f x); auto. Qed.

Lemma find_filter {A : Type} (f p : A -> bool) (l : list A) :
  List.find f (List.filter p l) = List.find (fun x => p x && f x) l.
Proof.
  induction l as [|x l IH]; simpl; [reflexivity|].
  destruct (p x); simpl; [destruct (f x); auto|auto].
Qed.

Lemma find_map {A B : Type} (f : B -> bool) (g : A -> B) (l : list A) :
  List.find f (map g l) = g <$> List.find (fun x => f (g x)) l.
Proof. induction l as [|x l IH]; simpl; [reflexivity|]. destruct (f (g x)); auto. Qed.

Lemma find_ext_in {A : Type} (f g : A -> bool) (l : list A) :
  (forall x, In x l -> f x = g x) -> List.find f l = List.find g l.
Proof.
  induction l as [|x l IH]; intros H; simpl; [reflexivity|].
  rewrite (H x) by (left; reflexivity). destruct (g x); [reflexivity|].
  apply IH. intros y Hy. apply H. right. exact Hy.
Qed.

Lemma find_none_iff {A : Type} (f : A -> bool) (l : list A) :
  List.find f l = None <-> forall x, In x l -> f x = false.
Proof.
  split; [apply find_none|].
  induction l as [|x l IH]; intros H; simpl; [reflexivity|].
  rewrite (H x) by (left; reflexivity). apply IH. intros y Hy. apply H. right. exact Hy.
Qed.

(** The first index of [0, n) that satisfies [f]. *)
Lemma seqZ_split (n j : Z) :
  0 <= j < n -> seqZ 0 n = seqZ 0 j ++ j :: seqZ (j + 1) (n - j - 1).
Proof.
  intros H. replace n with (j + (n - j)) at 1 by lia.
  rewrite seqZ_app by lia. f_equal. rewrite Z.add_0_l.
  rewrite seqZ_cons by lia. reflexivity.
Qed.

Lemma find_seqZ_Some (f : Z -> bool) (n j : Z) :
  List.find f (seqZ 0 n) = Some j
  <-> 0 <= j < n /\ f j = true /\ forall k, 0 <= k < j -> f k = false.
Proof.
  split.
  - intros H.
    assert (0 <= j < n /\ f j = true) as [Hj Hf].
    { apply find_some in H as [Hin Hf]. apply list_elem_of_In, elem_of_seqZ in Hin.
      split; [lia|exact Hf]. }
    split; [exact Hj|]. split; [exact Hf|].
    intros k Hk.
    rewrite (seqZ_split n j Hj), find_app in H.
    destruct (List.find f (seqZ 0 j)) as [x|] eqn:E.
    + injection H as ->. apply find_some in E as [Hin _].
      apply list_elem_of_In, elem_of_seqZ in Hin. lia.
    + eapply find_none in E; [exact E|]. apply list_elem_of_In, elem_of_seqZ. lia.
  - intros (Hj & Hf & Hlt).
    rewrite (seqZ_split n j Hj), find_app.
    replace (List.find f (seqZ 0 j)) with (@None Z).
    + simpl. rewrite Hf. reflexivity.
    + symmetry. apply find_none_iff. intros x Hx.
      apply list_elem_of_In, elem_of_seqZ in Hx. apply Hlt. lia.
Qed.

(** ** Names *)

Lemma cstr_nonzero (bs : list Z) : Forall (fun x => x <> 0) (cstr bs).
Proof.
  induction bs as [|b bs IH]; simpl; [constructor|].
  destruct (b =? 0) eqn:E; [constructor|].
  constructor; [apply Z.eqb_neq, E|exact IH].
Qed.

Lemma length_cstr (bs : list Z) : (length (cstr bs) <= length bs)%nat.
Proof. induction bs as [|b bs IH]; simpl; [lia|]. destruct (b =? 0); simpl; lia. Qed.

Lemma cstr_app_zero (c t : list Z) :
  Forall (fun x => x <> 0) c -> cstr (c ++ 0 :: t) = c.
Proof.
  induction 1 as [|x c Hx _ IH]; simpl; [reflexivity|].
  destruct (x =? 0) eqn:E; [apply Z.eqb_eq in E; contradiction|]. rewrite IH. reflexivity.
Qed.

Lemma length_bytes_of_string (s : string) :
  length (bytes_of_string s) = String.length s.
Proof.
  unfold bytes_of_string. rewrite length_map.
  induction s as [|c s IH]; simpl; [reflexivity|]. rewrite IH. reflexivity.
Qed.

Lemma length_c_str (s : string) : Z.of_nat (length (c_str s)) <= str_length s.
Proof.
  unfold c_str, str_length. pose proof (length_cstr (bytes_of_string s)) as H.
  rewrite length_bytes_of_string in H. lia.
Qed.

Lemma name_field_shape (s : string) :
  str_length s < MAX_FILENAME_LENGTH ->
  exists t, name_field s = c_str s ++ 0 :: t /\ length (name_field s) = 28%nat.
Proof.
  intros H. pose proof (length_c_str s) as L. unfold MAX_FILENAME_LENGTH in H.
  unfold name_field.
  rewrite take_app, take_ge by lia.
  rewrite take_replicate.
  set (k := (27 - length (c_str s))%nat).
  replace (k `min` 27)%nat with k by lia.
  exists (replicate k 0).
  split.
  - rewrite <- app_assoc. f_equal.
    change (0 :: replicate k 0) with (replicate (S k) 0).
    rewrite replicate_S_end. reflexivity.
  - rewrite !length_app, length_replicate. simpl. lia.
Qed.

Lemma cstr_name_field (s : string) :
  str_length s < MAX_FILENAME_LENGTH -> cstr (name_field s) = c_str s.
Proof.
  intros H. destruct (name_field_shape s H) as (t & -> & _).
  apply cstr_app_zero, cstr_nonzero.
Qed.

Lemma bytes_of_string_bytes (s : string) : Forall is_byte (bytes_of_string s).
Proof.
  unfold bytes_of_string. apply Forall_map, Forall_forall. intros a _.
  unfold is_byte. pose proof (N_ascii_bounded a). lia.
Qed.

Lemma cstr_bytes (bs : list Z) : Forall is_byte bs -> Forall is_byte (cstr bs).
Proof.
  induction 1 as [|b bs Hb _ IH]; simpl; [constructor|].
  destruct (b =? 0); constructor; assumption.
Qed.

Lemma name_field_bytes (s : string) : Forall is_byte (name_field s).
Proof.
  unfold name_field. apply Forall_app. split.
  - apply Forall_take, Forall_app. split.
    + apply cstr_bytes, bytes_of_string_bytes.
    + apply Forall_replicate. unfold is_byte. lia.
  - repeat constructor; unfold is_byte; lia.
Qed.

Lemma bytes_of_word_pack (a b c d : Z) :
  is_byte a -> is_byte b -> is_byte c -> is_byte d ->
  bytes_of_word (wrap32 (a + 256 * b + 65536 * c + 16777216 * d)) = [a; b; c; d].
Proof.
  unfold is_byte. intros Ha Hb Hc Hd.
  rewrite wrap32_small by lia. unfold bytes_of_word.
  repeat f_equal.
  - replace (a + 256 * b + 65536 * c + 16777216 * d)
      with (a + (b + 256 * c + 65536 * d) * 256) by lia.
    rewrite Z.mod_add by lia. apply Z.mod_small. lia.
  - replace (a + 256 * b + 65536 * c + 16777216 * d)
      with (a + (b + 256 * c + 65536 * d) * 256) by lia.
    rewrite Z.div_add by lia. rewrite (Z.div_small a) by lia.
    replace (0 + (b + 256 * c + 65536 * d)) with (b + (c + 256 * d) * 256) by lia.
    rewrite Z.mod_add by lia. apply Z.mod_small. lia.
  - replace (a + 256 * b + 65536 * c + 16777216 * d)
      with (a + 256 * b + (c + 256 * d) * 65536) by lia.
    rewrite Z.div_add by lia. rewrite (Z.div_small (a + 256 * b)) by lia.
    replace (0 + (c + 256 * d)) with (c + d * 256) by lia.
    rewrite Z.mod_add by lia. apply Z.mod_small. lia.
  - replace (a + 256 * b + 65536 * c + 16777216 * d)
      with (a + 256 * b + 65536 * c + d * 16777216) by lia.
    rewrite Z.div_add by lia. rewrite (Z.div_small (a + 256 * b + 65536 * c)) by lia.
    apply Z.mod_small. lia.
Qed.

(** Packing bytes into words and unpacking the words gives the bytes
    back, for a whole number of words. *)
Lemma bytes_words_roundtrip (n : nat) (bs : list Z) :
  Forall is_byte bs -> length bs = (4 * n)%nat ->
  flat_map bytes_of_word (map wrap32 (words_of_bytes bs)) = bs.
Proof.
  revert bs. induction n as [|n IH]; intros bs Hb Hl.
  - destruct bs; [reflexivity|discriminate].
  - destruct bs as [|a [|b [|c [|d bs]]]]; try (simpl in Hl; lia).
    apply Forall_cons in Hb as [Ha Hb]. apply Forall_cons in Hb as [Hb' Hb].
    apply Forall_cons in Hb as [Hc Hb]. apply Forall_cons in Hb as [Hd Hb].
    cbn [words_of_bytes map flat_map].
    rewrite bytes_of_word_pack by assumption.
    rewrite IH; [reflexivity|exact Hb|simpl in Hl; lia].
Qed.

Lemma length_words_of_bytes (n : nat) (bs : list Z) :
  length bs = (4 * n)%nat -> length (words_of_bytes bs) = n.
Proof.
  revert bs. induction n as [|n IH]; intros bs Hl.
  - destruct bs; [reflexivity|discriminate].
  - destruct bs as [|a [|b [|c [|d bs]]]]; try (simpl in Hl; lia).
    cbn [words_of_bytes length]. rewrite IH; [reflexivity|simpl in Hl; lia].
Qed.

(** ** The steps of add_entry and remove_entry *)

Lemma find_free_slot_Some (m : mem) (b j : Z) :
  find_free_slot m b = Some j
  <-> 0 <= j < 32
      /\ load m (entry_word b j + NAME_WORDS) = 0
      /\ forall k, 0 <= k < j -> load m (entry_word b k + NAME_WORDS) <> 0.
Proof.
  unfold find_free_slot. rewrite find_seqZ_Some.
  change entriesPerBlock with 32.
  split; intros (H1 & H2 & H3); (split; [exact H1|]); split.
  - apply Z.eqb_eq, H2.
  - intros k Hk. apply Z.eqb_neq, H3, Hk.
  - apply Z.eqb_eq, H2.
  - intros k Hk. apply Z.eqb_neq, H3, Hk.
Qed.

Lemma find_free_slot_ext (m m' : mem) (b : Z) :
  (forall j, 0 <= j < 32 ->
     load m' (entry_word b j + NAME_WORDS) = load m (entry_word b j + NAME_WORDS)) ->
  find_free_slot m' b = find_free_slot m b.
Proof.
  intros H. unfold find_free_slot. apply find_ext_in. intros j Hj.
  apply list_elem_of_In, elem_of_seqZ in Hj. change entriesPerBlock with 32 in Hj.
  rewrite H by lia. reflexivity.
Qed.

Lemma room_direct_Some (m : mem) (addrs : list Z) (blk j : Z) :
  room_direct m addrs = Some (blk, j) ->
  In blk addrs /\ blk <> 0 /\ find_free_slot m blk = Some j.
Proof.
  induction addrs as [|a addrs IH]; simpl; [discriminate|].
  destruct (a =? 0) eqn:Ea; [discriminate|]. apply Z.eqb_neq in Ea.
  destruct (find_free_slot m a) as [j'|] eqn:Ef.
  - intros [= <- <-]. auto.
  - intros H. destruct (IH H) as (H1 & H2 & H3). auto.
Qed.

Lemma room_direct_ext (m m' : mem) (addrs : list Z) :
  (forall a, In a addrs -> a <> 0 -> find_free_slot m' a = find_free_slot m a) ->
  room_direct m' addrs = room_direct m addrs.
Proof.
  induction addrs as [|a addrs IH]; intros H; simpl; [reflexivity|].
  destruct (a =? 0) eqn:Ea; [reflexivity|]. apply Z.eqb_neq in Ea.
  rewrite (H a) by (auto; left; reflexivity).
  rewrite IH; [reflexivity|]. intros a' Ha'. apply H. right. exact Ha'.
Qed.

(** With room in a block it already holds, the direct loop commits the
    entry there and allocates nothing. *)
Lemma add_direct_room (fs : FileSystem) (d : Z) (ino : Inode) (e : DirectoryEntry)
    (idx : list Z) (blk j : Z) :
  room_direct (memory fs) (map (addr ino) idx) = Some (blk, j) ->
  add_direct fs d ino e idx = Return (commit_entry fs d ino (entry_word blk j) e, true).
Proof.
  induction idx as [|i idx IH]; cbn [map room_direct add_direct]; [discriminate|].
  destruct (addr ino i =? 0); [discriminate|].
  destruct (find_free_slot (memory fs) (addr ino i)) as [j'|].
  - intros [= <- <-]. reflexivity.
  - exact IH.
Qed.

Lemma find_named_slot_range (m : mem) (b : Z) (s : list Z) (j : Z) :
  find_named_slot m b s = Some j -> 0 <= j < 32.
Proof.
  unfold find_named_slot. intros H. apply find_some in H as [H _].
  apply list_elem_of_In, elem_of_seqZ in H. change entriesPerBlock with 32 in H. lia.
Qed.

Lemma remove_in_found (fs : FileSystem) (d : Z) (ino : Inode) (s : list Z)
    (blocks : list Z) (b : Z) :
  In b blocks -> b <> 0 -> find_named_slot (memory fs) b s <> None ->
  exists b' j', In b' blocks /\ b' <> 0 /\ 0 <= j' < 32
    /\ remove_in fs d ino s blocks = Some (tombstone fs d ino (entry_word b' j')).
Proof.
  induction blocks as [|a blocks IH]; intros Hin Hb Hf; [destruct Hin|].
  cbn [remove_in].
  destruct (a =? 0) eqn:Ea.
  - apply Z.eqb_eq in Ea. destruct Hin as [->|Hin]; [contradiction|].
    destruct (IH Hin Hb Hf) as (b' & j' & H1 & H2 & H3 & H4).
    exists b', j'. split; [right; exact H1|]. repeat split; assumption || lia.
  - apply Z.eqb_neq in Ea.
    destruct (find_named_slot (memory fs) a s) as [j'|] eqn:E.
    + exists a, j'. split; [left; reflexivity|]. split; [exact Ea|].
      split; [eapply find_named_slot_range, E|reflexivity].
    + destruct Hin as [->|Hin]; [contradiction|].
      destruct (IH Hin Hb Hf) as (b' & j' & H1 & H2 & H3 & H4).
      exists b', j'. split; [right; exact H1|]. repeat split; assumption || lia.
Qed.

Lemma addDirectoryEntry_true_inv (fs fs' : FileSystem) (d : Z) (nm : string) (ino : Z) :
  addDirectoryEntry fs d nm ino = (fs', true) ->
  str_length nm < MAX_FILENAME_LENGTH /\ type (readInode fs d) = 1.
Proof.
  unfold addDirectoryEntry.
  destruct (MAX_FILENAME_LENGTH <=? str_length nm) eqn:E; [discriminate|].
  destruct (negb (type (readInode fs d) =? 1)) eqn:T; [discriminate|].
  intros _. apply Z.leb_gt in E. apply negb_false_iff, Z.eqb_eq in T. auto.
Qed.

(** With room, add_entry commits the entry in the slot [room_direct]
    names and allocates nothing. *)
Lemma addDirectoryEntry_room (fs : FileSystem) (d : Z) (nm : string) (ino blk j : Z) :
  str_length nm < MAX_FILENAME_LENGTH ->
  type (readInode fs d) = 1 ->
  room_direct (memory fs) (blockAddresses (readInode fs d)) = Some (blk, j) ->
  addDirectoryEntry fs d nm ino
  = (commit_entry fs d (readInode fs d) (entry_word blk j) (mkEntry (name_field nm) ino), true).
Proof.
  intros Hl Ht Hr. unfold addDirectoryEntry.
  destruct (MAX_FILENAME_LENGTH <=? str_length nm) eqn:E; [apply Z.leb_le in E; lia|].
  rewrite Ht. cbn [Z.eqb Pos.eqb negb]. cbv zeta.
  rewrite (add_direct_room _ _ _ _ _ blk j); [reflexivity|].
  rewrite map_addr_seqZ; [exact Hr|]. apply readInode_ok.
Qed.

(** ** Frames of the writes *)

Lemma load_store_entry_out (m : mem) (w a : Z) (e : DirectoryEntry) :
  length (name e) = 28%nat -> a < w \/ w + 8 <= a ->
  load (store_entry m w e) a = load m a.
Proof.
  intros Hl Ha. unfold store_entry. change NAME_WORDS with 7.
  rewrite load_store_ne by lia.
  apply load_store_words_out. rewrite (length_words_of_bytes 7) by exact Hl. lia.
Qed.

Lemma read_entry_store_entry (m : mem) (w : Z) (e : DirectoryEntry) :
  entry_ok e -> read_entry (store_entry m w e) w = e.
Proof.
  intros (Hl & Hb & Hi). unfold read_entry, store_entry. change NAME_WORDS with 7.
  destruct e as [nm ino]. cbn [name inodeNumber] in *. f_equal.
  - transitivity (flat_map bytes_of_word (map wrap32 (words_of_bytes nm)));
      [|apply (bytes_words_roundtrip 7); assumption].
    f_equal.
    pose proof (length_words_of_bytes 7 nm Hl) as Hw.
    destruct (words_of_bytes nm) as [|w0 [|w1 [|w2 [|w3 [|w4 [|w5 [|w6 [|]]]]]]]];
      try discriminate.
    change (seqZ 0 7) with [0;1;2;3;4;5;6]. cbn [map].
    rewrite !load_store_ne by lia.
    replace (w + 0) with (w + Z.of_nat 0) by lia.
    replace (w + 1) with (w + Z.of_nat 1) by lia.
    replace (w + 2) with (w + Z.of_nat 2) by lia.
    replace (w + 3) with (w + Z.of_nat 3) by lia.
    replace (w + 4) with (w + Z.of_nat 4) by lia.
    replace (w + 5) with (w + Z.of_nat 5) by lia.
    replace (w + 6) with (w + Z.of_nat 6) by lia.
    rewrite (load_store_words_in _ _ _ 0 w0), (load_store_words_in _ _ _ 1 w1),
      (load_store_words_in _ _ _ 2 w2), (load_store_words_in _ _ _ 3 w3),
      (load_store_words_in _ _ _ 4 w4), (load_store_words_in _ _ _ 5 w5),
      (load_store_words_in _ _ _ 6 w6) by reflexivity.
    reflexivity.
  - rewrite load_store_eq. apply wrap32_small, Hi.
Qed.

Lemma read_entry_ext (m m' : mem) (w : Z) :
  (forall a, w <= a < w + 8 -> load m' a = load m a) -> read_entry m' w = read_entry m w.
Proof.
  intros H. unfold read_entry. change NAME_WORDS with 7. f_equal.
  - f_equal. apply map_ext_in. intros k Hk.
    apply list_elem_of_In, elem_of_seqZ in Hk. apply H. lia.
  - apply H. lia.
Qed.

Lemma load_commit_entry_out (fs : FileSystem) (d : Z) (ino : Inode) (w a : Z)
    (e : DirectoryEntry) :
  length (name e) = 28%nat -> a < w \/ w + 8 <= a ->
  a < inode_word d \/ inode_word d + 15 <= a ->
  load (memory (commit_entry fs d ino w e)) a = load (memory fs) a.
Proof.
  intros Hl Hw Hd. unfold commit_entry.
  rewrite load_writeInode_out by exact Hd. cbn [memory set_memory].
  apply load_store_entry_out; assumption.
Qed.

Lemma load_tombstone_out (fs : FileSystem) (d : Z) (ino : Inode) (w a : Z) :
  a <> w + 7 -> a < inode_word d \/ inode_word d + 15 <= a ->
  load (memory (tombstone fs d ino w)) a = load (memory fs) a.
Proof.
  intros Hw Hd. unfold tombstone.
  rewrite load_writeInode_out by exact Hd. cbn [memory set_memory].
  change NAME_WORDS with 7. apply load_store_ne. lia.
Qed.

(** ** The allocators, step by step *)

Lemma allocateInode_inv (fs fs' : FileSystem) (i : Z) :
  allocateInode fs = (fs', i) -> i < MAX_INODES ->
  i = firstFreeInode fs /\ i <> 0 /\ freeInodes fs <> 0
  /\ fs' = writeInode
             (set_memory fs
                (store (store (memory fs) SB.firstFreeInode
                              (load (memory fs) (inode_word i + IN.indirectBlock)))
                       SB.freeInodes (wrap32 (freeInodes fs - 1))))
             i (mkInode 0 0 (wrap32 (clock fs)) (wrap32 (clock fs)) (replicate 10 0) 0).
Proof.
  unfold allocateInode, freeInodes, firstFreeInode.
  destruct (load (memory fs) SB.freeInodes =? 0) eqn:E1; cbn [orb].
  { intros [= _ <-]. unfold MAX_INODES. lia. }
  destruct (load (memory fs) SB.firstFreeInode =? 0) eqn:E2; cbn [orb].
  { intros [= _ <-]. unfold MAX_INODES. lia. }
  apply Z.eqb_neq in E1, E2.
  intros [= <- <-] H.
  split; [reflexivity|]. split; [exact E2|]. split; [exact E1|].
  unfold writeInode.
  destruct (MAX_INODES <=? load (memory fs) SB.firstFreeInode) eqn:E3;
    [apply Z.leb_le in E3; lia|].
  cbn [memory set_memory]. unfold set_memory. cbn [currentInodeNumber currentPath clock].
  rewrite load_store_ne by (unfold SB.firstFreeInode, SB.freeInodes; lia).
  reflexivity.
Qed.

Lemma allocateBlock_inv (fs fs' : FileSystem) (b : Z) :
  allocateBlock fs = (fs', b) -> b <> 0 ->
  b = firstFreeBlock fs /\ b < TOTAL_BLOCKS /\ freeBlocks fs <> 0
  /\ fs' = set_memory fs
             (zero_block (store (store (memory fs) SB.firstFreeBlock
                                       (load (memory fs) (block_word b)))
                                SB.freeBlocks (wrap32 (freeBlocks fs - 1)))
                         (block_word b)).
Proof.
  unfold allocateBlock, freeBlocks, firstFreeBlock.
  destruct (load (memory fs) SB.freeBlocks =? 0) eqn:E1; cbn [orb].
  { intros [= _ <-]. congruence. }
  destruct (load (memory fs) SB.firstFreeBlock =? 0) eqn:E2; cbn [orb].
  { intros [= _ <-]. congruence. }
  destruct (TOTAL_BLOCKS <=? load (memory fs) SB.firstFreeBlock) eqn:E3.
  { intros [= _ <-]. congruence. }
  apply Z.eqb_neq in E1, E2. apply Z.leb_gt in E3.
  intros [= <- <-] _.
  split; [reflexivity|]. split; [exact E3|]. split; [exact E1|].
  rewrite load_store_ne by (unfold SB.firstFreeBlock, SB.freeBlocks; lia).
  reflexivity.
Qed.

Lemma deallocateBlock_data (fs : FileSystem) (b : Z) :
  in_data_area b = true ->
  deallocateBlock fs b
  = set_memory fs
      (store (store (store (memory fs) (block_word b) (firstFreeBlock fs))
                    SB.firstFreeBlock b)
             SB.freeBlocks (wrap32 (freeBlocks fs + 1))).
Proof.
  unfold in_data_area, deallocateBlock, firstFreeBlock, freeBlocks.
  intros H. apply andb_true_iff in H as [H1 H2].
  apply Z.leb_le in H1. apply Z.ltb_lt in H2.
  destruct (b <? FIRST_DATA_BLOCK) eqn:E1; [apply Z.ltb_lt in E1; lia|].
  destruct (TOTAL_BLOCKS <=? b) eqn:E2; [apply Z.leb_le in E2; lia|].
  cbn [orb].
  assert (block_word b <> SB.freeBlocks) as N.
  { rewrite block_word_small by (unfold TOTAL_BLOCKS, MEMORY_SIZE, BLOCK_SIZE in H2;
      change (1024 * 1024 / 1024) with 1024 in H2; unfold FIRST_DATA_BLOCK in H1;
      change (1 + INODE_BLOCKS) with 9 in H1; lia).
    unfold SB.freeBlocks, FIRST_DATA_BLOCK in *. change (1 + INODE_BLOCKS) with 9 in H1. lia. }
  rewrite load_store_ne by (unfold SB.firstFreeBlock, SB.freeBlocks; lia).
  rewrite load_store_ne by exact N.
  reflexivity.
Qed.

Lemma deallocateInode_valid (fs : FileSystem) (i : Z) :
  0 <= i < MAX_INODES ->
  deallocateInode fs i
  = set_memory fs
      (store (store (store (memory fs) (inode_word i + IN.indirectBlock) (firstFreeInode fs))
                    SB.firstFreeInode i)
             SB.freeInodes (wrap32 (freeInodes fs + 1))).
Proof.
  intros H. unfold deallocateInode, firstFreeInode, freeInodes, MAX_INODES in *.
  destruct (128 <=? i) eqn:E; [apply Z.leb_le in E; lia|].
  rewrite load_store_ne by (unfold SB.firstFreeInode, SB.freeInodes; lia).
  rewrite load_store_ne
    by (rewrite inode_word_small by lia; unfold IN.indirectBlock, SB.freeInodes; lia).
  reflexivity.
Qed.

Lemma in_data_area_range (b : Z) : in_data_area b = true <-> 9 <= b < 1024.
Proof.
  unfold in_data_area. rewrite andb_true_iff, Z.leb_le, Z.ltb_lt.
  change FIRST_DATA_BLOCK with 9. change TOTAL_BLOCKS with 1024. reflexivity.
Qed.

(** ** The new directory of create-dir *)

Lemma inode_ok_fresh (t t' b : Z) (sz : Z) :
  0 <= b < 4294967296 ->
  inode_ok (mkInode 1 (wrap32 sz) (wrap32 t) (wrap32 t') (b :: replicate 9 0) 0).
Proof.
  intros H. unfold inode_ok. cbn [type size creationTime modificationTime blockAddresses
    indirectBlock]. rewrite !wrap32_idem.
  repeat split. cbn [map replicate]. rewrite (wrap32_small b) by exact H. reflexivity.
Qed.

Lemma clock_writeInode (fs : FileSystem) (i : Z) (ino : Inode) :
  clock (writeInode fs i ino) = clock fs.
Proof. unfold writeInode. destruct (MAX_INODES <=? i); reflexivity. Qed.

Lemma clock_commit_entry (fs : FileSystem) (d : Z) (ino : Inode) (w : Z) (e : DirectoryEntry) :
  clock (commit_entry fs d ino w e) = clock fs.
Proof. unfold commit_entry. rewrite clock_writeInode. reflexivity. Qed.

Section NewDirectory.
Variables (fs S1 S2 : FileSystem) (i b : Z).
Hypothesis HallocI : allocateInode fs = (S1, i).
Hypothesis Hi : i < MAX_INODES.
Hypothesis HallocB : allocateBlock S1 = (S2, b).
Hypothesis Hb0 : b <> 0.
Hypothesis Hhead : FIRST_DATA_BLOCK <= firstFreeBlock fs.

Let t := wrap32 (clock fs).
Let ino2 := mkInode 1 0 t t (b :: replicate 9 0) 0.
Let S3 := writeInode S2 i (set_addr (set_size (set_type (readInode S1 i) 1) 0) 0 b).

Lemma new_dir_inode_head : i = firstFreeInode fs /\ 1 <= i /\ freeInodes fs <> 0.
Proof.
  destruct (allocateInode_inv _ _ _ HallocI Hi) as (H1 & H2 & H3 & _).
  pose proof (load_range (memory fs) SB.firstFreeInode) as R.
  unfold firstFreeInode in *. split; [exact H1|]. split; [lia|exact H3].
Qed.

Lemma new_dir_S1_load (a : Z) :
  a <> SB.firstFreeInode -> a <> SB.freeInodes ->
  a < inode_word i \/ inode_word i + 15 <= a ->
  load (memory S1) a = load (memory fs) a.
Proof.
  intros H7 H5 Ha.
  destruct (allocateInode_inv _ _ _ HallocI Hi) as (_ & _ & _ & ->).
  rewrite load_writeInode_out by exact Ha. cbn [memory set_memory].
  rewrite !load_store_ne by congruence. reflexivity.
Qed.

Lemma new_dir_block_head :
  b = firstFreeBlock fs /\ 9 <= b < 1024 /\ freeBlocks fs <> 0.
Proof.
  destruct new_dir_inode_head as (Ei & Hi1 & _).
  destruct (allocateBlock_inv _ _ _ HallocB Hb0) as (H1 & H2 & H3 & _).
  unfold MAX_INODES, FIRST_DATA_BLOCK in *. change (1 + INODE_BLOCKS) with 9 in Hhead.
  change TOTAL_BLOCKS with 1024 in H2.
  unfold firstFreeBlock, freeBlocks in *.
  rewrite new_dir_S1_load in H1, H3
    by (unfold SB.firstFreeBlock, SB.freeBlocks, SB.firstFreeInode, SB.freeInodes;
        rewrite ?inode_word_small by lia; lia).
  split; [exact H1|]. split; [lia|exact H3].
Qed.

Lemma new_dir_S3_eq : S3 = writeInode S2 i ino2.
Proof.
  destruct (allocateInode_inv _ _ _ HallocI Hi) as (_ & _ & _ & E).
  unfold S3. f_equal. rewrite E.
  rewrite readInode_writeInode; [reflexivity|exact Hi|].
  unfold inode_ok. cbn [type size creationTime modificationTime blockAddresses indirectBlock].
  rewrite !wrap32_idem. repeat split.
Qed.

Lemma new_dir_ino2_ok : inode_ok ino2.
Proof.
  destruct new_dir_block_head as (_ & Hb & _).
  unfold ino2, t. replace 0 with (wrap32 0) at 1 by reflexivity.
  apply inode_ok_fresh. lia.
Qed.

Lemma new_dir_S3_inode : readInode S3 i = ino2.
Proof. rewrite new_dir_S3_eq. apply readInode_writeInode; [exact Hi|exact new_dir_ino2_ok]. Qed.

Lemma new_dir_words :
  inode_word i = 256 + 16 * i /\ block_word b = 256 * b /\ 1 <= i < 128 /\ 9 <= b < 1024.
Proof.
  destruct new_dir_inode_head as (_ & Hi1 & _).
  destruct new_dir_block_head as (_ & Hb & _).
  unfold MAX_INODES in Hi.
  rewrite inode_word_small, block_word_small by lia. lia.
Qed.

Lemma new_dir_S3_memory :
  memory S3
  = store_inode
      (zero_block (store (store (memory S1) SB.firstFreeBlock (load (memory S1) (block_word b)))
                         SB.freeBlocks (wrap32 (freeBlocks S1 - 1)))
                  (block_word b))
      (inode_word i) ino2.
Proof.
  rewrite new_dir_S3_eq.
  destruct (allocateBlock_inv _ _ _ HallocB Hb0) as (_ & _ & _ & ->).
  unfold writeInode. destruct (MAX_INODES <=? i) eqn:E; [apply Z.leb_le in E; lia|].
  reflexivity.
Qed.

Lemma new_dir_S3_block (k : Z) : 0 <= k < 256 -> load (memory S3) (block_word b + k) = 0.
Proof.
  intros Hk. destruct new_dir_words as (Wi & Wb & Ri & Rb).
  rewrite new_dir_S3_memory. unfold store_inode.
  rewrite load_store_words_out by (rewrite length_inode_words; lia).
  rewrite load_zero_block by apply block_word_aligned. change BLOCK_WORDS with 256.
  destruct (decide _); [reflexivity|lia].
Qed.

Lemma new_dir_S3_frame (a : Z) :
  8 <= a ->
  a < inode_word i \/ inode_word i + 15 <= a ->
  a < block_word b \/ block_word b + 256 <= a ->
  load (memory S3) a = load (memory fs) a.
Proof.
  intros H8 Hi' Hb'. destruct new_dir_words as (Wi & Wb & Ri & Rb).
  rewrite new_dir_S3_memory. unfold store_inode.
  rewrite load_store_words_out by (rewrite length_inode_words; lia).
  rewrite load_zero_block by apply block_word_aligned. change BLOCK_WORDS with 256.
  destruct (decide _); [lia|].
  rewrite !load_store_ne by (unfold SB.firstFreeBlock, SB.freeBlocks; lia).
  apply new_dir_S1_load; [unfold SB.firstFreeInode; lia|unfold SB.freeInodes; lia|exact Hi'].
Qed.

Lemma new_dir_S3_superblock :
  freeBlocks S3 = wrap32 (freeBlocks fs - 1)
  /\ freeInodes S3 = wrap32 (freeInodes fs - 1)
  /\ firstFreeBlock S3 = load (memory fs) (block_word b)
  /\ firstFreeInode S3 = load (memory fs) (inode_word i + IN.indirectBlock).
Proof.
  destruct new_dir_words as (Wi & Wb & Ri & Rb).
  assert (forall a, 0 <= a < 8 ->
            load (memory S3) a
            = load (store (store (memory S1) SB.firstFreeBlock (load (memory S1) (block_word b)))
                          SB.freeBlocks (wrap32 (freeBlocks S1 - 1))) a) as L.
  { intros a Ha. rewrite new_dir_S3_memory. unfold store_inode.
    rewrite load_store_words_out by (rewrite length_inode_words; lia).
    rewrite load_zero_block by apply block_word_aligned. change BLOCK_WORDS with 256.
    destruct (decide _); [lia|reflexivity]. }
  assert (forall a, load (memory S1) a
            = load (store_inode
                      (store (store (memory fs) SB.firstFreeInode
                                (load (memory fs) (inode_word i + IN.indirectBlock)))
                         SB.freeInodes (wrap32 (freeInodes fs - 1)))
                      (inode_word i)
                      (mkInode 0 0 (wrap32 (clock fs)) (wrap32 (clock fs)) (replicate 10 0) 0)) a)
    as L1.
  { intros a. destruct (allocateInode_inv _ _ _ HallocI Hi) as (_ & _ & _ & ->).
    unfold writeInode. destruct (MAX_INODES <=? i) eqn:E; [apply Z.leb_le in E; lia|].
    reflexivity. }
  assert (forall a, 0 <= a < 8 \/ 2304 <= a ->
            load (memory S1) a
            = load (store (store (memory fs) SB.firstFreeInode
                                (load (memory fs) (inode_word i + IN.indirectBlock)))
                         SB.freeInodes (wrap32 (freeInodes fs - 1))) a) as L2.
  { intros a Ha. rewrite L1. unfold store_inode.
    apply load_store_words_out. rewrite length_inode_words. lia. }
  unfold freeBlocks, freeInodes, firstFreeBlock, firstFreeInode,
    SB.freeBlocks, SB.freeInodes, SB.firstFreeBlock, SB.firstFreeInode in *.
  rewrite !L by lia.
  rewrite load_store_eq, !(load_store_ne _ 3) by lia.
  rewrite load_store_eq, !(load_store_ne _ 6) by lia.
  rewrite !L2 by lia.
  rewrite load_store_eq, !(load_store_ne _ 5), !(load_store_ne _ 7) by lia.
  rewrite load_store_eq.
  rewrite !wrap32_idem, !wrap32_load. repeat split; reflexivity.
Qed.

Variable P : Z.
Hypothesis HP : 0 <= P < 4294967296.

Let S5 := initializeDirectory S3 i P.
Let dot := mkEntry (name_field ".") i.
Let dotdot := mkEntry (name_field "..") P.
Let ino3 := set_mtime (set_size ino2 (wrap32 (size ino2 + DIRENT_SIZE))) (wrap32 (clock S3)).
Let S4 := commit_entry S3 i ino2 (entry_word b 0) dot.
Let ino4 := set_mtime (set_size ino3 (wrap32 (size ino3 + DIRENT_SIZE))) (wrap32 (clock S4)).

Lemma new_dir_ino3_ok : inode_ok ino3.
Proof.
  destruct new_dir_block_head as (_ & Hb & _).
  unfold ino3, ino2, t, set_mtime, set_size.
  cbn [type size creationTime modificationTime blockAddresses indirectBlock].
  apply inode_ok_fresh. lia.
Qed.

Lemma new_dir_ino4_ok : inode_ok ino4.
Proof.
  destruct new_dir_block_head as (_ & Hb & _).
  unfold ino4, ino3, ino2, t, set_mtime, set_size.
  cbn [type size creationTime modificationTime blockAddresses indirectBlock].
  apply inode_ok_fresh. lia.
Qed.

Lemma new_dir_S4_eq : addDirectoryEntry S3 i "." i = (S4, true).
Proof.
  destruct new_dir_words as (Wi & Wb & Ri & Rb).
  rewrite (addDirectoryEntry_room _ _ _ _ b 0).
  - rewrite new_dir_S3_inode. reflexivity.
  - reflexivity.
  - rewrite new_dir_S3_inode. reflexivity.
  - rewrite new_dir_S3_inode. cbn [blockAddresses ino2 room_direct].
    destruct (b =? 0) eqn:E; [apply Z.eqb_eq in E; lia|].
    replace (find_free_slot (memory S3) b) with (Some 0); [reflexivity|].
    symmetry. apply find_free_slot_Some. split; [lia|]. split; [|intros k Hk; lia].
    rewrite entry_word_small by lia. change NAME_WORDS with 7.
    replace (256 * b + 8 * 0 + 7) with (block_word b + 7) by lia.
    apply new_dir_S3_block. lia.
Qed.

Lemma new_dir_S4_inode : readInode S4 i = ino3.
Proof.
  unfold S4, commit_entry. apply readInode_writeInode; [exact Hi|exact new_dir_ino3_ok].
Qed.

Lemma new_dir_dot_ok : entry_ok dot /\ entry_ok dotdot.
Proof.
  destruct new_dir_words as (Wi & Wb & Ri & Rb).
  split; (split; [reflexivity|]); (split; [apply name_field_bytes|]);
    cbn [inodeNumber dot dotdot]; lia.
Qed.

Lemma new_dir_S4_load (a : Z) :
  a < entry_word b 0 \/ entry_word b 0 + 8 <= a ->
  a < inode_word i \/ inode_word i + 15 <= a ->
  load (memory S4) a = load (memory S3) a.
Proof.
  intros H1 H2. unfold S4. apply load_commit_entry_out; [reflexivity|exact H1|exact H2].
Qed.

Lemma new_dir_S5_eq : S5 = commit_entry S4 i ino3 (entry_word b 1) dotdot.
Proof.
  destruct new_dir_words as (Wi & Wb & Ri & Rb).
  destruct new_dir_dot_ok as ((_ & _ & Hd) & _).
  unfold S5, initializeDirectory. rewrite new_dir_S4_eq. cbn [fst].
  rewrite (addDirectoryEntry_room _ _ _ _ b 1).
  - rewrite new_dir_S4_inode. reflexivity.
  - reflexivity.
  - rewrite new_dir_S4_inode. reflexivity.
  - rewrite new_dir_S4_inode. cbn [blockAddresses ino3 ino2 set_mtime set_size room_direct].
    destruct (b =? 0) eqn:E; [apply Z.eqb_eq in E; lia|].
    replace (find_free_slot (memory S4) b) with (Some 1); [reflexivity|].
    symmetry. apply find_free_slot_Some. split; [lia|]. change NAME_WORDS with 7. split.
    + rewrite new_dir_S4_load by (rewrite ?entry_word_small by lia; lia).
      rewrite entry_word_small by lia.
      replace (256 * b + 8 * 1 + 7) with (block_word b + 15) by lia.
      apply new_dir_S3_block. lia.
    + intros k Hk. assert (k = 0) as -> by lia.
      unfold S4, commit_entry.
      rewrite load_writeInode_out by (rewrite entry_word_small by lia; lia).
      cbn [memory set_memory]. unfold store_entry. change NAME_WORDS with 7.
      rewrite load_store_eq. cbn [inodeNumber dot]. rewrite wrap32_small by lia. lia.
Qed.

Lemma new_dir_S5_inode : readInode S5 i = ino4.
Proof.
  rewrite new_dir_S5_eq. unfold commit_entry.
  apply readInode_writeInode; [exact Hi|exact new_dir_ino4_ok].
Qed.

(** Outside the new inode's record and the new block, and above the
    superblock, the image is the one before create-dir. *)
Lemma new_dir_frame (a : Z) :
  8 <= a ->
  a < inode_word i \/ inode_word i + 15 <= a ->
  a < block_word b \/ block_word b + 256 <= a ->
  load (memory S5) a = load (memory fs) a.
Proof.
  intros H8 Hi' Hb'. destruct new_dir_words as (Wi & Wb & Ri & Rb).
  rewrite new_dir_S5_eq.
  rewrite load_commit_entry_out by (first [reflexivity|rewrite ?entry_word_small by lia; lia]).
  rewrite new_dir_S4_load by (rewrite ?entry_word_small by lia; lia).
  apply new_dir_S3_frame; assumption.
Qed.

Lemma new_dir_superblock :
  freeBlocks S5 = wrap32 (freeBlocks fs - 1)
  /\ freeInodes S5 = wrap32 (freeInodes fs - 1)
  /\ firstFreeBlock S5 = load (memory fs) (block_word b)
  /\ firstFreeInode S5 = load (memory fs) (inode_word i + IN.indirectBlock).
Proof.
  destruct new_dir_words as (Wi & Wb & Ri & Rb).
  assert (forall a, 0 <= a < 8 -> load (memory S5) a = load (memory S3) a) as L.
  { intros a Ha. rewrite new_dir_S5_eq.
    rewrite load_commit_entry_out by (first [reflexivity|rewrite ?entry_word_small by lia; lia]).
    apply new_dir_S4_load; rewrite ?entry_word_small by lia; lia. }
  destruct new_dir_S3_superblock as (H3 & H5 & H6 & H7).
  unfold freeBlocks, freeInodes, firstFreeBlock, firstFreeInode,
    SB.freeBlocks, SB.freeInodes, SB.firstFreeBlock, SB.firstFreeInode in *.
  rewrite !L by lia. auto.
Qed.

Lemma new_dir_addresses :
  blockAddresses (readInode S5 i) = b :: replicate 9 0 /\ indirectBlock (readInode S5 i) = 0.
Proof. rewrite new_dir_S5_inode. split; reflexivity. Qed.
End NewDirectory.

(** ** Looking the new entry up *)

Section EntryScan.
Variables (m m1 : mem) (b blk j : Z) (e_new : DirectoryEntry) (s : list Z).

Hypothesis Hblk : 9 <= blk < 1024.
Hypothesis Hj : 0 <= j < 32.
Hypothesis Hslot : read_entry m1 (entry_word blk j) = e_new.
Hypothesis Hlive : inodeNumber e_new <> 0.
Hypothesis Hmatch : name_matches e_new s = true.
Hypothesis Hframe : forall a x,
  9 <= a < 1024 -> a <> b -> 256 * a <= x < 256 * a + 256 ->
  x < entry_word blk j \/ entry_word blk j + 8 <= x ->
  load m1 x = load m x.
Hypothesis Hblk_b : blk <> b.

Let f := fun e : DirectoryEntry => name_matches e s.
Let live := fun e : DirectoryEntry => negb (inodeNumber e =? 0).

Lemma scan_other_block (a : Z) :
  9 <= a < 1024 -> a <> b -> a <> blk -> block_entries m1 a = block_entries m a.
Proof.
  intros Ha Hab Hne. unfold block_entries. f_equal.
  apply map_ext_in. intros k Hk. apply list_elem_of_In, elem_of_seqZ in Hk.
  change entriesPerBlock with 32 in Hk.
  apply read_entry_ext. intros x Hx.
  rewrite entry_word_small in Hx by lia.
  apply (Hframe a); [exact Ha|exact Hab|lia|].
  rewrite entry_word_small by lia. lia.
Qed.

Lemma scan_earlier_slot (k : Z) :
  0 <= k < 32 -> k <> j -> read_entry m1 (entry_word blk k) = read_entry m (entry_word blk k).
Proof.
  intros Hk Hkj. apply read_entry_ext. intros x Hx.
  rewrite entry_word_small in Hx by lia.
  apply (Hframe blk); [exact Hblk|exact Hblk_b|lia|].
  rewrite entry_word_small by lia. lia.
Qed.

(** In the block that received the entry, the first match is the new
    entry unless an earlier live entry already matched. *)
Lemma scan_target_block (rest1 rest : list DirectoryEntry) :
  exists e1,
    List.find f (block_entries m1 blk ++ rest1) = Some e1
    /\ (e1 = e_new \/ List.find f (block_entries m blk ++ rest) = Some e1).
Proof.
  unfold block_entries. change entriesPerBlock with 32.
  rewrite (seqZ_split 32 j Hj).
  rewrite !List.map_app, !List.filter_app, <- !app_assoc.
  assert (map (fun k => read_entry m1 (entry_word blk k)) (seqZ 0 j)
          = map (fun k => read_entry m (entry_word blk k)) (seqZ 0 j)) as E.
  { apply map_ext_in. intros k Hk. apply list_elem_of_In, elem_of_seqZ in Hk.
    apply scan_earlier_slot; lia. }
  rewrite E. rewrite !(find_app f (List.filter _ (map _ (seqZ 0 j)))).
  destruct (List.find f _) as [e0|] eqn:E0.
  - exists e0. split; [reflexivity|right; reflexivity].
  - exists e_new. split; [|left; reflexivity].
    cbn [map List.filter]. rewrite Hslot.
    destruct (inodeNumber e_new =? 0) eqn:Z0; [apply Z.eqb_eq in Z0; contradiction|].
    cbn [negb app List.find]. unfold f. rewrite Hmatch. reflexivity.
Qed.

Lemma scan_direct (addrs : list Z) :
  room_direct m addrs = Some (blk, j) ->
  (forall a, In a addrs -> a <> 0 -> 9 <= a < 1024 /\ a <> b) ->
  forall rest1 rest : list DirectoryEntry,
  exists e1,
    List.find f (flat_map (block_entries m1) (List.filter nonzero addrs) ++ rest1) = Some e1
    /\ (e1 = e_new
        \/ List.find f (flat_map (block_entries m) (List.filter nonzero addrs) ++ rest) = Some e1).
Proof.
  induction addrs as [|a addrs IH]; cbn [room_direct]; [discriminate|].
  intros Hr Hwf rest1 rest.
  destruct (a =? 0) eqn:Ea; [discriminate|].
  assert (nonzero a = true) as Hnz by (unfold nonzero; rewrite Ea; reflexivity).
  apply Z.eqb_neq in Ea.
  destruct (Hwf a (or_introl eq_refl) Ea) as [Ha Hab].
  cbn [List.filter]. rewrite Hnz. cbn [flat_map]. rewrite <- !app_assoc.
  destruct (find_free_slot m a) as [j'|] eqn:Ef.
  - injection Hr as -> ->. apply scan_target_block.
  - assert (a <> blk) as Hne.
    { intros ->. apply room_direct_Some in Hr as (_ & _ & Hr). congruence. }
    rewrite scan_other_block by assumption.
    rewrite !(find_app f (block_entries m a)).
    destruct (List.find f (block_entries m a)) as [e0|].
    + exists e0. split; [reflexivity|right; reflexivity].
    + apply IH; [exact Hr|]. intros a' Ha'. apply Hwf. right. exact Ha'.
Qed.

Lemma scan_named_slot : find_named_slot m1 blk s <> None.
Proof.
  unfold find_named_slot. intros H.
  rewrite find_none_iff in H.
  specialize (H j). rewrite Hslot, Hmatch in H.
  unfold nonzero in H.
  destruct (inodeNumber e_new =? 0) eqn:Z0; [apply Z.eqb_eq in Z0; contradiction|].
  cbn [negb andb] in H. discriminate H.
  apply list_elem_of_In, elem_of_seqZ. change entriesPerBlock with 32. lia.
Qed.
End EntryScan.

(** ** create-dir then remove-dir *)

Lemma snd_getParentInodeAndFilename (fs : FileSystem) (p : string) :
  snd (getParentInodeAndFilename fs p) = snd (split_path p).
Proof. unfold getParentInodeAndFilename. destruct (split_path p). reflexivity. Qed.

Lemma allocateInode_head (fs fs' : FileSystem) (i : Z) :
  allocateInode fs = (fs', i) -> i = MAX_INODES \/ i = firstFreeInode fs.
Proof.
  unfold allocateInode, firstFreeInode.
  destruct (_ || _); intros [= _ <-]; [left|right]; reflexivity.
Qed.

(** What a successful remove-dir did. *)
Lemma cmdRmdir_inv (fs fs2 : FileSystem) (p : string) :
  cmdRmdir fs p = (fs2, Ok_removed) ->
  exists fs' d,
    d = findDirectoryEntry fs (to_uint (fst (getParentInodeAndFilename fs p)))
                           (snd (getParentInodeAndFilename fs p))
    /\ 1 <= d < MAX_INODES
    /\ removeDirectoryEntry fs (to_uint (fst (getParentInodeAndFilename fs p)))
                            (snd (getParentInodeAndFilename fs p)) = (fs', true)
    /\ fs2 = release_inode fs' (readInode fs d) d.
Proof.
  unfold cmdRmdir.
  destruct (rmdir_lookup fs p) as [e|[[[parent nm] d] inode]] eqn:L.
  - intros [= _ ->]. exfalso. unfold rmdir_lookup in L.
    destruct (getParentInodeAndFilename fs p) as [q n].
    destruct (q =? -1); [discriminate|].
    destruct (_ =? -1); [discriminate|].
    destruct (negb _); [discriminate|].
    destruct (2 <? _); discriminate.
  - destruct (rmdir_lookup_target _ _ _ _ _ _ L) as (Hd & Hu & -> & Hf).
    assert (getParentInodeAndFilename fs p = (parent, nm)) as G.
    { unfold rmdir_lookup in L.
      destruct (getParentInodeAndFilename fs p) as [q n].
      destruct (q =? -1); [discriminate|].
      destruct (_ =? -1); [discriminate|].
      destruct (negb _); [discriminate|].
      destruct (2 <? _); [discriminate|]. injection L as -> -> _. reflexivity. }
    rewrite G. cbn [fst snd].
    destruct (removeDirectoryEntry fs (to_uint parent) nm) as [fs' [|]] eqn:R;
      cbn [negb]; [|discriminate].
    intros [= <-]. exists fs', d. auto.
Qed.

Lemma free_direct_zeros (fs : FileSystem) (ino : Inode) (idx : list Z) :
  (forall k, In k idx -> addr ino k = 0) -> free_direct true fs ino idx = fs.
Proof.
  induction idx as [|k idx IH]; intros H; [reflexivity|].
  unfold free_direct in *. cbn [foldl].
  rewrite (H k) by (left; reflexivity). cbn [Z.eqb andb].
  apply IH. intros k' Hk'. apply H. right. exact Hk'.
Qed.

(** An inode with one direct block and no indirect block gives back that
    block and itself. *)
Lemma release_inode_single (fs : FileSystem) (ino : Inode) (d b : Z) :
  blockAddresses ino = b :: replicate 9 0 -> indirectBlock ino = 0 -> b <> 0 ->
  release_inode fs ino d = deallocateInode (deallocateBlock fs b) (to_uint d).
Proof.
  intros Ha Hi Hb. unfold release_inode. rewrite Hi. cbn [Z.eqb].
  change (seqZ 0 DIRECT_BLOCKS) with (0 :: [1;2;3;4;5;6;7;8;9]).
  f_equal.
  change (free_direct true fs ino (0 :: [1;2;3;4;5;6;7;8;9]))
    with (free_direct true
            (if true && (addr ino 0 =? 0) then fs else deallocateBlock fs (addr ino 0))
            ino [1;2;3;4;5;6;7;8;9]).
  assert (addr ino 0 = b) as -> by (unfold addr; rewrite Ha; reflexivity).
  destruct (b =? 0) eqn:E; [apply Z.eqb_eq in E; contradiction|]. cbn [andb].
  apply free_direct_zeros. intros k Hk. unfold addr. rewrite Ha.
  repeat (destruct Hk as [<-|Hk]; [reflexivity|]). destruct Hk.
Qed.

Lemma wrap32_pred_succ (x : Z) :
  0 <= x < 4294967296 -> x <> 0 -> wrap32 (wrap32 (x - 1) + 1) = x.
Proof.
  intros H H0. rewrite (wrap32_small (x - 1)) by lia.
  replace (x - 1 + 1) with x by lia. apply wrap32_small, H.
Qed.

(** The counts after the block and the inode of a removed directory are
    given back. *)
Lemma counts_release (fs : FileSystem) (b i : Z) :
  in_data_area b = true -> 0 <= i < MAX_INODES ->
  counts (deallocateInode (deallocateBlock fs b) i)
  = (wrap32 (freeBlocks fs + 1), wrap32 (freeInodes fs + 1), b, i).
Proof.
  intros Hb Hi.
  rewrite deallocateInode_valid by exact Hi.
  rewrite (deallocateBlock_data fs b Hb).
  apply in_data_area_range in Hb. unfold MAX_INODES in Hi.
  unfold counts, freeBlocks, freeInodes, firstFreeBlock, firstFreeInode.
  cbn [memory set_memory].
  unfold SB.freeBlocks, SB.freeInodes, SB.firstFreeBlock, SB.firstFreeInode, IN.indirectBlock.
  rewrite inode_word_small, block_word_small by lia.
  repeat (rewrite ?load_store_eq, ?load_store_ne by lia).
  rewrite !wrap32_idem, (wrap32_small b), (wrap32_small i) by lia.
  reflexivity.
Qed.

Lemma mkdir_ready_inv (fs : FileSystem) (P : Z) :
  mkdir_ready fs P = true ->
  firstFreeInode fs < MAX_INODES /\ firstFreeInode fs <> P
  /\ 9 <= firstFreeBlock fs < 1024
  /\ (forall a, In a (blockAddresses (readInode fs P)) -> a <> 0 ->
        9 <= a < 1024 /\ a <> firstFreeBlock fs)
  /\ exists blk j, room_direct (memory fs) (blockAddresses (readInode fs P)) = Some (blk, j).
Proof.
  unfold mkdir_ready. rewrite !andb_true_iff.
  intros [[[[H1 H2] H3] H4] H5].
  apply Z.ltb_lt in H1. apply negb_true_iff, Z.eqb_neq in H2.
  apply in_data_area_range in H3.
  split; [exact H1|]. split; [exact H2|]. split; [exact H3|]. split.
  - intros a Ha Hnz. rewrite forallb_forall in H4. specialize (H4 a Ha).
    apply orb_true_iff in H4 as [H4|H4]; [apply Z.eqb_eq in H4; contradiction|].
    apply andb_true_iff in H4 as [H4 H4'].
    apply in_data_area_range in H4. apply negb_true_iff, Z.eqb_neq in H4'. auto.
  - destruct (room_direct _ _) as [[blk j]|]; [eauto|discriminate].
Qed.

(** C9 as amended: when the free-list heads are valid, the parent's
    direct blocks lie in the data area and hold a free slot (so that
    create-dir takes no block for the parent), create-dir [p] succeeds,
    [p] still names the same parent, and the remove-dir [p] that follows
    succeeds, the free-block count, the free-inode count and both
    free-list heads are back to their values before create-dir. *)
Theorem mkdir_rmdir_restores_counts (fs fs1 fs2 : FileSystem) (p : string) :
  mkdir_ready fs (to_uint (fst (getParentInodeAndFilename fs p))) = true ->
  cmdMkdir fs p = (fs1, Ok_created) ->
  fst (getParentInodeAndFilename fs1 p) = fst (getParentInodeAndFilename fs p) ->
  cmdRmdir fs1 p = (fs2, Ok_removed) ->
  counts fs2 = counts fs.
Proof.
  intros Hready Hmk Hpar Hrm.
  apply cmdRmdir_inv in Hrm as (fs' & d & Hd & Hdr & Hrem & ->).
  rewrite Hpar, snd_getParentInodeAndFilename in Hd, Hrem.
  unfold cmdMkdir in Hmk.
  pose proof (snd_getParentInodeAndFilename fs p) as Hnm.
  destruct (getParentInodeAndFilename fs p) as [par nm] eqn:G.
  cbn [fst snd] in *. rewrite <- Hnm in Hd, Hrem. clear Hnm Hpar.
  set (P := to_uint par) in *.
  assert (0 <= P < 4294967296) as HP by apply wrap32_range.
  apply mkdir_ready_inv in Hready as (Hr1 & Hr2 & Hr3 & Hwf & blk & j & Room).
  (* the steps of create-dir *)
  destruct (par =? -1); [discriminate|].
  destruct (negb (findDirectoryEntry fs P nm =? -1)) eqn:Hdup; [discriminate|].
  apply negb_false_iff, Z.eqb_eq in Hdup.
  destruct (freeBlocks fs <? 1); [discriminate|].
  destruct (allocateInode fs) as [S1 i] eqn:EA.
  destruct (i =? MAX_INODES) eqn:Ei; [discriminate|]. apply Z.eqb_neq in Ei.
  assert (i = firstFreeInode fs) as Ehead
    by (destruct (allocateInode_head _ _ _ EA); [contradiction|assumption]).
  assert (i < MAX_INODES) as Hi by lia.
  cbv zeta in Hmk.
  destruct (allocateBlock S1) as [S2 b] eqn:EB.
  destruct (b =? 0) eqn:Eb0; [discriminate|]. apply Z.eqb_neq in Eb0.
  assert (FIRST_DATA_BLOCK <= firstFreeBlock fs) as Hhead
    by (change FIRST_DATA_BLOCK with 9; lia).
  destruct (new_dir_words _ _ _ _ _ EA Hi EB Eb0 Hhead) as (Wi & Wb & Ri & Rb).
  destruct (new_dir_block_head _ _ _ _ _ EA Hi EB Eb0 Hhead) as (Eb & _ & Hfb).
  destruct (new_dir_inode_head _ _ _ EA Hi) as (_ & _ & Hfi).
  pose proof (new_dir_frame _ _ _ _ _ EA Hi EB Eb0 Hhead P HP) as F.
  destruct (new_dir_superblock _ _ _ _ _ EA Hi EB Eb0 Hhead P HP) as (Sb3 & Sb5 & Sb6 & Sb7).
  destruct (new_dir_addresses _ _ _ _ _ EA Hi EB Eb0 Hhead P HP) as (AD & AI).
  set (S5 := initializeDirectory _ _ _) in *.
  destruct (addDirectoryEntry S5 P nm i) as [fs1' added] eqn:EADD.
  destruct added; [|discriminate]. injection Hmk as ->.
  destruct (addDirectoryEntry_true_inv _ _ _ _ _ EADD) as (Hlen & Htype).
  pose proof (readInode_directory_range _ _ Htype) as HP128. unfold MAX_INODES in HP128.
  rewrite <- Eb in Hwf. rewrite <- Ehead in Hr2.
  (* the parent's record and blocks are those before create-dir *)
  assert (readInode S5 P = readInode fs P) as PI.
  { apply readInode_ext. intros a Ha. rewrite inode_word_small in Ha by lia.
    apply F; lia. }
  set (addrs := blockAddresses (readInode fs P)) in *.
  destruct (room_direct_Some _ _ _ _ Room) as (Hin & Hblk0 & Hfs).
  destruct (Hwf blk Hin Hblk0) as (Hblk & Hblk_b).
  apply find_free_slot_Some in Hfs as (Hj & Hfree & _).
  assert (forall a x, 9 <= a < 1024 -> a <> b -> 256 * a <= x < 256 * a + 256 ->
            load (memory S5) x = load (memory fs) x) as F5.
  { intros a x Ha Hab Hx. apply F; lia. }
  assert (room_direct (memory S5) (blockAddresses (readInode S5 P)) = Some (blk, j)) as Room5.
  { rewrite PI. fold addrs. rewrite <- Room. apply room_direct_ext.
    intros a Ha Hnz. destruct (Hwf a Ha Hnz) as (Ra & Rab).
    apply find_free_slot_ext. intros k Hk. change NAME_WORDS with 7.
    rewrite entry_word_small by lia. apply (F5 a); lia. }
  rewrite (addDirectoryEntry_room _ _ _ _ blk j Hlen Htype Room5) in EADD.
  injection EADD as <-. rewrite PI in *.
  set (e_new := mkEntry (name_field nm) i) in *.
  set (w := entry_word blk j) in *.
  assert (w = 256 * blk + 8 * j) as Ew by (unfold w; apply entry_word_small; lia).
  destruct (name_field_shape nm Hlen) as (_ & _ & Hlen28).
  assert (entry_ok e_new) as Hok.
  { split; [exact Hlen28|]. split; [apply name_field_bytes|]. cbn [inodeNumber e_new]. lia. }
  set (fs1 := commit_entry S5 P (readInode fs P) w e_new) in *.
  assert (forall a, a < w \/ w + 8 <= a ->
            a < inode_word P \/ inode_word P + 15 <= a ->
            load (memory fs1) a = load (memory S5) a) as L1.
  { intros a H1 H2. apply load_commit_entry_out; [exact Hlen28|exact H1|exact H2]. }
  assert (read_entry (memory fs1) w = e_new) as Hslot.
  { unfold fs1, commit_entry.
    rewrite (read_entry_ext (memory (set_memory S5 (store_entry (memory S5) w e_new)))).
    - cbn [memory set_memory]. apply read_entry_store_entry, Hok.
    - intros a Ha. apply load_writeInode_out. rewrite inode_word_small by lia. lia. }
  set (pino' := set_mtime (set_size (readInode fs P)
                 (wrap32 (size (readInode fs P) + DIRENT_SIZE))) (wrap32 (clock S5))).
  assert (readInode fs1 P = pino') as PI1.
  { unfold fs1, commit_entry. apply readInode_writeInode; [unfold MAX_INODES; lia|].
    destruct (readInode_ok fs P) as (O1 & O2 & O3 & O4 & O5 & O6 & O7).
    unfold inode_ok, pino', set_mtime, set_size.
    cbn [type size creationTime modificationTime blockAddresses indirectBlock].
    rewrite !wrap32_idem. auto 10. }
  assert (readInode fs1 i = readInode S5 i) as II1.
  { apply readInode_ext. intros a Ha. apply L1; rewrite ?inode_word_small by lia; lia. }
  assert (name_matches e_new (c_str nm) = true) as Hmatch.
  { unfold name_matches. apply bool_decide_eq_true. cbn [name e_new].
    apply cstr_name_field, Hlen. }
  assert (forall a x, 9 <= a < 1024 -> a <> b -> 256 * a <= x < 256 * a + 256 ->
            x < w \/ w + 8 <= x -> load (memory fs1) x = load (memory fs) x) as Hframe.
  { intros a x Ha Hab Hx Hw. rewrite L1 by (rewrite ?inode_word_small by lia; lia).
    apply (F5 a); assumption. }
  assert (inodeNumber e_new <> 0) as Hlive by (cbn [inodeNumber e_new]; lia).
  (* remove-dir finds the directory just made *)
  assert (d = i) as ->.
  { unfold findDirectoryEntry, readDirectoryEntries in Hd, Hdup.
    rewrite PI1 in Hd. cbn [type pino' set_mtime set_size blockAddresses indirectBlock] in Hd.
    rewrite Htype in Hd, Hdup. cbn [Z.eqb Pos.eqb negb] in Hd, Hdup.
    fold addrs in Hd, Hdup.
    match type of Hd with
    | d = match List.find _ (_ ++ ?r1) with _ => _ end =>
      match type of Hdup with
      | match List.find _ (_ ++ ?r) with _ => _ end = _ =>
        destruct (scan_direct (memory fs) (memory fs1) b blk j e_new (c_str nm)
                    Hblk Hj Hslot Hlive Hmatch Hframe Hblk_b addrs Room Hwf r1 r)
          as (e1 & Hf1 & [->|Hf])
      end
    end.
    - rewrite Hf1 in Hd. cbn [inodeNumber e_new] in Hd. rewrite Hd.
      unfold to_int. destruct (2147483648 <=? i) eqn:E; [apply Z.leb_le in E; lia|reflexivity].
    - rewrite Hf1 in Hd. rewrite Hf in Hdup. unfold MAX_INODES in Hdr. lia. }
  (* the entry is removed from a direct block of the parent *)
  assert (exists b' j', 9 <= b' < 1024 /\ 0 <= j' < 32
            /\ fs' = tombstone fs1 P pino' (entry_word b' j')) as (b' & j' & Hb' & Hj' & ->).
  { unfold removeDirectoryEntry in Hrem. rewrite PI1 in Hrem.
    cbn [type pino' set_mtime set_size blockAddresses indirectBlock] in Hrem.
    rewrite Htype in Hrem. cbn [Z.eqb Pos.eqb negb] in Hrem. fold addrs in Hrem.
    destruct (remove_in_found fs1 P pino' (c_str nm) addrs blk Hin Hblk0)
      as (b' & j' & Hin' & Hnz' & Hj' & Erem).
    { apply (scan_named_slot (memory fs1) blk j e_new (c_str nm) Hj Hslot Hlive Hmatch). }
    fold pino' in Hrem. rewrite Erem in Hrem. injection Hrem as <-.
    exists b', j'. destruct (Hwf b' Hin' Hnz'). auto. }
  (* the superblock after the releases *)
  rewrite II1.
  rewrite (release_inode_single _ _ _ b AD AI Eb0).
  assert (to_uint i = i) as -> by (apply wrap32_small; lia).
  rewrite counts_release by (rewrite ?in_data_area_range; unfold MAX_INODES; lia).
  assert (forall a, 0 <= a < 8 ->
            load (memory (tombstone fs1 P pino' (entry_word b' j'))) a = load (memory S5) a) as L0.
  { intros a Ha.
    rewrite load_tombstone_out by (rewrite ?entry_word_small, ?inode_word_small by lia; lia).
    apply L1; rewrite ?inode_word_small by lia; lia. }
  unfold counts, freeBlocks, freeInodes, firstFreeBlock, firstFreeInode in *.
  unfold SB.freeBlocks, SB.freeInodes, SB.firstFreeBlock, SB.firstFreeInode in *.
  rewrite !L0 by lia. rewrite Sb3, Sb5.
  rewrite !wrap32_pred_succ by (apply load_range || assumption).
  congruence.
Qed.

Lemma pair_eta_snd {A B : Type} (x : A * B) (y : B) : snd x = y -> x = (fst x, y).
Proof. intros <-. apply surjective_pairing. Qed.

(** The theorem at the fresh image and the path [/p]. *)
Lemma mkdir_rmdir_restores_counts_witness :
  mkdir_ready fresh (to_uint (fst (getParentInodeAndFilename fresh "/p"))) = true
  /\ counts (fst (cmdRmdir (fst (cmdMkdir fresh "/p")) "/p")) = counts fresh.
Proof.
  split; [vm_compute; reflexivity|].
  apply (mkdir_rmdir_restores_counts fresh (fst (cmdMkdir fresh "/p"))
           (fst (cmdRmdir (fst (cmdMkdir fresh "/p")) "/p")) "/p").
  - vm_compute. reflexivity.
  - apply pair_eta_snd. vm_compute. reflexivity.
  - vm_compute. reflexivity.
  - apply pair_eta_snd. vm_compute. reflexivity.
Defined.

(** * The allocators: what a call does, and how calls compose *)

Lemma block_word_range (b : Z) : 0 <= block_word b.
Proof.
  unfold block_word, WORD_SIZE. pose proof (wrap32_range (b * BLOCK_SIZE)).
  apply Z.div_pos; lia.
Qed.

(** Two block starts are equal or a whole block apart. *)
Lemma block_word_apart (x b : Z) :
  block_word x = block_word b
  \/ ~ (block_word b <= block_word x < block_word b + BLOCK_WORDS).
Proof.
  pose proof (block_word_aligned x) as Hx. pose proof (block_word_aligned b) as Hb.
  unfold BLOCK_WORDS, BLOCK_SIZE, WORD_SIZE in *.
  change (1024 / 4) with 256 in *.
  apply Z.mod_divide in Hx; [|lia]. apply Z.mod_divide in Hb; [|lia].
  destruct Hx as [p Hp], Hb as [q Hq]. rewrite Hp, Hq.
  destruct (decide (p = q)) as [->|]; [left; reflexivity | right; clear Hp Hq; lia].
Qed.

Lemma block_word_pos (b : Z) : 0 < b < TOTAL_BLOCKS -> BLOCK_WORDS <= block_word b.
Proof.
  change TOTAL_BLOCKS with 1024. intros H. rewrite block_word_small by lia.
  change BLOCK_WORDS with 256. lia.
Qed.

(** The image after a successful [allocateBlock], word by word. *)
Lemma load_allocateBlock (fs fs' : FileSystem) (b a : Z) :
  allocateBlock fs = (fs', b) -> b <> 0 ->
  load (memory fs') a
  = if decide (block_word b <= a < block_word b + BLOCK_WORDS) then 0
    else if decide (a = SB.freeBlocks) then freeBlocks fs - 1
    else if decide (a = SB.firstFreeBlock) then load (memory fs) (block_word b)
    else load (memory fs) a.
Proof.
  intros E Hb. destruct (allocateBlock_inv _ _ _ E Hb) as (Hhead & Hlt & Hfree & ->).
  cbn [memory set_memory]. rewrite load_zero_block by apply block_word_aligned.
  destruct (decide _) as [|Hout]; [reflexivity|].
  rewrite !load_store. unfold SB.freeBlocks, SB.firstFreeBlock.
  pose proof (load_range (memory fs) 3) as R. unfold freeBlocks, SB.freeBlocks in *.
  destruct (decide (3 = a)); destruct (decide (a = 3)); try lia.
  - rewrite wrap32_idem. apply wrap32_small. lia.
  - destruct (decide (6 = a)); destruct (decide (a = 6)); try lia; try reflexivity.
    apply wrap32_load.
Qed.

(** X1. [allocateBlock] either fails, returning 0 and the state it was
    given, or returns the head [b] of the free list with [0 < b <
    TOTAL_BLOCKS]; then the count is one less, the head is the link that
    block [b] held, every word of block [b] reads 0, and no other word of
    the image has changed. *)
Theorem allocateBlock_outcome (fs : FileSystem) :
  let fs' := fst (allocateBlock fs) in
  let b := snd (allocateBlock fs) in
  (b = 0 /\ fs' = fs)
  \/ (b = firstFreeBlock fs /\ 0 < b < TOTAL_BLOCKS
      /\ freeBlocks fs' = freeBlocks fs - 1
      /\ firstFreeBlock fs' = load (memory fs) (block_word b)
      /\ (forall a, block_word b <= a < block_word b + BLOCK_WORDS -> load (memory fs') a = 0)
      /\ (forall a, a <> SB.freeBlocks -> a <> SB.firstFreeBlock ->
                    ~ (block_word b <= a < block_word b + BLOCK_WORDS) ->
                    load (memory fs') a = load (memory fs) a)).
Proof.
  cbv zeta. destruct (allocateBlock fs) as [fs' b] eqn:E. cbn [fst snd].
  destruct (decide (b = 0)) as [->|Hb].
  - left. split; [reflexivity|]. revert E. unfold allocateBlock.
    destruct (_ || _) eqn:C; [congruence|].
    destruct (TOTAL_BLOCKS <=? _); [congruence|].
    intros E. injection E as _ E. apply orb_false_iff in C as [_ C]. lia.
  - right. pose proof (fun a => load_allocateBlock fs fs' b a E Hb) as L.
    destruct (allocateBlock_inv _ _ _ E Hb) as (Hhead & Hlt & Hfree & _).
    pose proof (load_range (memory fs) SB.firstFreeBlock) as R.
    assert (0 < b < TOTAL_BLOCKS) as Hrange by (unfold firstFreeBlock in Hhead; lia).
    pose proof (block_word_pos b Hrange) as Hw. change BLOCK_WORDS with 256 in *.
    change TOTAL_BLOCKS with 1024 in *.
    unfold SB.freeBlocks, SB.firstFreeBlock in *.
    split; [exact Hhead|]. split; [exact Hrange|].
    split; [|split; [|split]].
    + unfold freeBlocks at 1, SB.freeBlocks. rewrite L.
      destruct (decide _); [lia|]. destruct (decide (3 = 3)); [reflexivity|lia].
    + unfold firstFreeBlock, SB.firstFreeBlock. rewrite L.
      destruct (decide _); [lia|]. destruct (decide (6 = 3)); [lia|].
      destruct (decide (6 = 6)); [reflexivity|lia].
    + intros a Ha. rewrite L. destruct (decide _); [reflexivity|lia].
    + intros a H3 H6 Ha. rewrite L. destruct (decide _); [lia|].
      destruct (decide (a = 3)); [lia|]. destruct (decide (a = 6)); [lia|]. reflexivity.
Qed.

Lemma walk_free_ext (m m' : mem) (fuel : nat) (h : Z) :
  (forall x, load m' (block_word x) = load m (block_word x)) ->
  walk_free m' fuel h = walk_free m fuel h.
Proof.
  intros H. revert h. induction fuel as [|f IH]; intros h; [reflexivity|].
  cbn [walk_free]. destruct (h =? 0); [reflexivity|]. rewrite H, IH. reflexivity.
Qed.

Lemma allocateBlock_succeeds (fs : FileSystem) :
  freeBlocks fs <> 0 -> 0 < firstFreeBlock fs < TOTAL_BLOCKS ->
  snd (allocateBlock fs) = firstFreeBlock fs.
Proof.
  unfold freeBlocks, firstFreeBlock, allocateBlock. intros Hc Hh.
  destruct (_ || _) eqn:C.
  - apply orb_true_iff in C as [C|C]; lia.
  - destruct (TOTAL_BLOCKS <=? _) eqn:C2; [lia|reflexivity].
Qed.

(** X2. Giving back the block [allocateBlock] has just returned restores
    the free list: the count, the head and the link in the block are what
    they were, so every walk of the list is the same; of the whole image
    only the rest of that block may differ (it was zeroed). *)
Theorem allocateBlock_undone_by_deallocateBlock (fs : FileSystem) :
  in_data_area (firstFreeBlock fs) = true ->
  freeBlocks fs <> 0 ->
  let fs1 := fst (allocateBlock fs) in
  let b := snd (allocateBlock fs) in
  let fs2 := deallocateBlock fs1 b in
  b = firstFreeBlock fs
  /\ freeBlocks fs2 = freeBlocks fs
  /\ firstFreeBlock fs2 = firstFreeBlock fs
  /\ (forall fuel h, walk_free (memory fs2) fuel h = walk_free (memory fs) fuel h)
  /\ (forall a, ~ (block_word b < a < block_word b + BLOCK_WORDS) ->
                load (memory fs2) a = load (memory fs) a).
Proof.
  intros Hd Hc. cbv zeta. pose proof Hd as Hr. apply in_data_area_range in Hr.
  pose proof (allocateBlock_succeeds fs Hc ltac:(change TOTAL_BLOCKS with 1024; lia)) as Hs.
  destruct (allocateBlock fs) as [fs1 b] eqn:E. cbn [fst snd] in *. subst b.
  set (b := firstFreeBlock fs) in *.
  assert (b <> 0) as Hb by lia.
  pose proof (fun a => load_allocateBlock fs fs1 b a E Hb) as L.
  rewrite (deallocateBlock_data fs1 b Hd). cbn [memory set_memory].
  assert (block_word b = 256 * b) as Hw by (apply block_word_small; lia).
  pose proof (load_range (memory fs) SB.freeBlocks) as R3.
  assert (forall a, ~ (block_word b < a < block_word b + BLOCK_WORDS) ->
            load (store (store (store (memory fs1) (block_word b) (firstFreeBlock fs1))
                               SB.firstFreeBlock b) SB.freeBlocks (wrap32 (freeBlocks fs1 + 1))) a
            = load (memory fs) a) as F.
  { intros a Ha. rewrite !load_store. unfold freeBlocks, firstFreeBlock. rewrite !L.
    change BLOCK_WORDS with 256 in *.
    unfold SB.freeBlocks, SB.firstFreeBlock, freeBlocks in *. rewrite Hw in *.
    change SB.freeBlocks with 3 in *.
    repeat (destruct (decide _); try lia); subst; try reflexivity.
    all: rewrite ?wrap32_idem, ?wrap32_load.
    - rewrite wrap32_small by lia. lia.
    - rewrite wrap32_small by lia. reflexivity.
    - reflexivity. }
  split; [reflexivity|]. split; [|split; [|split]].
  - apply F. change BLOCK_WORDS with 256. unfold SB.freeBlocks. lia.
  - apply F. change BLOCK_WORDS with 256. unfold SB.firstFreeBlock. lia.
  - intros fuel h. apply walk_free_ext. intros x. apply F.
    destruct (block_word_apart x b) as [->|N]; lia.
  - exact F.
Qed.

(** X2 at the fresh image. *)
Lemma allocateBlock_undone_by_deallocateBlock_witness :
  in_data_area (firstFreeBlock fresh) = true
  /\ freeBlocks fresh <> 0
  /\ freeBlocks (deallocateBlock (fst (allocateBlock fresh)) (snd (allocateBlock fresh)))
     = freeBlocks fresh.
Proof.
  assert (in_data_area (firstFreeBlock fresh) = true) as H1 by (vm_compute; reflexivity).
  assert (freeBlocks fresh <> 0) as H2 by (vm_compute; discriminate).
  split; [exact H1|]. split; [exact H2|].
  exact (proj1 (proj2 (allocateBlock_undone_by_deallocateBlock fresh H1 H2))).
Defined.

Lemma allocateInode_succeeds (fs : FileSystem) :
  freeInodes fs <> 0 -> firstFreeInode fs <> 0 ->
  snd (allocateInode fs) = firstFreeInode fs.
Proof.
  unfold freeInodes, firstFreeInode, allocateInode. intros Hc Hh.
  destruct (_ || _) eqn:C; [|reflexivity].
  apply orb_true_iff in C as [C|C]; lia.
Qed.

Lemma inode_ok_empty (t : Z) : inode_ok (mkInode 0 0 (wrap32 t) (wrap32 t) (replicate 10 0) 0).
Proof. unfold inode_ok. cbn. rewrite !wrap32_idem. repeat split. Qed.

(** X3. The inode list is last in, first out: after [deallocateInode fs i]
    with [0 < i < MAX_INODES], the next [allocateInode] returns [i], the
    count and the head are again those of [fs], and inode [i] reads as an
    empty regular file stamped with the clock, whatever it held before. *)
Theorem deallocateInode_then_allocateInode (fs : FileSystem) (i : Z) :
  0 < i < MAX_INODES ->
  freeInodes fs <> 4294967295 ->
  let fs1 := deallocateInode fs i in
  let fs2 := fst (allocateInode fs1) in
  snd (allocateInode fs1) = i
  /\ freeInodes fs2 = freeInodes fs
  /\ firstFreeInode fs2 = firstFreeInode fs
  /\ readInode fs2 i
     = mkInode 0 0 (wrap32 (clock fs)) (wrap32 (clock fs)) (replicate 10 0) 0.
Proof.
  intros Hi Hc. cbv zeta. change MAX_INODES with 128 in Hi.
  pose proof (load_range (memory fs) SB.freeInodes) as R5.
  pose proof (load_range (memory fs) SB.firstFreeInode) as R7.
  assert (inode_word i = 256 + 16 * i) as Hw by (apply inode_word_small; lia).
  set (fs1 := deallocateInode fs i).
  assert (forall a, load (memory fs1) a
            = if decide (a = SB.freeInodes) then freeInodes fs + 1
              else if decide (a = SB.firstFreeInode) then i
              else if decide (a = inode_word i + IN.indirectBlock) then firstFreeInode fs
              else load (memory fs) a) as L1.
  { intros a. unfold fs1. rewrite deallocateInode_valid by (change MAX_INODES with 128; lia).
    cbn [memory set_memory]. rewrite !load_store.
    unfold freeInodes, firstFreeInode, SB.freeInodes, SB.firstFreeInode, IN.indirectBlock in *.
    rewrite Hw.
    repeat (destruct (decide _); try lia); subst; try reflexivity.
    all: rewrite ?wrap32_idem, ?wrap32_load; try reflexivity.
    all: apply wrap32_small; lia. }
  assert (freeInodes fs1 = freeInodes fs + 1) as H5.
  { unfold freeInodes at 1. rewrite L1. destruct (decide _); [reflexivity|congruence]. }
  assert (firstFreeInode fs1 = i) as H7.
  { unfold firstFreeInode. rewrite L1. unfold SB.firstFreeInode, SB.freeInodes.
    destruct (decide (7 = 5)); [lia|]. destruct (decide (7 = 7)); [reflexivity|lia]. }
  assert (clock fs1 = clock fs) as Hclock.
  { unfold fs1. rewrite deallocateInode_valid by (change MAX_INODES with 128; lia).
    reflexivity. }
  pose proof (allocateInode_succeeds fs1 ltac:(unfold freeInodes in *; lia) ltac:(lia)) as Hs.
  destruct (allocateInode fs1) as [fs2 i'] eqn:E. cbn [fst snd] in *.
  rewrite H7 in Hs. subst i'.
  destruct (allocateInode_inv _ _ _ E ltac:(change MAX_INODES with 128; lia))
    as (_ & _ & _ & ->).
  split; [reflexivity|].
  unfold freeInodes at 1, firstFreeInode at 1.
  rewrite !load_writeInode_out by (rewrite Hw; unfold SB.freeInodes, SB.firstFreeInode; lia).
  cbn [memory set_memory]. rewrite !load_store, H5, L1. rewrite Hclock.
  unfold SB.freeInodes, SB.firstFreeInode, IN.indirectBlock. rewrite Hw.
  split; [|split].
  - destruct (decide (5 = 5)); [|lia]. rewrite wrap32_idem.
    unfold freeInodes, SB.freeInodes in *. rewrite wrap32_small by lia. lia.
  - destruct (decide (5 = 7)); [lia|]. destruct (decide (7 = 7)); [|lia].
    repeat (destruct (decide _); try lia). apply wrap32_load.
  - apply readInode_writeInode; [change MAX_INODES with 128; lia | apply inode_ok_empty].
Qed.

(** X3 at the fresh image and inode 5. *)
Lemma deallocateInode_then_allocateInode_witness :
  0 < 5 < MAX_INODES
  /\ freeInodes fresh <> 4294967295
  /\ snd (allocateInode (deallocateInode fresh 5)) = 5.
Proof.
  assert (0 < 5 < MAX_INODES) as H1 by (change MAX_INODES with 128; lia).
  assert (freeInodes fresh <> 4294967295) as H2 by (vm_compute; discriminate).
  split; [exact H1|]. split; [exact H2|].
  exact (proj1 (deallocateInode_then_allocateInode fresh 5 H1 H2)).
Defined.

(** X4. Inode number 0 doubles as the end-of-list mark: once
    [deallocateInode] has been given inode 0, the head of the list is 0 and
    [allocateInode] fails, leaving the state alone, however many inodes
    the count says are free. *)
Theorem deallocateInode_zero_stops_allocateInode (fs : FileSystem) :
  allocateInode (deallocateInode fs 0) = (deallocateInode fs 0, MAX_INODES)
  /\ freeInodes (deallocateInode fs 0) = wrap32 (freeInodes fs + 1).
Proof.
  rewrite deallocateInode_valid by (change MAX_INODES with 128; lia).
  unfold allocateInode, freeInodes. cbn [memory set_memory].
  rewrite !load_store. unfold SB.freeInodes, SB.firstFreeInode.
  destruct (decide (5 = 5)); [|lia]. destruct (decide (5 = 7)); [lia|].
  destruct (decide (7 = 7)); [|lia].
  change (wrap32 0) with 0. rewrite Z.eqb_refl, orb_true_r.
  split; [reflexivity|]. apply wrap32_idem.
Qed.

(** * The free-block list as an invariant *)

Lemma walk_free_inv (m : mem) (fuel : nat) (h : Z) (l : list Z) :
  walk_free m fuel h = Some l ->
  (h = 0 /\ l = [])
  \/ (h <> 0 /\ exists fuel' l', fuel = S fuel' /\ l = h :: l'
        /\ walk_free m fuel' (load m (block_word h)) = Some l').
Proof.
  destruct fuel as [|f]; cbn [walk_free]; destruct (h =? 0) eqn:E.
  - intros [= <-]. left. split; [lia|reflexivity].
  - discriminate.
  - intros [= <-]. left. split; [lia|reflexivity].
  - destruct (walk_free m f _) as [l'|] eqn:W; [|discriminate].
    intros [= <-]. right. split; [lia|]. exists f, l'. auto.
Qed.

Lemma walk_free_cons (m : mem) (fuel : nat) (h : Z) (l : list Z) :
  h <> 0 -> walk_free m fuel (load m (block_word h)) = Some l ->
  walk_free m (S fuel) h = Some (h :: l).
Proof.
  intros Hh W. cbn [walk_free]. destruct (h =? 0) eqn:E; [lia|]. rewrite W. reflexivity.
Qed.

Lemma walk_free_mono (m : mem) (fuel fuel' : nat) (h : Z) (l : list Z) :
  walk_free m fuel h = Some l -> (fuel <= fuel')%nat -> walk_free m fuel' h = Some l.
Proof.
  revert fuel' h l. induction fuel as [|f IH]; intros f' h l W Hle.
  - destruct (walk_free_inv _ _ _ _ W) as [[-> ->]|(_ & ? & ? & ? & _)]; [|discriminate].
    destruct f'; reflexivity.
  - destruct (walk_free_inv _ _ _ _ W) as [[-> ->]|(Hh & f0 & l' & [= <-] & -> & W')].
    + destruct f'; reflexivity.
    + destruct f' as [|f']; [lia|]. apply walk_free_cons; [exact Hh|].
      apply (IH f'); [exact W'|lia].
Qed.

Lemma walk_free_length (m : mem) (fuel : nat) (h : Z) (l : list Z) :
  walk_free m fuel h = Some l -> walk_free m (length l) h = Some l.
Proof.
  revert h l. induction fuel as [|f IH]; intros h l W.
  - destruct (walk_free_inv _ _ _ _ W) as [[-> ->]|(_ & ? & ? & ? & _)]; [|discriminate].
    reflexivity.
  - destruct (walk_free_inv _ _ _ _ W) as [[-> ->]|(Hh & f0 & l' & [= <-] & -> & W')].
    + reflexivity.
    + cbn [length]. apply walk_free_cons; [exact Hh|]. apply IH. exact W'.
Qed.

Lemma walk_free_det (m : mem) (f1 f2 : nat) (h : Z) (l1 l2 : list Z) :
  walk_free m f1 h = Some l1 -> walk_free m f2 h = Some l2 -> l1 = l2.
Proof.
  intros W1 W2.
  pose proof (walk_free_mono _ _ (Nat.max f1 f2) _ _ W1 ltac:(lia)) as M1.
  pose proof (walk_free_mono _ _ (Nat.max f1 f2) _ _ W2 ltac:(lia)) as M2.
  congruence.
Qed.

(** The walk from a block met on the way is the rest of the walk. *)
Lemma walk_free_suffix (m : mem) (fuel : nat) (h y : Z) (l1 l2 : list Z) :
  walk_free m fuel h = Some (l1 ++ y :: l2) ->
  exists fuel', walk_free m fuel' y = Some (y :: l2).
Proof.
  revert fuel h. induction l1 as [|x l1 IH]; intros fuel h W.
  - cbn [app] in W.
    destruct (walk_free_inv _ _ _ _ W) as [[_ ?]|(Hh & f0 & l' & -> & E & W')];
      [discriminate|].
    injection E as E1 E2. subst h l'. exists (S f0). exact W.
  - cbn [app] in W.
    destruct (walk_free_inv _ _ _ _ W) as [[_ ?]|(Hh & f0 & l' & -> & E & W')];
      [discriminate|].
    injection E as E1 E2. subst h l'. apply (IH _ _ W').
Qed.

(** A walk that ends never meets a block twice. *)
Lemma walk_free_NoDup (m : mem) (fuel : nat) (h : Z) (l : list Z) :
  walk_free m fuel h = Some l -> NoDup l.
Proof.
  revert h l. induction fuel as [|f IH]; intros h l W.
  - destruct (walk_free_inv _ _ _ _ W) as [[-> ->]|(_ & ? & ? & ? & _)]; [|discriminate].
    constructor.
  - destruct (walk_free_inv _ _ _ _ W) as [[-> ->]|(Hh & f0 & l' & [= <-] & -> & W')].
    + constructor.
    + constructor; [|apply (IH _ _ W')].
      intros Hin. apply list_elem_of_split in Hin as (l1 & l2 & ->).
      destruct (walk_free_suffix _ _ _ _ _ _ W') as [f' Wh].
      pose proof (walk_free_det _ _ _ _ _ _ W Wh) as Heq.
      injection Heq as Heq. apply (f_equal length) in Heq.
      rewrite length_app in Heq. cbn [length] in Heq. lia.
Qed.

Lemma walk_free_frame (m m' : mem) (fuel : nat) (h : Z) (l : list Z) :
  walk_free m fuel h = Some l ->
  (forall x, x ∈ l -> load m' (block_word x) = load m (block_word x)) ->
  walk_free m' fuel h = Some l.
Proof.
  revert h l. induction fuel as [|f IH]; intros h l W H.
  - destruct (walk_free_inv _ _ _ _ W) as [[-> ->]|(_ & ? & ? & ? & _)]; [|discriminate].
    reflexivity.
  - destruct (walk_free_inv _ _ _ _ W) as [[-> ->]|(Hh & f0 & l' & [= <-] & -> & W')].
    + reflexivity.
    + apply walk_free_cons; [exact Hh|]. rewrite H by (left).
      apply IH; [exact W'|]. intros x Hx. apply H. right. exact Hx.
Qed.

(** [free_list_ok] spelt out. *)
Lemma free_list_ok_iff (fs : FileSystem) :
  free_list_ok fs = true
  <-> exists l, walk_free (memory fs) (Z.to_nat TOTAL_BLOCKS) (firstFreeBlock fs) = Some l
        /\ (forall x, x ∈ l -> 9 <= x < 1024)
        /\ Z.of_nat (length l) = freeBlocks fs.
Proof.
  unfold free_list_ok. split.
  - destruct (walk_free _ _ _) as [l|]; [|discriminate].
    intros H. apply andb_true_iff in H as [Ha Hl]. exists l. split; [reflexivity|].
    split; [|lia]. intros x Hx. rewrite forallb_forall in Ha.
    apply in_data_area_range, Ha, list_elem_of_In, Hx.
  - intros (l & -> & Ha & Hl). apply andb_true_iff. split; [|lia].
    apply forallb_forall. intros x Hx. apply in_data_area_range, Ha, list_elem_of_In, Hx.
Qed.

(** Distinct data blocks are at most [TOTAL_BLOCKS - FIRST_DATA_BLOCK]. *)
Lemma data_blocks_bound (l : list Z) :
  NoDup l -> (forall x, x ∈ l -> 9 <= x < 1024) -> (length l <= 1015)%nat.
Proof.
  intros Hn Ha.
  assert (l ⊆+ seqZ 9 1015) as Hs.
  { apply NoDup_submseteq; [exact Hn|]. intros x Hx. apply elem_of_seqZ.
    specialize (Ha x Hx). lia. }
  apply submseteq_length in Hs. rewrite length_seqZ in Hs. lia.
Qed.

(** X5. A well-formed free list has no block twice, and so at most
    [TOTAL_BLOCKS - FIRST_DATA_BLOCK] blocks: the count of a well-formed
    image never exceeds the size of the data area. *)
Theorem free_list_ok_distinct (fs : FileSystem) :
  free_list_ok fs = true ->
  exists l, free_list fs = Some l /\ NoDup l
            /\ freeBlocks fs = Z.of_nat (length l)
            /\ freeBlocks fs <= TOTAL_BLOCKS - FIRST_DATA_BLOCK.
Proof.
  intros H. apply free_list_ok_iff in H as (l & W & Ha & Hl).
  exists l. pose proof (walk_free_NoDup _ _ _ _ W) as Hn.
  pose proof (data_blocks_bound l Hn Ha) as Hb.
  split; [exact W|]. split; [exact Hn|]. split; [lia|].
  change (TOTAL_BLOCKS - FIRST_DATA_BLOCK) with 1015. lia.
Qed.

(** X5 at the fresh image. *)
Lemma free_list_ok_distinct_witness :
  free_list_ok fresh = true /\ freeBlocks fresh <= TOTAL_BLOCKS - FIRST_DATA_BLOCK.
Proof.
  assert (free_list_ok fresh = true) as H by (vm_compute; reflexivity).
  split; [exact H|].
  destruct (free_list_ok_distinct fresh H) as (l & _ & _ & _ & Hb). exact Hb.
Defined.

(** X6. [allocateBlock] keeps the free-list invariant: from an image whose
    list ends, stays in the data area and has [freeBlocks] entries, the
    image after the call (successful or not) is such an image again. *)
Theorem allocateBlock_keeps_free_list (fs : FileSystem) :
  free_list_ok fs = true -> free_list_ok (fst (allocateBlock fs)) = true.
Proof.
  intros H.
  destruct (allocateBlock_outcome fs) as [[_ ->]|(Hb & Hr & Hc & Hh & _ & Hf)]; [exact H|].
  destruct (allocateBlock fs) as [fs' b]. cbn [fst snd] in *.
  apply free_list_ok_iff in H as (l & W & Ha & Hl).
  pose proof (walk_free_NoDup _ _ _ _ W) as Hn.
  rewrite <- Hb in W.
  destruct (walk_free_inv _ _ _ _ W) as [[? _]|(_ & f0 & l' & Ef & -> & W')]; [lia|].
  apply NoDup_cons in Hn as [Hnot Hn].
  apply free_list_ok_iff. exists l'. rewrite Hh, Hc. split; [|split].
  - apply (walk_free_mono _ f0); [|lia].
    apply (walk_free_frame (memory fs)); [exact W'|].
    intros x Hx. assert (9 <= x < 1024) as Hx9 by (apply Ha; right; exact Hx).
    assert (x <> b) as Hxb by (intros ->; exact (Hnot Hx)).
    change TOTAL_BLOCKS with 1024 in Hr.
    apply Hf; rewrite !block_word_small by lia;
      unfold SB.freeBlocks, SB.firstFreeBlock; change BLOCK_WORDS with 256; lia.
  - intros x Hx. apply Ha. right. exact Hx.
  - cbn [length] in Hl. lia.
Qed.

(** X6 at the fresh image. *)
Lemma allocateBlock_keeps_free_list_witness :
  free_list_ok fresh = true /\ free_list_ok (fst (allocateBlock fresh)) = true.
Proof.
  assert (free_list_ok fresh = true) as H by (vm_compute; reflexivity).
  split; [exact H|]. exact (allocateBlock_keeps_free_list fresh H).
Defined.

Lemma on_free_list_false (fs : FileSystem) (b : Z) (l : list Z) :
  walk_free (memory fs) (Z.to_nat TOTAL_BLOCKS) (firstFreeBlock fs) = Some l ->
  on_free_list fs b = false -> b ∉ l.
Proof.
  unfold on_free_list, free_list. intros -> H Hin.
  apply not_true_iff_false in H. apply H. apply existsb_exists.
  exists b. split; [apply list_elem_of_In; exact Hin | apply Z.eqb_refl].
Qed.

(** The image after [deallocateBlock] of a data block, word by word. *)
Lemma load_deallocateBlock (fs : FileSystem) (b a : Z) :
  in_data_area b = true ->
  load (memory (deallocateBlock fs b)) a
  = if decide (a = SB.freeBlocks) then wrap32 (freeBlocks fs + 1)
    else if decide (a = SB.firstFreeBlock) then b
    else if decide (a = block_word b) then firstFreeBlock fs
    else load (memory fs) a.
Proof.
  intros Hd. pose proof Hd as Hr. apply in_data_area_range in Hr.
  pose proof (load_range (memory fs) SB.firstFreeBlock) as R6.
  rewrite (deallocateBlock_data fs b Hd). cbn [memory set_memory].
  rewrite !load_store. rewrite block_word_small by lia.
  unfold firstFreeBlock, SB.freeBlocks, SB.firstFreeBlock in *.
  repeat (destruct (decide _); try lia); subst; try reflexivity.
  - apply wrap32_idem.
  - apply wrap32_small. lia.
  - apply wrap32_load.
Qed.

(** X7. [deallocateBlock] keeps the free-list invariant when it is given a
    data block that is not already on the list: the block becomes the
    head, linked to the old head, and the count goes up by one. *)
Theorem deallocateBlock_keeps_free_list (fs : FileSystem) (b : Z) :
  free_list_ok fs = true ->
  in_data_area b = true ->
  on_free_list fs b = false ->
  free_list_ok (deallocateBlock fs b) = true
  /\ free_list (deallocateBlock fs b) = cons b <$> free_list fs.
Proof.
  intros H Hd Hoff. pose proof Hd as Hr. apply in_data_area_range in Hr.
  apply free_list_ok_iff in H as (l & W & Ha & Hl).
  pose proof (walk_free_NoDup _ _ _ _ W) as Hn.
  pose proof (on_free_list_false fs b l W Hoff) as Hnot.
  assert (length (b :: l) <= 1015)%nat as Hlen.
  { apply data_blocks_bound; [constructor; assumption|].
    intros x Hx. apply elem_of_cons in Hx as [->|Hx]; [exact Hr | apply Ha, Hx]. }
  cbn [length] in Hlen.
  pose proof (fun a => load_deallocateBlock fs b a Hd) as L.
  rewrite (wrap32_small (freeBlocks fs + 1)) in L by lia.
  assert (walk_free (memory (deallocateBlock fs b)) (Z.to_nat TOTAL_BLOCKS)
                    (firstFreeBlock (deallocateBlock fs b)) = Some (b :: l)) as W2.
  { unfold firstFreeBlock at 1. rewrite L.
    unfold SB.firstFreeBlock, SB.freeBlocks.
    destruct (decide (6 = 3)); [lia|]. destruct (decide (6 = 6)); [|lia].
    change (Z.to_nat TOTAL_BLOCKS) with (S (Z.to_nat 1023)).
    apply walk_free_cons; [lia|]. rewrite L.
    rewrite block_word_small by lia. unfold SB.firstFreeBlock, SB.freeBlocks.
    destruct (decide _); [lia|]. destruct (decide _); [lia|].
    destruct (decide _); [|lia].
    apply (walk_free_mono _ (length l)); [|lia].
    apply (walk_free_frame (memory fs)); [apply (walk_free_length _ _ _ _ W)|].
    intros x Hx. assert (9 <= x < 1024) as Hx9 by (apply Ha, Hx).
    assert (x <> b) as Hxb by (intros ->; exact (Hnot Hx)).
    rewrite L. rewrite !block_word_small by lia. unfold SB.firstFreeBlock, SB.freeBlocks.
    repeat (destruct (decide _); try lia); reflexivity. }
  split.
  - apply free_list_ok_iff. exists (b :: l). split; [exact W2|]. split.
    + intros x Hx. apply elem_of_cons in Hx as [->|Hx]; [exact Hr | apply Ha, Hx].
    + unfold freeBlocks at 1. rewrite L. destruct (decide _); [|congruence].
      cbn [length]. lia.
  - unfold free_list. rewrite W2, W. reflexivity.
Qed.

(** X7 at the image left by one [allocateBlock] on the fresh image, and
    the block it returned. *)
Lemma deallocateBlock_keeps_free_list_witness :
  let fs := fst (allocateBlock fresh) in
  free_list_ok fs = true /\ in_data_area 10 = true /\ on_free_list fs 10 = false
  /\ free_list_ok (deallocateBlock fs 10) = true.
Proof.
  cbv zeta.
  assert (free_list_ok (fst (allocateBlock fresh)) = true) as H1 by (vm_compute; reflexivity).
  assert (in_data_area 10 = true) as H2 by reflexivity.
  assert (on_free_list (fst (allocateBlock fresh)) 10 = false) as H3
    by (vm_compute; reflexivity).
  split; [exact H1|]. split; [exact H2|]. split; [exact H3|].
  exact (proj1 (deallocateBlock_keeps_free_list _ 10 H1 H2 H3)).
Defined.

(** A walk in [m'] from [h] meets [b] when the walk in [m] does and the
    links of the blocks before [b] are the same in both. *)
Lemma walk_free_reaches (m m' : mem) (l1 : list Z) :
  forall (f f' : nat) (h b : Z) (rest l' : list Z),
    walk_free m f h = Some (l1 ++ b :: rest) ->
    (forall x, x ∈ l1 -> load m' (block_word x) = load m (block_word x)) ->
    walk_free m' f' h = Some l' -> b ∈ l'.
Proof.
  induction l1 as [|x l1 IH]; intros f f' h b rest l' W H W2; cbn [app] in W.
  - destruct (walk_free_inv _ _ _ _ W) as [[_ ?]|(Hh & f0 & l0 & _ & E & _)]; [discriminate|].
    injection E as E1 E2. subst h.
    destruct (walk_free_inv _ _ _ _ W2) as [[? _]|(_ & _ & l2 & _ & -> & _)]; [lia|]. left.
  - destruct (walk_free_inv _ _ _ _ W) as [[_ ?]|(Hh & f0 & l0 & _ & E & W0)]; [discriminate|].
    injection E as E1 E2. subst h l0.
    destruct (walk_free_inv _ _ _ _ W2) as [[? _]|(_ & f2 & l2 & _ & -> & W2')]; [lia|].
    right. rewrite H in W2' by left.
    apply (IH _ f2 _ _ _ _ W0); [|exact W2']. intros y Hy. apply H. right. exact Hy.
Qed.

(** X8. Freeing a data block that is already on the list (a double free)
    breaks the free-list invariant: the block is linked in a second time,
    so the walk from the new head comes back to it and never ends. *)
Theorem deallocateBlock_twice_breaks_free_list (fs : FileSystem) (b : Z) :
  free_list_ok fs = true ->
  in_data_area b = true ->
  on_free_list fs b = true ->
  free_list (deallocateBlock fs b) = None
  /\ free_list_ok (deallocateBlock fs b) = false.
Proof.
  intros H Hd Hon. pose proof Hd as Hr. apply in_data_area_range in Hr.
  apply free_list_ok_iff in H as (l & W & Ha & Hl).
  pose proof (walk_free_NoDup _ _ _ _ W) as Hn.
  assert (b ∈ l) as Hin.
  { unfold on_free_list, free_list in Hon. rewrite W in Hon.
    apply existsb_exists in Hon as (x & Hx & E). apply Z.eqb_eq in E. subst x.
    apply list_elem_of_In. exact Hx. }
  apply list_elem_of_split_l in Hin as (l1 & rest & -> & Hnot).
  pose proof (fun a => load_deallocateBlock fs b a Hd) as L.
  assert (free_list (deallocateBlock fs b) = None) as Hnone.
  { unfold free_list.
    destruct (walk_free (memory (deallocateBlock fs b)) _ _) as [l2|] eqn:W2;
      [exfalso|reflexivity].
    pose proof (walk_free_NoDup _ _ _ _ W2) as Hn2.
    unfold firstFreeBlock at 1 in W2. rewrite L in W2.
    unfold SB.firstFreeBlock, SB.freeBlocks in W2.
    destruct (decide (6 = 3)); [lia|]. destruct (decide (6 = 6)); [|lia].
    destruct (walk_free_inv _ _ _ _ W2) as [[? _]|(_ & f0 & l' & _ & -> & W')]; [lia|].
    apply NoDup_cons in Hn2 as [Hb _]. apply Hb.
    rewrite L in W'. rewrite block_word_small in W' by lia.
    unfold SB.firstFreeBlock, SB.freeBlocks in W'.
    destruct (decide _); [lia|]. destruct (decide _); [lia|]. destruct (decide _); [|lia].
    apply (walk_free_reaches (memory fs) (memory (deallocateBlock fs b)) l1 _ f0 _ b rest l' W);
      [|exact W'].
    intros x Hx. assert (9 <= x < 1024) as Hx9 by (apply Ha, elem_of_app; left; exact Hx).
    assert (x <> b) as Hxb by (intros ->; exact (Hnot Hx)).
    rewrite L. rewrite !block_word_small by lia. unfold SB.firstFreeBlock, SB.freeBlocks.
    repeat (destruct (decide _); try lia); reflexivity. }
  split; [exact Hnone|].
  unfold free_list in Hnone. unfold free_list_ok. rewrite Hnone. reflexivity.
Qed.

(** X8 at the fresh image and the head of its list. *)
Lemma deallocateBlock_twice_breaks_free_list_witness :
  free_list_ok fresh = true /\ in_data_area 10 = true /\ on_free_list fresh 10 = true
  /\ free_list_ok (deallocateBlock fresh 10) = false.
Proof.
  assert (free_list_ok fresh = true) as H1 by (vm_compute; reflexivity).
  assert (in_data_area 10 = true) as H2 by reflexivity.
  assert (on_free_list fresh 10 = true) as H3 by (vm_compute; reflexivity).
  split; [exact H1|]. split; [exact H2|]. split; [exact H3|].
  exact (proj2 (deallocateBlock_twice_breaks_free_list fresh 10 H1 H2 H3)).
Defined.

(** ** The debug report *)

Lemma debug_walk_total (m : mem) (fuel : nat) :
  forall block count : Z,
    0 <= count <= load m SB.freeBlocks ->
    (Z.to_nat (load m SB.freeBlocks - count) <= fuel)%nat ->
    exists count' err,
      debug_walk m fuel block count = Some (count', err)
      /\ count <= count' <= load m SB.freeBlocks.
Proof.
  pose proof (load_range m SB.freeBlocks) as R.
  induction fuel as [|f IH]; intros block count Hc Hf.
  - assert (count = load m SB.freeBlocks) as E by lia.
    exists count, None. cbn [debug_walk].
    replace (count <? load m SB.freeBlocks) with false by (symmetry; apply Z.ltb_ge; lia).
    rewrite orb_true_r. split; [reflexivity|lia].
  - cbn [debug_walk]. destruct (_ || _) eqn:C.
    { exists count, None. split; [reflexivity|lia]. }
    apply orb_false_iff in C as [_ C]. apply negb_false_iff, Z.ltb_lt in C.
    destruct (TOTAL_BLOCKS <=? block).
    { exists count, (Some (Debug_invalid_block block)). split; [reflexivity|lia]. }
    rewrite (wrap32_small (count + 1)) by lia.
    destruct (load m SB.totalBlocks <? count + 1).
    { exists (count + 1), (Some Debug_cycle). split; [reflexivity|lia]. }
    destruct (IH (load m (block_word block)) (count + 1)) as (c' & e & E & Hc');
      [lia|lia|].
    exists c', e. split; [exact E|lia].
Qed.

(** X9. [cmdDebug] always produces its report, the number of blocks it
    counts is never above [freeBlocks], and it flags a mismatch exactly
    when it counted fewer: a list that goes on beyond [freeBlocks] entries
    is not noticed. *)
Theorem cmdDebug_reports (fs : FileSystem) :
  exists r, cmdDebug fs = Some r
            /\ 0 <= counted r <= freeBlocks fs
            /\ (mismatch r = true <-> counted r < freeBlocks fs).
Proof.
  unfold cmdDebug, freeBlocks.
  pose proof (load_range (memory fs) SB.freeBlocks) as R.
  destruct (debug_walk_total (memory fs) (Z.to_nat (load (memory fs) SB.freeBlocks))
              (load (memory fs) SB.firstFreeBlock) 0) as (c & e & -> & Hc); [lia|lia|].
  eexists. split; [reflexivity|]. cbn [counted mismatch]. split; [lia|].
  rewrite negb_true_iff, Z.eqb_neq. lia.
Qed.

Lemma debug_walk_free_list (m : mem) (l : list Z) :
  forall (f fuel : nat) (h count : Z),
    walk_free m f h = Some l ->
    (forall x, x ∈ l -> x < TOTAL_BLOCKS) ->
    0 <= count ->
    count + Z.of_nat (length l) = load m SB.freeBlocks ->
    load m SB.freeBlocks <= load m SB.totalBlocks ->
    (length l <= fuel)%nat ->
    debug_walk m fuel h count = Some (load m SB.freeBlocks, None).
Proof.
  pose proof (load_range m SB.freeBlocks) as R.
  induction l as [|x l IH]; intros f fuel h count W Ha Hc Hl Ht Hf.
  - destruct (walk_free_inv _ _ _ _ W) as [[-> _]|(_ & _ & l' & _ & ? & _)]; [|discriminate].
    cbn [length] in Hl. destruct fuel; cbn [debug_walk]; rewrite Z.eqb_refl, orb_true_l;
      f_equal; f_equal; lia.
  - destruct (walk_free_inv _ _ _ _ W) as [[_ ?]|(Hh & f0 & l' & _ & E & W')]; [discriminate|].
    injection E as E1 E2. subst x l'. cbn [length] in Hl, Hf.
    destruct fuel as [|fuel]; [lia|]. cbn [debug_walk].
    replace (h =? 0) with false by (symmetry; apply Z.eqb_neq; exact Hh).
    replace (count <? load m SB.freeBlocks) with true by (symmetry; apply Z.ltb_lt; lia).
    cbn [orb negb].
    replace (TOTAL_BLOCKS <=? h) with false
      by (symmetry; apply Z.leb_gt, Ha; left).
    rewrite (wrap32_small (count + 1)) by lia.
    replace (load m SB.totalBlocks <? count + 1) with false
      by (symmetry; apply Z.ltb_ge; lia).
    apply (IH f0); [exact W'| |lia|lia|exact Ht|lia].
    intros y Hy. apply Ha. right. exact Hy.
Qed.

(** X10. On an image whose free list is well formed and whose superblock
    holds the true [totalBlocks], [cmdDebug] walks the whole list: it
    counts [freeBlocks] blocks and reports neither an error nor a
    mismatch. *)
Theorem cmdDebug_on_well_formed_list (fs : FileSystem) :
  free_list_ok fs = true ->
  load (memory fs) SB.totalBlocks = TOTAL_BLOCKS ->
  cmdDebug fs = Some (mkReport (freeBlocks fs) None false).
Proof.
  intros H Ht. apply free_list_ok_iff in H as (l & W & Ha & Hl).
  pose proof (data_blocks_bound l (walk_free_NoDup _ _ _ _ W) Ha) as Hb.
  unfold cmdDebug.
  rewrite (debug_walk_free_list (memory fs) l (Z.to_nat TOTAL_BLOCKS) _ _ 0 W).
  - unfold freeBlocks. rewrite Z.eqb_refl. reflexivity.
  - intros x Hx. specialize (Ha x Hx). change TOTAL_BLOCKS with 1024. lia.
  - lia.
  - unfold freeBlocks in Hl. lia.
  - rewrite Ht. unfold freeBlocks in Hl. change TOTAL_BLOCKS with 1024. lia.
  - unfold freeBlocks in Hl. lia.
Qed.

(** X10 at the fresh image. *)
Lemma cmdDebug_on_well_formed_list_witness :
  free_list_ok fresh = true
  /\ load (memory fresh) SB.totalBlocks = TOTAL_BLOCKS
  /\ cmdDebug fresh = Some (mkReport (freeBlocks fresh) None false).
Proof.
  assert (free_list_ok fresh = true) as H1 by (vm_compute; reflexivity).
  assert (load (memory fresh) SB.totalBlocks = TOTAL_BLOCKS) as H2 by (vm_compute; reflexivity).
  split; [exact H1|]. split; [exact H2|].
  exact (cmdDebug_on_well_formed_list fresh H1 H2).
Defined.

(** * Inode records and the directory store *)

(** X11. On the record layout this development fixes, a 4-byte [time_t],
    the record [writeInode] copies is [sizeof_Inode] = 60 bytes and lies
    within the [INODE_SIZE] bytes of its slot.  Under that layout an inode
    record written with [writeInode] is read back by [readInode] field for
    field, and the record of every other inode and the superblock counts
    and heads are untouched.  (With an 8-byte [time_t] the structure takes
    72 bytes and the copy runs over the first two words of the next slot;
    the statement does not cover that build.) *)
Theorem writeInode_then_readInode (fs : FileSystem) (i j : Z) (ino : Inode) :
  inode_ok ino ->
  0 <= i < MAX_INODES ->
  0 <= j -> j <> i ->
  WORD_SIZE * Z.of_nat (length (inode_words ino)) = sizeof_Inode
  /\ sizeof_Inode <= INODE_SIZE
  /\ readInode (writeInode fs i ino) i = ino
  /\ readInode (writeInode fs i ino) j = readInode fs j
  /\ counts (writeInode fs i ino) = counts fs.
Proof.
  intros Hok Hi Hj Hne. change MAX_INODES with 128 in Hi.
  assert (inode_word i = 256 + 16 * i) as Hw by (apply inode_word_small; lia).
  split; [|split; [|split; [|split]]].
  - destruct Hok as (_ & _ & _ & _ & _ & Hlen & _).
    unfold inode_words. rewrite length_app, length_app, length_map, length_seqZ.
    cbn [length]. reflexivity.
  - unfold sizeof_Inode, INODE_SIZE, WORD_SIZE, IN.indirectBlock. lia.
  - apply readInode_writeInode; [change MAX_INODES with 128; lia | exact Hok].
  - destruct (decide (j < 128)) as [Hlt|Hge].
    + apply readInode_ext. intros a Ha. rewrite inode_word_small in Ha by lia.
      apply load_writeInode_out. lia.
    + unfold readInode.
      replace (MAX_INODES <=? j) with true
        by (symmetry; apply Z.leb_le; change MAX_INODES with 128; lia).
      reflexivity.
  - unfold counts, freeBlocks, freeInodes, firstFreeBlock, firstFreeInode.
    unfold SB.freeBlocks, SB.freeInodes, SB.firstFreeBlock, SB.firstFreeInode.
    rewrite !load_writeInode_out by lia. reflexivity.
Qed.

(** X11 at the fresh image: [sample_inode] written to inode 3 is read
    back, and inode 4, the next slot, reads as before. *)
Lemma writeInode_then_readInode_witness :
  inode_ok sample_inode /\ 0 <= 3 < MAX_INODES /\ 0 <= 4 /\ 4 <> 3
  /\ readInode (writeInode fresh 3 sample_inode) 3 = sample_inode
  /\ readInode (writeInode fresh 3 sample_inode) 4 = readInode fresh 4.
Proof.
  assert (inode_ok sample_inode) as H1 by (repeat split).
  assert (0 <= 3 < MAX_INODES) as H2 by (change MAX_INODES with 128; lia).
  assert (0 <= 4) as H3 by lia.
  assert (4 <> 3) as H4 by lia.
  split; [exact H1|]. split; [exact H2|]. split; [exact H3|]. split; [exact H4|].
  split.
  - exact (proj1 (proj2 (proj2 (writeInode_then_readInode fresh 3 4 sample_inode H1 H2 H3 H4)))).
  - exact (proj1 (proj2 (proj2 (proj2
             (writeInode_then_readInode fresh 3 4 sample_inode H1 H2 H3 H4))))).
Defined.

(** X12. A directory entry written for a name shorter than
    [MAX_FILENAME_LENGTH] is read back with that inode number and a name
    that [strcmp] equates with the name written, and with no name whose C
    string differs. *)
Theorem entry_name_round_trip (m : mem) (w : Z) (nm other : string) (ino : Z) :
  str_length nm < MAX_FILENAME_LENGTH ->
  0 <= ino < 4294967296 ->
  let e := read_entry (store_entry m w (mkEntry (name_field nm) ino)) w in
  inodeNumber e = ino
  /\ name_matches e (c_str nm) = true
  /\ (name_matches e (c_str other) = true <-> c_str other = c_str nm).
Proof.
  intros Hlen Hino. cbv zeta.
  destruct (name_field_shape nm Hlen) as (_ & _ & H28).
  rewrite read_entry_store_entry
    by (split; [exact H28|]; split; [apply name_field_bytes | exact Hino]).
  unfold name_matches. cbn [name inodeNumber]. rewrite (cstr_name_field nm Hlen).
  split; [reflexivity|]. split; [apply bool_decide_eq_true; reflexivity|].
  rewrite bool_decide_eq_true. split; intros H; congruence.
Qed.

(** X12 at the name [notes.txt], inode 7, in slot 0 of block 9 of the
    fresh image. *)
Lemma entry_name_round_trip_witness :
  str_length "notes.txt" < MAX_FILENAME_LENGTH
  /\ 0 <= 7 < 4294967296
  /\ inodeNumber (read_entry (store_entry (memory fresh) (entry_word 9 0)
                                          (mkEntry (name_field "notes.txt") 7))
                             (entry_word 9 0)) = 7.
Proof.
  assert (str_length "notes.txt" < MAX_FILENAME_LENGTH) as H1 by (vm_compute; reflexivity).
  assert (0 <= 7 < 4294967296) as H2 by lia.
  split; [exact H1|]. split; [exact H2|].
  exact (proj1 (entry_name_round_trip (memory fresh) (entry_word 9 0)
                  "notes.txt" "notes.txt" 7 H1 H2)).
Defined.

(** X13. [findDirectoryEntry] answers -1, or the directory is a real
    directory (its inode number below [MAX_INODES], its type 1) and the
    answer is a nonzero [int]: a slot with inode number 0 is a free slot,
    so no name ever leads to inode 0, the root. *)
Theorem findDirectoryEntry_never_root (fs : FileSystem) (d : Z) (nm : string) :
  findDirectoryEntry fs d nm = -1
  \/ (type (readInode fs d) = 1 /\ d < MAX_INODES
      /\ findDirectoryEntry fs d nm <> 0
      /\ -2147483648 <= findDirectoryEntry fs d nm < 2147483648).
Proof.
  destruct (decide (type (readInode fs d) = 1)) as [Ht|Ht].
  - destruct (findDirectoryEntry_cases fs d nm) as [->|(x & Hx & E)]; [left; reflexivity|].
    right. split; [exact Ht|]. split; [apply (readInode_directory_range fs), Ht|].
    rewrite E. unfold to_int.
    destruct (2147483648 <=? x) eqn:C; [apply Z.leb_le in C | apply Z.leb_gt in C]; lia.
  - left. unfold findDirectoryEntry, readDirectoryEntries.
    destruct (type (readInode fs d) =? 1) eqn:E; [apply Z.eqb_eq in E; contradiction|].
    reflexivity.
Qed.

Lemma dir_direct_ok_inv (fs : FileSystem) (d : Z) :
  dir_direct_ok fs d = true ->
  forall a, In a (blockAddresses (readInode fs d)) -> a <> 0 -> 9 <= a < 1024.
Proof.
  unfold dir_direct_ok. rewrite forallb_forall. intros H a Ha Hnz.
  specialize (H a Ha). apply orb_true_iff in H as [H|H]; [lia|].
  apply in_data_area_range, H.
Qed.

Lemma add_ready_inv (fs : FileSystem) (d : Z) :
  add_ready fs d = true ->
  0 <= d < 128 /\ type (readInode fs d) = 1
  /\ dir_direct_ok fs d = true
  /\ exists blk j, room_direct (memory fs) (blockAddresses (readInode fs d)) = Some (blk, j).
Proof.
  unfold add_ready. intros H.
  apply andb_true_iff in H as [H Hroom]. apply andb_true_iff in H as [H Hok].
  apply andb_true_iff in H as [Hd Ht]. apply Z.eqb_eq in Ht.
  pose proof (readInode_directory_range fs d Ht) as Hr. change MAX_INODES with 128 in Hr.
  split; [lia|]. split; [exact Ht|]. split; [exact Hok|].
  destruct (room_direct _ _) as [[blk j]|]; [|discriminate]. exists blk, j. reflexivity.
Qed.

(** The directory inode after an entry was written or removed. *)
Lemma inode_ok_touched (ino : Inode) (sz t : Z) :
  inode_ok ino -> inode_ok (set_mtime (set_size ino (wrap32 sz)) (wrap32 t)).
Proof.
  intros (O1 & O2 & O3 & O4 & O5 & O6 & O7).
  unfold inode_ok, set_mtime, set_size.
  cbn [type size creationTime modificationTime blockAddresses indirectBlock].
  rewrite !wrap32_idem. auto 10.
Qed.

(** X14. Adding an entry and looking the name up: in a directory that has
    room in a direct block and holds no live entry of that name,
    [addDirectoryEntry] succeeds without allocating, and
    [findDirectoryEntry] then answers the inode number that was added;
    the directory has the same blocks and is one entry larger. *)
Theorem addDirectoryEntry_then_find (fs : FileSystem) (d : Z) (nm : string) (ino : Z) :
  add_ready fs d = true ->
  str_length nm < MAX_FILENAME_LENGTH ->
  List.find (fun e => name_matches e (c_str nm)) (readDirectoryEntries fs d) = None ->
  0 < ino < 2147483648 ->
  let fs' := fst (addDirectoryEntry fs d nm ino) in
  snd (addDirectoryEntry fs d nm ino) = true
  /\ findDirectoryEntry fs' d nm = ino
  /\ counts fs' = counts fs
  /\ blockAddresses (readInode fs' d) = blockAddresses (readInode fs d)
  /\ size (readInode fs' d) = wrap32 (size (readInode fs d) + DIRENT_SIZE).
Proof.
  intros Hready Hlen Hnew Hino. cbv zeta.
  destruct (add_ready_inv fs d Hready) as (Hd & Htype & Hok & blk & j & Room).
  pose proof (dir_direct_ok_inv fs d Hok) as Hwf.
  destruct (room_direct_Some _ _ _ _ Room) as (Hin & Hblk0 & Hfree).
  destruct (Hwf blk Hin Hblk0) as [Hb1 Hb2].
  apply find_free_slot_Some in Hfree as (Hj & _ & _).
  rewrite (addDirectoryEntry_room fs d nm ino blk j Hlen Htype Room). cbn [fst snd].
  set (e_new := mkEntry (name_field nm) ino).
  set (w := entry_word blk j).
  assert (w = 256 * blk + 8 * j) as Ew by (unfold w; apply entry_word_small; lia).
  assert (inode_word d = 256 + 16 * d) as Ed by (apply inode_word_small; lia).
  destruct (name_field_shape nm Hlen) as (_ & _ & Hlen28).
  assert (entry_ok e_new) as Hok_e.
  { split; [exact Hlen28|]. split; [apply name_field_bytes|]. cbn [inodeNumber e_new]. lia. }
  set (fs1 := commit_entry fs d (readInode fs d) w e_new).
  assert (forall a, a < w \/ w + 8 <= a ->
            a < inode_word d \/ inode_word d + 15 <= a ->
            load (memory fs1) a = load (memory fs) a) as L1.
  { intros a H1 H2. apply load_commit_entry_out; [exact Hlen28|exact H1|exact H2]. }
  assert (read_entry (memory fs1) w = e_new) as Hslot.
  { unfold fs1, commit_entry.
    rewrite (read_entry_ext (memory (set_memory fs (store_entry (memory fs) w e_new)))).
    - cbn [memory set_memory]. apply read_entry_store_entry, Hok_e.
    - intros a Ha. apply load_writeInode_out. lia. }
  set (ino' := set_mtime (set_size (readInode fs d)
                 (wrap32 (size (readInode fs d) + DIRENT_SIZE))) (wrap32 (clock fs))).
  assert (readInode fs1 d = ino') as PI1.
  { unfold fs1, commit_entry. apply readInode_writeInode; [change MAX_INODES with 128; lia|].
    apply inode_ok_touched, readInode_ok. }
  assert (name_matches e_new (c_str nm) = true) as Hmatch.
  { unfold name_matches. apply bool_decide_eq_true. cbn [name e_new].
    apply cstr_name_field, Hlen. }
  assert (forall a x, 9 <= a < 1024 -> a <> 0 -> 256 * a <= x < 256 * a + 256 ->
            x < w \/ w + 8 <= x -> load (memory fs1) x = load (memory fs) x) as Hframe.
  { intros a x Ha _ Hx Hw. apply L1; [exact Hw|lia]. }
  assert (inodeNumber e_new <> 0) as Hlive by (cbn [inodeNumber e_new]; lia).
  assert (forall a, In a (blockAddresses (readInode fs d)) -> a <> 0 -> 9 <= a < 1024 /\ a <> 0)
    as Hwf0 by (intros a Ha Hnz; split; [apply Hwf; assumption | exact Hnz]).
  split; [reflexivity|]. split; [|split; [|split]].
  - unfold findDirectoryEntry, readDirectoryEntries in *.
    rewrite PI1. cbn [type ino' set_mtime set_size blockAddresses indirectBlock].
    rewrite Htype in *. cbn [Z.eqb Pos.eqb negb] in *.
    match goal with
    | |- match List.find _ (_ ++ ?r1) with _ => _ end = _ =>
      match type of Hnew with
      | List.find _ (_ ++ ?r) = _ =>
        destruct (scan_direct (memory fs) (memory fs1) 0 blk j e_new (c_str nm)
                    ltac:(lia) Hj Hslot Hlive Hmatch Hframe Hblk0
                    (blockAddresses (readInode fs d)) Room Hwf0 r1 r)
          as (e1 & Hf1 & [->|Hf])
      end
    end.
    + rewrite Hf1. cbn [inodeNumber e_new]. unfold to_int.
      destruct (2147483648 <=? ino) eqn:E; [apply Z.leb_le in E; lia|reflexivity].
    + rewrite Hf in Hnew. discriminate.
  - unfold counts, freeBlocks, freeInodes, firstFreeBlock, firstFreeInode.
    unfold SB.freeBlocks, SB.freeInodes, SB.firstFreeBlock, SB.firstFreeInode.
    rewrite !L1 by lia. reflexivity.
  - rewrite PI1. reflexivity.
  - rewrite PI1. reflexivity.
Qed.

(** X14 at the fresh image: the name [a] for inode 1 in the root. *)
Lemma addDirectoryEntry_then_find_witness :
  add_ready fresh 0 = true
  /\ str_length "a" < MAX_FILENAME_LENGTH
  /\ List.find (fun e => name_matches e (c_str "a")) (readDirectoryEntries fresh 0) = None
  /\ 0 < 1 < 2147483648
  /\ findDirectoryEntry (fst (addDirectoryEntry fresh 0 "a" 1)) 0 "a" = 1.
Proof.
  assert (add_ready fresh 0 = true) as H1 by (vm_compute; reflexivity).
  assert (str_length "a" < MAX_FILENAME_LENGTH) as H2 by (vm_compute; reflexivity).
  assert (List.find (fun e => name_matches e (c_str "a")) (readDirectoryEntries fresh 0) = None)
    as H3 by (vm_compute; reflexivity).
  assert (0 < 1 < 2147483648) as H4 by lia.
  split; [exact H1|]. split; [exact H2|]. split; [exact H3|]. split; [exact H4|].
  exact (proj1 (proj2 (addDirectoryEntry_then_find fresh 0 "a" 1 H1 H2 H3 H4))).
Defined.

Lemma remove_in_Some (fs fs' : FileSystem) (d : Z) (ino : Inode) (s : list Z)
    (blocks : list Z) :
  remove_in fs d ino s blocks = Some fs' ->
  exists b j, In b blocks /\ b <> 0 /\ 0 <= j < 32
    /\ find_named_slot (memory fs) b s = Some j
    /\ fs' = tombstone fs d ino (entry_word b j).
Proof.
  induction blocks as [|a blocks IH]; cbn [remove_in]; [discriminate|].
  destruct (a =? 0) eqn:Ea.
  - intros H. destruct (IH H) as (b & j & Hin & R). exists b, j. split; [right; exact Hin|exact R].
  - apply Z.eqb_neq in Ea. destruct (find_named_slot (memory fs) a s) as [j|] eqn:Ef.
    + intros [= <-]. exists a, j. split; [left; reflexivity|]. split; [exact Ea|].
      split; [apply (find_named_slot_range _ _ _ _ Ef)|]. split; [exact Ef|reflexivity].
    + intros H. destruct (IH H) as (b & j & Hin & R). exists b, j.
      split; [right; exact Hin|exact R].
Qed.

Lemma load_tombstone_slot (fs : FileSystem) (d : Z) (ino : Inode) (w : Z) :
  w + 7 < inode_word d \/ inode_word d + 15 <= w + 7 ->
  load (memory (tombstone fs d ino w)) (w + 7) = 0.
Proof.
  intros H. unfold tombstone. rewrite load_writeInode_out by exact H.
  cbn [memory set_memory]. change NAME_WORDS with 7. rewrite load_store_eq. reflexivity.
Qed.

(** X15. [removeDirectoryEntry] never gives a block back.  When it fails
    the state is the one it was given.  When it succeeds on a directory
    with well-placed direct blocks and no indirect block, the superblock
    counts and heads and the directory's block addresses are unchanged
    and its size is one entry less. *)
Theorem removeDirectoryEntry_keeps_blocks (fs : FileSystem) (d : Z) (nm : string) :
  0 <= d ->
  dir_direct_ok fs d = true ->
  indirectBlock (readInode fs d) = 0 ->
  let fs' := fst (removeDirectoryEntry fs d nm) in
  if snd (removeDirectoryEntry fs d nm)
  then counts fs' = counts fs
       /\ blockAddresses (readInode fs' d) = blockAddresses (readInode fs d)
       /\ indirectBlock (readInode fs' d) = 0
       /\ size (readInode fs' d) = wrap32 (size (readInode fs d) - DIRENT_SIZE)
  else fs' = fs.
Proof.
  intros Hd Hok Hind. cbv zeta.
  destruct (removeDirectoryEntry fs d nm) as [fs' [|]] eqn:E; cbn [fst snd];
    [|apply (removeDirectoryEntry_failure _ _ _ _ E)].
  unfold removeDirectoryEntry in E.
  destruct (type (readInode fs d) =? 1) eqn:Ht; cbn [negb] in E; [|discriminate].
  apply Z.eqb_eq in Ht.
  pose proof (readInode_directory_range fs d Ht) as Hr. change MAX_INODES with 128 in Hr.
  rewrite Hind in E. cbn [Z.eqb] in E.
  destruct (remove_in fs d (readInode fs d) (c_str nm) (blockAddresses (readInode fs d)))
    as [fs1|] eqn:R; [|discriminate].
  injection E as <-.
  destruct (remove_in_Some _ _ _ _ _ _ R) as (b & j & Hin & Hb0 & Hj & _ & ->).
  destruct (dir_direct_ok_inv fs d Hok b Hin Hb0) as [Hb1 Hb2].
  assert (entry_word b j = 256 * b + 8 * j) as Ew by (apply entry_word_small; lia).
  assert (inode_word d = 256 + 16 * d) as Ed by (apply inode_word_small; lia).
  assert (readInode (tombstone fs d (readInode fs d) (entry_word b j)) d
          = set_mtime (set_size (readInode fs d) (wrap32 (size (readInode fs d) - DIRENT_SIZE)))
                      (wrap32 (clock fs))) as PI.
  { unfold tombstone. apply readInode_writeInode; [change MAX_INODES with 128; lia|].
    apply inode_ok_touched, readInode_ok. }
  rewrite PI. cbn [blockAddresses indirectBlock size set_mtime set_size].
  split; [|auto].
  unfold counts, freeBlocks, freeInodes, firstFreeBlock, firstFreeInode.
  unfold SB.freeBlocks, SB.freeInodes, SB.firstFreeBlock, SB.firstFreeInode.
  rewrite !load_tombstone_out by lia. reflexivity.
Qed.

(** X15 at the root of the image left by [mkdir /p] on the fresh image. *)
Lemma removeDirectoryEntry_keeps_blocks_witness :
  let fs := fst (cmdMkdir fresh "/p") in
  0 <= 0 /\ dir_direct_ok fs 0 = true /\ indirectBlock (readInode fs 0) = 0
  /\ if snd (removeDirectoryEntry fs 0 "p")
     then counts (fst (removeDirectoryEntry fs 0 "p")) = counts fs
          /\ blockAddresses (readInode (fst (removeDirectoryEntry fs 0 "p")) 0)
             = blockAddresses (readInode fs 0)
          /\ indirectBlock (readInode (fst (removeDirectoryEntry fs 0 "p")) 0) = 0
          /\ size (readInode (fst (removeDirectoryEntry fs 0 "p")) 0)
             = wrap32 (size (readInode fs 0) - DIRENT_SIZE)
     else fst (removeDirectoryEntry fs 0 "p") = fs.
Proof.
  cbv zeta.
  assert (0 <= 0) as H1 by lia.
  assert (dir_direct_ok (fst (cmdMkdir fresh "/p")) 0 = true) as H2 by (vm_compute; reflexivity).
  assert (indirectBlock (readInode (fst (cmdMkdir fresh "/p")) 0) = 0) as H3
    by (vm_compute; reflexivity).
  split; [exact H1|]. split; [exact H2|]. split; [exact H3|].
  exact (removeDirectoryEntry_keeps_blocks (fst (cmdMkdir fresh "/p")) 0 "p" H1 H2 H3).
Defined.

Lemma filter_map_ext_or {A B : Type} (p : B -> bool) (g1 g2 : A -> B) (l : list A) :
  (forall x, In x l -> g1 x = g2 x \/ (p (g1 x) = false /\ p (g2 x) = false)) ->
  List.filter p (map g1 l) = List.filter p (map g2 l).
Proof.
  induction l as [|x l IH]; intros H; [reflexivity|]. cbn [map List.filter].
  rewrite IH by (intros y Hy; apply H; right; exact Hy).
  destruct (H x (or_introl eq_refl)) as [->|[-> ->]]; reflexivity.
Qed.

Lemma flat_map_ext_In {A B : Type} (g1 g2 : A -> list B) (l : list A) :
  (forall x, In x l -> g1 x = g2 x) -> flat_map g1 l = flat_map g2 l.
Proof.
  induction l as [|x l IH]; intros H; [reflexivity|]. cbn [flat_map].
  rewrite (H x (or_introl eq_refl)), IH; [reflexivity|].
  intros y Hy. apply H. right. exact Hy.
Qed.

Lemma wrap32_add_sub (s k : Z) : wrap32 (wrap32 (s + k) - k) = wrap32 s.
Proof.
  unfold wrap32. rewrite Zminus_mod_idemp_l. f_equal. lia.
Qed.

Lemma find_named_slot_Some (m : mem) (b : Z) (s : list Z) (j : Z) :
  find_named_slot m b s = Some j
  <-> 0 <= j < 32
      /\ nonzero (inodeNumber (read_entry m (entry_word b j)))
         && name_matches (read_entry m (entry_word b j)) s = true
      /\ forall k, 0 <= k < j ->
           nonzero (inodeNumber (read_entry m (entry_word b k)))
           && name_matches (read_entry m (entry_word b k)) s = false.
Proof.
  unfold find_named_slot. change entriesPerBlock with 32. apply find_seqZ_Some.
Qed.

(** Removing the name that was just added finds the slot it was put in. *)
Lemma remove_in_added (fs fs1 : FileSystem) (d : Z) (ino' : Inode) (s : list Z)
    (blk j : Z) (e_new : DirectoryEntry) :
  0 <= j < 32 ->
  read_entry (memory fs1) (entry_word blk j) = e_new ->
  inodeNumber e_new <> 0 ->
  name_matches e_new s = true ->
  (forall a x, 9 <= a < 1024 -> 256 * a <= x < 256 * a + 256 ->
     x < entry_word blk j \/ entry_word blk j + 8 <= x ->
     load (memory fs1) x = load (memory fs) x) ->
  forall addrs : list Z,
    room_direct (memory fs) addrs = Some (blk, j) ->
    (forall a, In a addrs -> a <> 0 -> 9 <= a < 1024) ->
    (forall a k, In a addrs -> a <> 0 -> 0 <= k < 32 ->
       nonzero (inodeNumber (read_entry (memory fs) (entry_word a k)))
       && name_matches (read_entry (memory fs) (entry_word a k)) s = false) ->
    remove_in fs1 d ino' s addrs = Some (tombstone fs1 d ino' (entry_word blk j)).
Proof.
  intros Hj Hslot Hlive Hmatch Hframe.
  induction addrs as [|a addrs IH]; [discriminate|].
  intros Room Hwf Hno.
  destruct (room_direct_Some _ _ _ _ Room) as (Hin & Hb0 & _).
  pose proof (Hwf blk Hin Hb0) as Hb.
  cbn [room_direct] in Room. cbn [remove_in].
  destruct (a =? 0) eqn:Ea; [discriminate|]. apply Z.eqb_neq in Ea.
  pose proof (Hwf a (or_introl eq_refl) Ea) as Ha.
  assert (forall k, 0 <= k < 32 -> (a, k) <> (blk, j) ->
            read_entry (memory fs1) (entry_word a k) = read_entry (memory fs) (entry_word a k))
    as Hsame.
  { intros k Hk Hne. apply read_entry_ext. intros x Hx.
    rewrite entry_word_small in Hx by lia.
    apply (Hframe a); [exact Ha|lia|].
    destruct (decide (a = blk)) as [->|Hab].
    - assert (k <> j) by congruence. rewrite entry_word_small by lia. lia.
    - rewrite entry_word_small by lia. lia. }
  destruct (find_free_slot (memory fs) a) as [j'|] eqn:Ef.
  - injection Room as -> ->.
    assert (find_named_slot (memory fs1) blk s = Some j) as ->; [|reflexivity].
    apply find_named_slot_Some. split; [exact Hj|]. split.
    + rewrite Hslot, Hmatch. unfold nonzero.
      destruct (inodeNumber e_new =? 0) eqn:Z0; [apply Z.eqb_eq in Z0; contradiction|].
      reflexivity.
    + intros k Hk. rewrite Hsame by (try lia; intros [= ?]; lia).
      apply Hno; [left; reflexivity|exact Ea|lia].
  - assert (find_named_slot (memory fs1) a s = None) as ->.
    { unfold find_named_slot. apply find_none_iff. intros k Hk.
      apply list_elem_of_In, elem_of_seqZ in Hk. change entriesPerBlock with 32 in Hk.
      assert (a <> blk) as Hne.
      { intros ->. apply room_direct_Some in Room as (_ & _ & Hr). congruence. }
      cbv zeta. rewrite Hsame by (try lia; intros [= ? ?]; contradiction).
      apply Hno; [left; reflexivity|exact Ea|lia]. }
    apply IH; [exact Room| |].
    + intros a' Ha'. apply Hwf. right. exact Ha'.
    + intros a' k Ha'. apply Hno. right. exact Ha'.
Qed.

(** The state after an entry was committed to slot [j] of block [blk]. *)
Lemma commit_entry_facts (fs : FileSystem) (d : Z) (nm : string) (ino blk j : Z) :
  0 <= d < 128 -> 9 <= blk < 1024 -> 0 <= j < 32 ->
  str_length nm < MAX_FILENAME_LENGTH -> 0 <= ino < 4294967296 ->
  let w := entry_word blk j in
  let e_new := mkEntry (name_field nm) ino in
  let fs1 := commit_entry fs d (readInode fs d) w e_new in
  (forall a, a < w \/ w + 8 <= a -> a < inode_word d \/ inode_word d + 15 <= a ->
     load (memory fs1) a = load (memory fs) a)
  /\ read_entry (memory fs1) w = e_new
  /\ readInode fs1 d
     = set_mtime (set_size (readInode fs d) (wrap32 (size (readInode fs d) + DIRENT_SIZE)))
                 (wrap32 (clock fs))
  /\ clock fs1 = clock fs.
Proof.
  intros Hd Hblk Hj Hlen Hino w e_new fs1.
  assert (w = 256 * blk + 8 * j) as Ew by (unfold w; apply entry_word_small; lia).
  assert (inode_word d = 256 + 16 * d) as Ed by (apply inode_word_small; lia).
  destruct (name_field_shape nm Hlen) as (_ & _ & Hlen28).
  assert (entry_ok e_new) as Hok_e.
  { split; [exact Hlen28|]. split; [apply name_field_bytes|]. exact Hino. }
  split; [|split; [|split]].
  - intros a H1 H2. apply load_commit_entry_out; [exact Hlen28|exact H1|exact H2].
  - unfold fs1, commit_entry.
    rewrite (read_entry_ext (memory (set_memory fs (store_entry (memory fs) w e_new)))).
    + cbn [memory set_memory]. apply read_entry_store_entry, Hok_e.
    + intros a Ha. apply load_writeInode_out. lia.
  - unfold fs1, commit_entry. apply readInode_writeInode; [change MAX_INODES with 128; lia|].
    apply inode_ok_touched, readInode_ok.
  - apply clock_commit_entry.
Qed.

(** Adding an entry to a directory with room and removing it again, step
    by step. *)
Lemma add_remove_steps (fs : FileSystem) (d : Z) (nm : string) (ino : Z) :
  add_ready fs d = true ->
  indirectBlock (readInode fs d) = 0 ->
  str_length nm < MAX_FILENAME_LENGTH ->
  List.find (fun e => name_matches e (c_str nm)) (readDirectoryEntries fs d) = None ->
  0 < ino < 4294967296 ->
  let fs1 := fst (addDirectoryEntry fs d nm ino) in
  let fs2 := fst (removeDirectoryEntry fs1 d nm) in
  snd (addDirectoryEntry fs d nm ino) = true
  /\ findDirectoryEntry fs1 d nm = to_int ino
  /\ (forall a, 0 <= a < 2304 -> a < inode_word d \/ inode_word d + 15 <= a ->
        load (memory fs1) a = load (memory fs) a /\ load (memory fs2) a = load (memory fs) a)
  /\ snd (removeDirectoryEntry fs1 d nm) = true
  /\ readDirectoryEntries fs2 d = readDirectoryEntries fs d
  /\ size (readInode fs2 d) = size (readInode fs d)
  /\ blockAddresses (readInode fs2 d) = blockAddresses (readInode fs d)
  /\ counts fs2 = counts fs.
Proof.
  intros Hready Hind Hlen Hnew Hino. cbv zeta.
  destruct (add_ready_inv fs d Hready) as (Hd & Htype & Hok & blk & j & Room).
  pose proof (dir_direct_ok_inv fs d Hok) as Hwf.
  destruct (room_direct_Some _ _ _ _ Room) as (Hin & Hblk0 & Hfree).
  pose proof (Hwf blk Hin Hblk0) as Hb.
  apply find_free_slot_Some in Hfree as (Hj & Hzero & _).
  rewrite (addDirectoryEntry_room fs d nm ino blk j Hlen Htype Room). cbn [fst snd].
  destruct (commit_entry_facts fs d nm ino blk j Hd Hb Hj Hlen ltac:(lia))
    as (L1 & Hslot & PI1 & Hclock).
  set (e_new := mkEntry (name_field nm) ino) in *.
  set (w := entry_word blk j) in *.
  set (fs1 := commit_entry fs d (readInode fs d) w e_new) in *.
  set (addrs := blockAddresses (readInode fs d)) in *.
  assert (w = 256 * blk + 8 * j) as Ew by (unfold w; apply entry_word_small; lia).
  assert (inode_word d = 256 + 16 * d) as Ed by (apply inode_word_small; lia).
  change NAME_WORDS with 7 in Hzero. fold w in Hzero.
  set (ino' := set_mtime (set_size (readInode fs d)
                 (wrap32 (size (readInode fs d) + DIRENT_SIZE))) (wrap32 (clock fs))) in *.
  (* no live entry of the direct blocks is named [nm] *)
  assert (forall a k, In a addrs -> a <> 0 -> 0 <= k < 32 ->
            nonzero (inodeNumber (read_entry (memory fs) (entry_word a k)))
            && name_matches (read_entry (memory fs) (entry_word a k)) (c_str nm) = false)
    as Hno.
  { intros a k Ha Hnz Hk.
    destruct (nonzero _) eqn:Hl; [cbn [andb]|reflexivity].
    unfold readDirectoryEntries in Hnew. rewrite Htype in Hnew. cbn [Z.eqb Pos.eqb negb] in Hnew.
    rewrite find_none_iff in Hnew. apply Hnew. apply in_or_app. left.
    apply in_flat_map. exists a. split.
    - apply filter_In. split; [exact Ha|]. unfold nonzero.
      destruct (a =? 0) eqn:E; [apply Z.eqb_eq in E; contradiction|reflexivity].
    - unfold block_entries. apply filter_In. split; [|exact Hl].
      apply in_map_iff. exists k. split; [reflexivity|].
      apply list_elem_of_In, elem_of_seqZ. change entriesPerBlock with 32. lia. }
  assert (name_matches e_new (c_str nm) = true) as Hmatch.
  { unfold name_matches. apply bool_decide_eq_true. cbn [name e_new].
    apply cstr_name_field, Hlen. }
  assert (inodeNumber e_new <> 0) as Hlive by (cbn [inodeNumber e_new]; lia).
  assert (forall a x, 9 <= a < 1024 -> 256 * a <= x < 256 * a + 256 ->
            x < w \/ w + 8 <= x -> load (memory fs1) x = load (memory fs) x) as Hframe.
  { intros a x Ha Hx Hw. apply L1; [exact Hw|lia]. }
  assert (findDirectoryEntry fs1 d nm = to_int ino) as Hfind.
  { unfold findDirectoryEntry, readDirectoryEntries in *.
    rewrite PI1. cbn [type ino' set_mtime set_size blockAddresses indirectBlock].
    rewrite Htype in *. cbn [Z.eqb Pos.eqb negb] in *. fold addrs in Hnew |- *.
    assert (forall a x, 9 <= a < 1024 -> a <> 0 -> 256 * a <= x < 256 * a + 256 ->
              x < w \/ w + 8 <= x -> load (memory fs1) x = load (memory fs) x) as Hframe0
      by (intros a x Ha _; apply Hframe, Ha).
    assert (forall a, In a addrs -> a <> 0 -> 9 <= a < 1024 /\ a <> 0) as Hwf0
      by (intros a Ha Hnz; split; [apply Hwf; assumption | exact Hnz]).
    match goal with
    | |- match List.find _ (_ ++ ?r1) with _ => _ end = _ =>
      match type of Hnew with
      | List.find _ (_ ++ ?r) = _ =>
        destruct (scan_direct (memory fs) (memory fs1) 0 blk j e_new (c_str nm)
                    Hb Hj Hslot Hlive Hmatch Hframe0 Hblk0 addrs Room Hwf0 r1 r)
          as (e1 & Hf1 & [->|Hf])
      end
    end.
    - rewrite Hf1. reflexivity.
    - rewrite Hf in Hnew. discriminate. }
  pose proof (remove_in_added fs fs1 d ino' (c_str nm) blk j e_new Hj Hslot Hlive Hmatch
                Hframe addrs Room Hwf Hno) as Hrem.
  assert (removeDirectoryEntry fs1 d nm = (tombstone fs1 d ino' w, true)) as ->.
  { unfold removeDirectoryEntry. rewrite PI1.
    cbn [type ino' set_mtime set_size blockAddresses indirectBlock].
    rewrite Htype. cbn [Z.eqb Pos.eqb negb]. fold addrs. rewrite Hrem. reflexivity. }
  cbn [fst snd]. set (fs2 := tombstone fs1 d ino' w).
  assert (forall a, a <> w + 7 -> a < inode_word d \/ inode_word d + 15 <= a ->
            load (memory fs2) a = load (memory fs1) a) as L2.
  { intros a H1 H2. apply load_tombstone_out; assumption. }
  assert (load (memory fs2) (w + 7) = 0) as Hz2 by (apply load_tombstone_slot; lia).
  assert (readInode fs2 d
          = set_mtime (set_size ino' (wrap32 (size ino' - DIRENT_SIZE))) (wrap32 (clock fs1)))
    as PI2.
  { unfold fs2, tombstone. apply readInode_writeInode; [change MAX_INODES with 128; lia|].
    apply inode_ok_touched. unfold ino'. apply inode_ok_touched, readInode_ok. }
  assert (size (readInode fs2 d) = size (readInode fs d)) as Hsize.
  { rewrite PI2. cbn [size ino' set_mtime set_size]. rewrite wrap32_add_sub.
    destruct (readInode_ok fs d) as (_ & O2 & _). exact O2. }
  split; [reflexivity|]. split; [exact Hfind|]. split.
  { intros a Ha Hd'. split; [|rewrite L2 by lia]; apply L1; lia. }
  split; [reflexivity|]. split; [|split; [exact Hsize|split]].
  - unfold readDirectoryEntries. rewrite PI2.
    cbn [type ino' set_mtime set_size blockAddresses indirectBlock].
    rewrite Htype, Hind. cbn [Z.eqb Pos.eqb negb]. fold addrs. f_equal.
    apply flat_map_ext_In. intros a Ha. apply filter_In in Ha as [Ha Hnz].
    assert (a <> 0) as Ha0 by (unfold nonzero in Hnz; destruct (a =? 0) eqn:E; [discriminate|lia]).
    pose proof (Hwf a Ha Ha0) as Har.
    unfold block_entries. apply filter_map_ext_or. intros k Hk.
    apply list_elem_of_In, elem_of_seqZ in Hk. change entriesPerBlock with 32 in Hk.
    destruct (decide (a = blk /\ k = j)) as [[-> ->]|Hne].
    + right. unfold read_entry. cbn [inodeNumber]. change NAME_WORDS with 7. fold w.
      rewrite Hz2, Hzero. split; reflexivity.
    + left. apply read_entry_ext. intros x Hx. rewrite entry_word_small in Hx by lia.
      rewrite L2 by lia. apply L1; lia.
  - rewrite PI2. reflexivity.
  - unfold counts, freeBlocks, freeInodes, firstFreeBlock, firstFreeInode.
    unfold SB.freeBlocks, SB.freeInodes, SB.firstFreeBlock, SB.firstFreeInode.
    rewrite !L2 by lia. rewrite !L1 by lia. reflexivity.
Qed.

(** X16. Adding an entry and removing it again: in a directory without an
    indirect block that has room in a direct block and holds no live entry
    of that name, [removeDirectoryEntry] after [addDirectoryEntry]
    succeeds and the directory lists exactly the entries it listed before,
    with the size and the superblock counts and heads it had. *)
Theorem addDirectoryEntry_then_remove (fs : FileSystem) (d : Z) (nm : string) (ino : Z) :
  add_ready fs d = true ->
  indirectBlock (readInode fs d) = 0 ->
  str_length nm < MAX_FILENAME_LENGTH ->
  List.find (fun e => name_matches e (c_str nm)) (readDirectoryEntries fs d) = None ->
  0 < ino < 4294967296 ->
  let fs1 := fst (addDirectoryEntry fs d nm ino) in
  let fs2 := fst (removeDirectoryEntry fs1 d nm) in
  snd (removeDirectoryEntry fs1 d nm) = true
  /\ readDirectoryEntries fs2 d = readDirectoryEntries fs d
  /\ size (readInode fs2 d) = size (readInode fs d)
  /\ blockAddresses (readInode fs2 d) = blockAddresses (readInode fs d)
  /\ counts fs2 = counts fs.
Proof.
  intros Hready Hind Hlen Hnew Hino.
  destruct (add_remove_steps fs d nm ino Hready Hind Hlen Hnew Hino)
    as (_ & _ & _ & H1 & H2 & H3 & H4 & H5).
  cbv zeta. auto.
Qed.

(** X16 at the fresh image: the name [a] for inode 1 in the root. *)
Lemma addDirectoryEntry_then_remove_witness :
  add_ready fresh 0 = true
  /\ indirectBlock (readInode fresh 0) = 0
  /\ str_length "a" < MAX_FILENAME_LENGTH
  /\ List.find (fun e => name_matches e (c_str "a")) (readDirectoryEntries fresh 0) = None
  /\ 0 < 1 < 4294967296
  /\ snd (removeDirectoryEntry (fst (addDirectoryEntry fresh 0 "a" 1)) 0 "a") = true.
Proof.
  assert (add_ready fresh 0 = true) as H1 by (vm_compute; reflexivity).
  assert (indirectBlock (readInode fresh 0) = 0) as H2 by (vm_compute; reflexivity).
  assert (str_length "a" < MAX_FILENAME_LENGTH) as H3 by (vm_compute; reflexivity).
  assert (List.find (fun e => name_matches e (c_str "a")) (readDirectoryEntries fresh 0) = None)
    as H4 by (vm_compute; reflexivity).
  assert (0 < 1 < 4294967296) as H5 by lia.
  split; [exact H1|]. split; [exact H2|]. split; [exact H3|]. split; [exact H4|].
  split; [exact H5|].
  exact (proj1 (addDirectoryEntry_then_remove fresh 0 "a" 1 H1 H2 H3 H4 H5)).
Defined.

(** * Paths: splitting, parsing and resolving *)

Lemma append_nil_l (b : string) : (EmptyString ++ b)%string = b.
Proof. reflexivity. Qed.

Lemma append_cons (c : ascii) (a b : string) : (String c a ++ b)%string = String c (a ++ b).
Proof. reflexivity. Qed.

Lemma append_nil_r (a : string) : (a ++ EmptyString)%string = a.
Proof. induction a as [|c a IH]; [reflexivity|]. rewrite append_cons, IH. reflexivity. Qed.

Lemma append_snoc (cur : string) (c : ascii) (s : string) :
  ((cur ++ String c EmptyString) ++ s)%string = (cur ++ String c s)%string.
Proof. induction cur as [|x cur IH]; [reflexivity|]. rewrite !append_cons, IH. reflexivity. Qed.

Lemma find_last_of_app (a b : string) :
  find_last_of (a ++ b)
  = match find_last_of b with
    | Some k => Some (String.length a + k)%nat
    | None => find_last_of a
    end.
Proof.
  induction a as [|c a IH]; rewrite ?append_nil_l, ?append_cons; cbn [find_last_of String.length].
  - destruct (find_last_of b); reflexivity.
  - rewrite IH. destruct (find_last_of b); reflexivity.
Qed.

Lemma find_last_of_snoc (cur : string) (c : ascii) :
  find_last_of cur = None -> Ascii.eqb c slash = false ->
  find_last_of (cur ++ String c EmptyString) = None.
Proof.
  intros H Hc. rewrite find_last_of_app. cbn [find_last_of]. rewrite Hc. exact H.
Qed.

Lemma split_slash_no_slash (s : string) :
  forall cur, find_last_of cur = None ->
    Forall (fun c => find_last_of c = None) (split_slash s cur).
Proof.
  induction s as [|c s IH]; intros cur H; cbn [split_slash].
  - constructor; [exact H|constructor].
  - destruct (Ascii.eqb c slash) eqn:E.
    + constructor; [exact H|]. apply IH. reflexivity.
    + apply IH. apply find_last_of_snoc; assumption.
Qed.

(** [parsePath] is the non-empty pieces of the path split at every slash;
    the slash it skips at the front only saves an empty piece. *)
Lemma parsePath_split (p : string) :
  parsePath p = List.filter (fun c => negb (str_empty c)) (split_slash p EmptyString).
Proof.
  unfold parsePath. destruct p as [|c s]; [reflexivity|].
  destruct (Ascii.eqb c slash) eqn:E; [|reflexivity].
  cbn [split_slash]. rewrite E. reflexivity.
Qed.

(** X17. The components [parsePath] returns are never empty and contain
    no slash, whatever the path. *)
Theorem parsePath_components (p : string) :
  Forall (fun c => c <> EmptyString /\ find_last_of c = None) (parsePath p).
Proof.
  rewrite parsePath_split. apply Forall_forall. intros c Hc.
  apply list_elem_of_In, filter_In in Hc as [Hin Hne]. split.
  - intros ->. discriminate Hne.
  - pose proof (split_slash_no_slash p EmptyString eq_refl) as F.
    rewrite Forall_forall in F. apply F, list_elem_of_In, Hin.
Qed.

Lemma split_slash_plain (t : string) :
  find_last_of t = None ->
  forall cur, split_slash t cur = [(cur ++ t)%string].
Proof.
  induction t as [|c t IHt]; intros Ht cur; cbn [split_slash].
  - rewrite append_nil_r. reflexivity.
  - cbn [find_last_of] in Ht. destruct (find_last_of t) eqn:Ft; [discriminate|].
    destruct (Ascii.eqb c slash) eqn:E; [discriminate|].
    rewrite IHt by reflexivity. rewrite append_snoc. reflexivity.
Qed.

Lemma split_slash_snoc (s t : string) :
  find_last_of t = None ->
  forall cur, split_slash (s ++ String slash t) cur = split_slash s cur ++ [t].
Proof.
  intros Ht. induction s as [|c s IH]; intros cur; rewrite ?append_nil_l, ?append_cons;
    cbn [split_slash].
  - rewrite Ascii.eqb_refl. cbn [app]. f_equal. apply (split_slash_plain t Ht EmptyString).
  - destruct (Ascii.eqb c slash); [cbn [app]; f_equal|]; apply IH.
Qed.

Lemma split_slash_join (s t : string) :
  forall cur, split_slash (s ++ String slash t) cur = split_slash s cur ++ split_slash t EmptyString.
Proof.
  induction s as [|c s IH]; intros cur; rewrite ?append_nil_l, ?append_cons; cbn [split_slash].
  - rewrite Ascii.eqb_refl. reflexivity.
  - destruct (Ascii.eqb c slash); [cbn [app]; f_equal|]; apply IH.
Qed.

(** Joining two paths with a slash joins their components. *)
Lemma parsePath_join (a b : string) :
  parsePath (a ++ String slash b) = parsePath a ++ parsePath b.
Proof.
  rewrite !parsePath_split, split_slash_join. apply List.filter_app.
Qed.

Lemma walk_components_dot (fs : FileSystem) (l : list string) :
  forall i, walk_components fs i (l ++ ["."%string]) = walk_components fs i l.
Proof.
  induction l as [|c l IH]; intros i; cbn [app walk_components]; [reflexivity|].
  destruct (String.eqb c "."); [apply IH|].
  destruct (String.eqb c "..").
  - destruct (i =? 0); [apply IH|]. destruct (List.find _ _); [apply IH|reflexivity].
  - destruct (_ =? -1); [reflexivity|apply IH].
Qed.

(** Resolution of a list of components in two stages, when the first
    stage does not fail. *)
Lemma walk_components_app (fs : FileSystem) (l1 l2 : list string) :
  forall i, walk_components fs i l1 <> -1 ->
    walk_components fs i (l1 ++ l2) = walk_components fs (walk_components fs i l1) l2.
Proof.
  induction l1 as [|c l1 IH]; intros i; cbn [app walk_components]; [reflexivity|].
  destruct (String.eqb c "."); [apply IH|].
  destruct (String.eqb c "..").
  - destruct (i =? 0); [apply IH|]. destruct (List.find _ _); [apply IH|congruence].
  - destruct (_ =? -1); [congruence|apply IH].
Qed.

(** X18. A trailing slash and a trailing [/.] do not change what a
    non-empty path resolves to. *)
Theorem getInodeFromPath_trailing (fs : FileSystem) (c : ascii) (s : string) :
  getInodeFromPath fs (String c s ++ "/") = getInodeFromPath fs (String c s)
  /\ getInodeFromPath fs (String c s ++ "/.") = getInodeFromPath fs (String c s).
Proof.
  rewrite !append_cons. unfold getInodeFromPath. rewrite <- !append_cons.
  change "/"%string with (String slash EmptyString).
  change "/."%string with (String slash "."%string).
  rewrite !parsePath_join.
  change (parsePath EmptyString) with (@nil string).
  change (parsePath "."%string) with ["."%string].
  rewrite app_nil_r, walk_components_dot. split; reflexivity.
Qed.

Lemma readInode_memory (fs fs' : FileSystem) (i : Z) :
  memory fs' = memory fs -> readInode fs' i = readInode fs i.
Proof. intros H. unfold readInode. rewrite H. reflexivity. Qed.

Lemma readDirectoryEntries_memory (fs fs' : FileSystem) (i : Z) :
  memory fs' = memory fs -> readDirectoryEntries fs' i = readDirectoryEntries fs i.
Proof.
  intros H. unfold readDirectoryEntries. rewrite (readInode_memory fs fs' i H), H. reflexivity.
Qed.

Lemma findDirectoryEntry_memory (fs fs' : FileSystem) (i : Z) (nm : string) :
  memory fs' = memory fs -> findDirectoryEntry fs' i nm = findDirectoryEntry fs i nm.
Proof.
  intros H. unfold findDirectoryEntry. rewrite (readDirectoryEntries_memory fs fs' i H).
  reflexivity.
Qed.

(** The components loop reads the image only. *)
Lemma walk_components_memory (fs fs' : FileSystem) (l : list string) :
  memory fs' = memory fs ->
  forall i, walk_components fs' i l = walk_components fs i l.
Proof.
  intros H. induction l as [|c l IH]; intros i; cbn [walk_components]; [reflexivity|].
  rewrite (readDirectoryEntries_memory fs fs' _ H), (findDirectoryEntry_memory fs fs' _ _ H).
  destruct (String.eqb c "."); [apply IH|].
  destruct (String.eqb c "..").
  - destruct (i =? 0); [apply IH|]. destruct (List.find _ _); [apply IH|reflexivity].
  - destruct (_ =? -1); [reflexivity|apply IH].
Qed.

Lemma walk_components_range (fs : FileSystem) (l : list string) :
  forall i, -2147483648 <= i < 2147483648 ->
    -2147483648 <= walk_components fs i l < 2147483648.
Proof.
  assert (forall x, 0 <= x < 4294967296 -> -2147483648 <= to_int x < 2147483648) as T.
  { intros x Hx. unfold to_int.
    destruct (2147483648 <=? x) eqn:E; [apply Z.leb_le in E | apply Z.leb_gt in E]; lia. }
  induction l as [|c l IH]; intros i Hi; cbn [walk_components]; [exact Hi|].
  destruct (String.eqb c "."); [apply IH, Hi|].
  destruct (String.eqb c "..").
  - destruct (i =? 0); [apply IH, Hi|].
    destruct (List.find _ _) as [e|] eqn:F; [|lia].
    apply IH, T. apply find_some in F as [F _].
    pose proof (readDirectoryEntries_live _ _ _ F). lia.
  - destruct (_ =? -1); [lia|]. apply IH.
    destruct (findDirectoryEntry_cases fs (to_uint i) c) as [->|(x & Hx & ->)]; [lia|].
    apply T. lia.
Qed.

Lemma walk_components_nonzero (fs : FileSystem) (l : list string) :
  forall i, i <> 0 -> walk_components fs i l <> 0.
Proof.
  induction l as [|c l IH]; intros i Hi; cbn [walk_components]; [exact Hi|].
  destruct (String.eqb c "."); [apply IH, Hi|].
  destruct (String.eqb c "..").
  - destruct (i =? 0) eqn:E; [apply Z.eqb_eq in E; contradiction|].
    destruct (List.find _ _) as [e|] eqn:F; [|lia].
    apply IH. apply find_some in F as [F _].
    pose proof (readDirectoryEntries_live _ _ _ F) as L. unfold to_int.
    destruct (2147483648 <=? inodeNumber e) eqn:C; [apply Z.leb_le in C|]; lia.
  - destruct (_ =? -1); [lia|]. apply IH, findDirectoryEntry_nonzero.
Qed.

(** X19. From a current directory other than the root, no relative path
    resolves to the root: [..] is looked up among the live entries, and an
    entry that points at inode 0 is not live.  Only an absolute path
    leads back to the root. *)
Theorem relative_path_never_reaches_root (fs : FileSystem) (p : string) :
  currentInodeNumber fs <> 0 ->
  is_absolute p = false ->
  getInodeFromPath fs p <> 0.
Proof.
  intros Hc Hp. unfold getInodeFromPath. destruct p as [|c s]; [exact Hc|].
  cbn [is_absolute] in Hp. rewrite Hp. apply walk_components_nonzero, Hc.
Qed.

(** X19 in the directory [/a] made on the fresh image, for the path [..]
    (which resolves to nothing). *)
Lemma relative_path_never_reaches_root_witness :
  let fs := fst (cmdCd (fst (cmdMkdir fresh "/a")) "/a") in
  currentInodeNumber fs <> 0
  /\ is_absolute ".." = false
  /\ getInodeFromPath fs ".." <> 0.
Proof.
  cbv zeta.
  assert (currentInodeNumber (fst (cmdCd (fst (cmdMkdir fresh "/a")) "/a")) <> 0) as H1
    by (vm_compute; discriminate).
  assert (is_absolute ".." = false) as H2 by reflexivity.
  split; [exact H1|]. split; [exact H2|].
  exact (relative_path_never_reaches_root _ ".." H1 H2).
Defined.

(** X21. Changing directory composes with resolution: after a successful
    [cd a], a relative path [b] resolves to what [a/b] resolved to before,
    and [cmdCat b] prints what [cmdCat a/b] printed. *)
Theorem cmdCd_then_resolve (fs fs' : FileSystem) (a b : string) :
  0 <= currentInodeNumber fs < 2147483648 ->
  a <> EmptyString ->
  cmdCd fs a = (fs', Ok_silent) ->
  is_absolute b = false ->
  getInodeFromPath fs' b = getInodeFromPath fs (a ++ "/" ++ b)
  /\ cmdCat fs' b = cmdCat fs (a ++ "/" ++ b).
Proof.
  intros Hcwd Ha Hcd Hb. destruct a as [|c s]; [contradiction|]. clear Ha.
  unfold cmdCd in Hcd.
  set (start := if Ascii.eqb c slash then 0 else currentInodeNumber fs).
  assert (getInodeFromPath fs (String c s) = walk_components fs start (parsePath (String c s)))
    as Ea by reflexivity.
  set (i := getInodeFromPath fs (String c s)) in *.
  destruct (i =? -1) eqn:E1; [discriminate|]. apply Z.eqb_neq in E1.
  destruct (type (readInode fs (to_uint i)) =? 1) eqn:E2; cbn [negb] in Hcd; [|discriminate].
  apply Z.eqb_eq, readInode_directory_range in E2. change MAX_INODES with 128 in E2.
  injection Hcd as <-.
  assert (-2147483648 <= i < 2147483648) as Hi.
  { rewrite Ea. apply walk_components_range. unfold start. destruct (Ascii.eqb c slash); lia. }
  assert (to_uint i = i) as Hu.
  { unfold to_uint, wrap32 in *. destruct (decide (0 <= i)) as [Hp|Hn].
    - apply Z.mod_small. lia.
    - exfalso. replace i with (i + 4294967296 + (-1) * 4294967296) in E2 by lia.
      rewrite Z.mod_add in E2 by lia. rewrite Z.mod_small in E2 by lia. lia. }
  rewrite Hu.
  set (fs' := mkFS (memory fs) i _ (clock fs)).
  assert (memory fs' = memory fs) as Hm by reflexivity.
  assert (getInodeFromPath fs (String c s ++ "/" ++ b)
          = walk_components fs i (parsePath b)) as Eab.
  { change ("/" ++ b)%string with (String slash b). rewrite append_cons.
    unfold getInodeFromPath. fold start. rewrite <- append_cons, parsePath_join.
    rewrite walk_components_app by (rewrite <- Ea; exact E1). rewrite <- Ea. reflexivity. }
  assert (getInodeFromPath fs' b = getInodeFromPath fs (String c s ++ "/" ++ b)) as Hr.
  { rewrite Eab. unfold getInodeFromPath. destruct b as [|c' s']; [reflexivity|].
    cbn [is_absolute] in Hb. rewrite Hb. cbn [currentInodeNumber fs'].
    apply walk_components_memory, Hm. }
  split; [exact Hr|].
  unfold cmdCat. rewrite Hr, (readInode_memory fs fs' _ Hm), Hm. reflexivity.
Qed.

(** X21 on the fresh image after [mkdir /d] and [touch /d/f 10], for
    [cd /d] and the path [f]. *)
Lemma cmdCd_then_resolve_witness :
  let fs := run fresh [Mkdir "/d"; Touch "/d/f" 10] in
  0 <= currentInodeNumber fs < 2147483648
  /\ "/d"%string <> EmptyString
  /\ snd (cmdCd fs "/d") = Ok_silent
  /\ is_absolute "f" = false
  /\ getInodeFromPath (fst (cmdCd fs "/d")) "f" = getInodeFromPath fs "/d/f".
Proof.
  cbv zeta.
  assert (0 <= currentInodeNumber (run fresh [Mkdir "/d"; Touch "/d/f" 10]) < 2147483648)
    as H1 by (vm_compute; split; [discriminate | reflexivity]).
  assert ("/d"%string <> EmptyString) as H2 by discriminate.
  assert (snd (cmdCd (run fresh [Mkdir "/d"; Touch "/d/f" 10]) "/d") = Ok_silent) as H3
    by (vm_compute; reflexivity).
  assert (is_absolute "f" = false) as H4 by reflexivity.
  split; [exact H1|]. split; [exact H2|]. split; [exact H3|]. split; [exact H4|].
  exact (proj1 (cmdCd_then_resolve _ _ "/d" "f" H1 H2 (pair_eta_snd _ _ H3) H4)).
Defined.

Lemma find_last_of_Some (s : string) :
  forall k, find_last_of s = Some k ->
    s = (substr_to k s ++ String slash (substr_from (S k) s))%string
    /\ find_last_of (substr_from (S k) s) = None.
Proof.
  induction s as [|c s IH]; intros k; cbn [find_last_of]; [discriminate|].
  destruct (find_last_of s) as [k'|] eqn:F.
  - intros [= <-]. destruct (IH k' eq_refl) as [E N].
    split; [|exact N].
    change (substr_to (S k') (String c s)) with (String c (substr_to k' s)).
    change (substr_from (S (S k')) (String c s)) with (substr_from (S k') s).
    rewrite append_cons. f_equal. exact E.
  - destruct (Ascii.eqb c slash) eqn:E; [|discriminate]. intros [= <-].
    apply Ascii.eqb_eq in E. subst c. cbn [substr_to substr_from].
    split; [reflexivity|]. destruct s; exact F.
Qed.

(** X22. [getParentInodeAndFilename] splits a path at its last slash: the
    basename never contains a slash, and the two parts joined by a slash
    give the path back (a path without a slash is its own basename in
    [.], and a path whose only slash is the first has [/] as parent). *)
Theorem split_path_rejoins (fs : FileSystem) (path : string) :
  let dirname := fst (split_path path) in
  let basename := snd (split_path path) in
  getParentInodeAndFilename fs path = (getInodeFromPath fs dirname, basename)
  /\ find_last_of basename = None
  /\ ((find_last_of path = None /\ dirname = "."%string /\ basename = path)
      \/ (find_last_of path = Some 0%nat /\ dirname = "/"%string
          /\ path = ("/" ++ basename)%string)
      \/ (dirname <> EmptyString /\ path = (dirname ++ "/" ++ basename)%string)).
Proof.
  cbv zeta. split.
  { unfold getParentInodeAndFilename. destruct (split_path path). reflexivity. }
  unfold split_path. destruct (find_last_of path) as [[|k]|] eqn:F; cbn [fst snd].
  - destruct (find_last_of_Some path 0%nat F) as [E N]. split; [exact N|].
    right. left. split; [reflexivity|]. split; [reflexivity|].
    cbn [substr_to] in E. exact E.
  - destruct (find_last_of_Some path (S k) F) as [E N]. split; [exact N|].
    right. right. split; [|exact E].
    destruct path as [|c s]; [discriminate|]. cbn [substr_to]. discriminate.
  - split; [exact F|]. left. auto.
Qed.

(** * The commands *)

Lemma cmdTouch_rejection (fs : FileSystem) (filename : string) (size : Z) :
  is_rejection (snd (cmdTouch fs filename size)) = true -> fst (cmdTouch fs filename size) = fs.
Proof.
  unfold cmdTouch. cbv zeta. split_branches; intros H; try reflexivity; discriminate H.
Qed.

Lemma cmdMkdir_rejection (fs : FileSystem) (dirname : string) :
  rejected (Mkdir dirname) (snd (cmdMkdir fs dirname)) = true -> fst (cmdMkdir fs dirname) = fs.
Proof.
  unfold cmdMkdir. cbv zeta. split_branches; cbn [rejected is_rejection]; intros H;
    try reflexivity; discriminate H.
Qed.

Lemma cmdCopyFile_rejection (fs : FileSystem) (src dest : string) :
  is_rejection (snd (cmdCopyFile fs src dest)) = true -> fst (cmdCopyFile fs src dest) = fs.
Proof.
  unfold cmdCopyFile. cbv zeta. split_branches; intros H; try reflexivity; discriminate H.
Qed.

Lemma cmdCd_rejection (fs : FileSystem) (path : string) :
  is_rejection (snd (cmdCd fs path)) = true -> fst (cmdCd fs path) = fs.
Proof.
  unfold cmdCd. destruct path as [|c s]; [reflexivity|]. cbv zeta.
  split_branches; intros H; try reflexivity; discriminate H.
Qed.

(** Whatever remove-file reports other than success, the state is the one
    it was given. *)
Lemma cmdRm_error_unchanged (fs : FileSystem) (filename : string) :
  snd (cmdRm fs filename) <> Ok_removed -> fst (cmdRm fs filename) = fs.
Proof.
  unfold cmdRm. destruct (getParentInodeAndFilename fs filename) as [parent nm].
  destruct (parent =? -1); [reflexivity|].
  destruct (_ =? -1); [reflexivity|].
  destruct (negb _); [reflexivity|].
  destruct (removeDirectoryEntry fs (to_uint parent) nm) as [fs1 [|]] eqn:R; cbn [negb fst snd].
  - congruence.
  - intros _. apply removeDirectoryEntry_failure in R. exact R.
Qed.

(** X23. A command that reports a rejection has not touched the state:
    for each of the six namespace commands, when the message is one of the
    errors raised before anything is allocated (or the failure to remove
    an entry), the state returned is the state given.  The out-of-blocks
    message of [cmdMkdir] is left out: it is also printed after an inode
    was allocated and released. *)
Theorem rejected_command_leaves_state (fs : FileSystem) (c : command) :
  rejected c (snd (exec fs c)) = true -> fst (exec fs c) = fs.
Proof.
  destruct c as [f sz|f|d|d|s d|p]; cbn [exec rejected].
  - apply cmdTouch_rejection.
  - intros H. apply cmdRm_error_unchanged. intros E. rewrite E in H. discriminate H.
  - apply cmdMkdir_rejection.
  - intros H. apply cmdRmdir_error_unchanged. intros E. rewrite E in H. discriminate H.
  - apply cmdCopyFile_rejection.
  - apply cmdCd_rejection.
Qed.

(** X23 for [rm /nope] on the fresh image. *)
Lemma rejected_command_leaves_state_witness :
  rejected (Rm "/nope") (snd (exec fresh (Rm "/nope"))) = true
  /\ fst (exec fresh (Rm "/nope")) = fresh.
Proof.
  assert (rejected (Rm "/nope") (snd (exec fresh (Rm "/nope"))) = true) as H
    by (vm_compute; reflexivity).
  split; [exact H|]. exact (rejected_command_leaves_state fresh (Rm "/nope") H).
Defined.

(** X24. remove-file never frees inode 0.  When it reports success, the
    inode [d] it found for the basename among the live entries of the
    parent is not 0 and reads as a regular file; the blocks and the inode
    released are those of [d], and [d] is the new head of the free-inode
    list unless it is out of range (then no inode is freed).  In every
    other case the state is the one given. *)
Theorem rm_never_frees_root (fs : FileSystem) (filename : string) :
  match cmdRm fs filename with
  | (fs', Ok_removed) =>
    exists parent nm d,
      getParentInodeAndFilename fs filename = (parent, nm)
      /\ d = to_uint (findDirectoryEntry fs (to_uint parent) nm)
      /\ 0 < d < 4294967296
      /\ type (readInode fs d) = 0
      /\ fs' = release_inode (fst (removeDirectoryEntry fs (to_uint parent) nm))
                             (readInode fs d) (findDirectoryEntry fs (to_uint parent) nm)
      /\ (firstFreeInode fs' = d \/ MAX_INODES <= d)
  | (fs', _) => fs' = fs
  end.
Proof.
  pose proof (cmdRm_error_unchanged fs filename) as U.
  unfold cmdRm in *.
  destruct (getParentInodeAndFilename fs filename) as [parent nm].
  destruct (parent =? -1); [reflexivity|].
  pose proof (findDirectoryEntry_cases fs (to_uint parent) nm) as C.
  destruct (findDirectoryEntry fs (to_uint parent) nm =? -1) eqn:E1; [reflexivity|].
  apply Z.eqb_neq in E1.
  destruct (type (readInode fs (to_uint _)) =? 0) eqn:E2; cbn [negb] in *; [|reflexivity].
  apply Z.eqb_eq in E2.
  destruct (removeDirectoryEntry fs (to_uint parent) nm) as [fs1 [|]] eqn:R;
    cbn [negb fst snd] in *; [|apply U; discriminate].
  set (r := findDirectoryEntry fs (to_uint parent) nm) in *.
  assert (0 < to_uint r < 4294967296) as Hd.
  { destruct C as [C|(x & Hx & C)]; [congruence|]. rewrite C.
    unfold to_uint, to_int, wrap32. destruct (2147483648 <=? x) eqn:E3.
    - replace (x - 4294967296) with (x + (-1) * 4294967296) by lia.
      rewrite Z.mod_add by lia. rewrite Z.mod_small by lia. lia.
    - rewrite Z.mod_small by lia. lia. }
  exists parent, nm, (to_uint r).
  split; [reflexivity|]. split; [reflexivity|]. split; [exact Hd|]. split; [exact E2|].
  rewrite R. cbn [fst]. split; [reflexivity|].
  destruct (decide (to_uint r < MAX_INODES)) as [Hlt|Hge]; [left|right; lia].
  unfold release_inode. apply firstFreeInode_deallocateInode. lia.
Qed.



(** ** The path kept by change-dir *)

Lemma append_assoc (a b c : string) : ((a ++ b) ++ c)%string = (a ++ (b ++ c))%string.
Proof. induction a as [|x a IH]; [reflexivity|]. rewrite !append_cons, IH. reflexivity. Qed.

Lemma length_append (a b : string) :
  String.length (a ++ b) = (String.length a + String.length b)%nat.
Proof. induction a as [|x a IH]; [reflexivity|]. rewrite append_cons. cbn [String.length]. lia. Qed.

Lemma last_char_app_slash (a : string) : last_char (a ++ "/") = Some slash.
Proof.
  induction a as [|x a IH]; [reflexivity|]. rewrite append_cons.
  change (last_char (String x (a ++ "/")))
    with (match (a ++ "/")%string with EmptyString => Some x | _ => last_char (a ++ "/") end).
  destruct (a ++ "/")%string eqn:E; [|exact IH].
  apply (f_equal String.length) in E. rewrite length_append in E. cbn in E. lia.
Qed.

Lemma strip_trailing_slash_app (a : string) :
  strip_trailing_slash (a ++ "/") = if str_empty a then "/"%string else a.
Proof.
  unfold strip_trailing_slash, str_length. rewrite last_char_app_slash, Ascii.eqb_refl.
  rewrite length_append. cbn [String.length]. destruct a as [|x a]; [reflexivity|].
  replace (1 <? Z.of_nat (String.length (String x a) + 1)) with true
    by (symmetry; apply Z.ltb_lt; cbn [String.length]; lia).
  cbn [andb str_empty]. replace (Nat.pred (String.length (String x a) + 1))
    with (String.length (String x a)) by lia.
  apply substr_to_app.
Qed.

Lemma parsePath_component (c : string) : component_ok c -> parsePath c = [c].
Proof.
  intros [Hne Hs]. rewrite parsePath_split, (split_slash_plain c Hs EmptyString).
  rewrite append_nil_l. destruct c; [contradiction|reflexivity].
Qed.

Lemma fold_join (l : list string) :
  forall a, Forall component_ok l ->
    fold_left (fun acc component =>
                 if str_empty component then acc else (acc ++ (component ++ "/"))%string)
              l (a ++ "/")%string
    = (fold_left (fun acc component => (acc ++ String slash component)%string) l a ++ "/")%string.
Proof.
  induction l as [|c l IH]; intros a H; [reflexivity|].
  apply Forall_cons in H as [[Hne _] H]. cbn [fold_left].
  destruct c as [|x c]; [contradiction|]. cbn [str_empty].
  rewrite <- (IH (a ++ String slash (String x c))%string H). f_equal.
  rewrite !append_assoc. reflexivity.
Qed.

Lemma parsePath_fold_join (l : list string) :
  forall a, Forall component_ok l ->
    parsePath (fold_left (fun acc component => (acc ++ String slash component)%string) l a)
    = parsePath a ++ l.
Proof.
  induction l as [|c l IH]; intros a H; cbn [fold_left]; [rewrite app_nil_r; reflexivity|].
  apply Forall_cons in H as [Hc H]. rewrite (IH _ H), parsePath_join, (parsePath_component c Hc).
  rewrite <- app_assoc. reflexivity.
Qed.

Lemma is_absolute_fold_join (l : list string) :
  forall a, is_absolute a = true ->
    is_absolute (fold_left (fun acc component => (acc ++ String slash component)%string) l a)
    = true.
Proof.
  induction l as [|c l IH]; intros a H; cbn [fold_left]; [exact H|].
  apply IH. destruct a as [|x a]; [discriminate|]. exact H.
Qed.

Lemma In_removelast {A : Type} (l : list A) (x : A) : In x (removelast l) -> In x l.
Proof.
  induction l as [|y l IH]; [intros []|]. cbn [removelast].
  destruct l as [|z l]; [intros []|]. intros [->|H]; [left; reflexivity|right; apply IH, H].
Qed.

Lemma normalize_components_ok (comps : list string) :
  forall acc, Forall component_ok comps -> Forall component_ok acc ->
    Forall component_ok (normalize_components comps acc).
Proof.
  induction comps as [|c comps IH]; intros acc Hc Ha; cbn [normalize_components]; [exact Ha|].
  apply Forall_cons in Hc as [Hc Hcs].
  destruct (String.eqb c "."); [apply IH; assumption|].
  destruct (String.eqb c "..").
  - apply IH; [exact Hcs|]. apply Forall_forall. intros x Hx.
    rewrite Forall_forall in Ha. apply Ha. apply list_elem_of_In.
    apply In_removelast, list_elem_of_In, Hx.
  - apply IH; [exact Hcs|]. apply Forall_app. split; [exact Ha|]. constructor; [exact Hc|constructor].
Qed.

(** The string change-dir keeps for a list of normalised components
    parses back to that list and begins with a slash. *)
Lemma stored_path (l : list string) :
  Forall component_ok l ->
  let p := strip_trailing_slash
             (fold_left (fun acc component =>
                           if str_empty component then acc
                           else (acc ++ (component ++ "/"))%string) l "/"%string) in
  parsePath p = l /\ is_absolute p = true.
Proof.
  intros H. cbv zeta.
  pose proof (fold_join l EmptyString H) as F. rewrite append_nil_l in F.
  rewrite F, strip_trailing_slash_app. clear F.
  destruct l as [|c l]; [split; reflexivity|].
  cbn [fold_left]. rewrite append_nil_l.
  destruct (str_empty _) eqn:E.
  - exfalso. destruct (fold_left _ l _) eqn:F; [|discriminate].
    pose proof (is_absolute_fold_join l (String slash c) eq_refl) as A.
    rewrite F in A. discriminate.
  - split; [|apply is_absolute_fold_join; reflexivity].
    apply Forall_cons in H as [Hc H]. rewrite (parsePath_fold_join l _ H).
    change (String slash c) with (EmptyString ++ String slash c)%string.
    rewrite parsePath_join, (parsePath_component c Hc). reflexivity.
Qed.

(** X26. A successful change-dir leaves the image alone and makes the
    directory the path resolves to the current one: its inode is in range
    and of type directory.  The path it keeps begins with a slash and,
    parsed again, is the components of the old path (none for an absolute
    argument) followed by those of the argument, with every [.] dropped
    and every [..] cancelling the component before it. *)
Theorem cmdCd_success (fs fs' : FileSystem) (path : string) :
  path <> EmptyString ->
  cmdCd fs path = (fs', Ok_silent) ->
  memory fs' = memory fs
  /\ currentInodeNumber fs' = to_uint (getInodeFromPath fs path)
  /\ currentInodeNumber fs' < MAX_INODES
  /\ type (readInode fs' (currentInodeNumber fs')) = 1
  /\ is_absolute (currentPath fs') = true
  /\ parsePath (currentPath fs')
     = normalize_components
         ((if is_absolute path then [] else parsePath (currentPath fs)) ++ parsePath path) [].
Proof.
  intros Hne Hcd. destruct path as [|c s]; [contradiction|]. clear Hne.
  unfold cmdCd in Hcd.
  destruct (getInodeFromPath fs (String c s) =? -1); [discriminate|].
  destruct (type (readInode fs (to_uint _)) =? 1) eqn:Ht; cbn [negb] in Hcd; [|discriminate].
  apply Z.eqb_eq in Ht. injection Hcd as <-.
  cbn [memory currentInodeNumber currentPath is_absolute].
  split; [reflexivity|]. split; [reflexivity|].
  split; [apply (readInode_directory_range fs), Ht|]. split; [exact Ht|].
  match goal with
  | |- is_absolute (strip_trailing_slash (fold_left _ (normalize_components (parsePath ?p) []) _)) = _ /\ _ =>
    set (full := p)
  end.
  assert (parsePath full
          = (if Ascii.eqb c slash then [] else parsePath (currentPath fs))
            ++ parsePath (String c s)) as Hfull.
  { unfold full. destruct (Ascii.eqb c slash); [reflexivity|].
    destruct (String.eqb (currentPath fs) "/") eqn:E.
    - apply String.eqb_eq in E. rewrite E.
      exact (parsePath_join EmptyString (String c s)).
    - change ("/" ++ String c s)%string with (String slash (String c s)).
      apply parsePath_join. }
  rewrite <- Hfull.
  assert (Forall component_ok (normalize_components (parsePath full) [])) as Hok.
  { apply normalize_components_ok; [|constructor].
    apply parsePath_components. }
  destruct (stored_path _ Hok) as [Hp Ha]. split; [exact Ha|exact Hp].
Qed.

(** X26 for [cd /a/./b/..] on the fresh image after [mkdir /a] and
    [mkdir /a/b]. *)
Lemma cmdCd_success_witness :
  let fs := run fresh [Mkdir "/a"; Mkdir "/a/b"] in
  "/a/./b/.."%string <> EmptyString
  /\ snd (cmdCd fs "/a/./b/..") = Ok_silent
  /\ is_absolute (currentPath (fst (cmdCd fs "/a/./b/.."))) = true.
Proof.
  cbv zeta.
  assert ("/a/./b/.."%string <> EmptyString) as H1 by discriminate.
  assert (snd (cmdCd (run fresh [Mkdir "/a"; Mkdir "/a/b"]) "/a/./b/..") = Ok_silent) as H2
    by (vm_compute; reflexivity).
  split; [exact H1|]. split; [exact H2|].
  exact (proj1 (proj2 (proj2 (proj2 (proj2
           (cmdCd_success _ _ "/a/./b/.." H1 (pair_eta_snd _ _ H2))))))).
Defined.

(** * The initial image, the image file and the listing *)


(** ** The image file *)

Lemma load_foldl_store (g : Z -> Z) (l : list Z) :
  forall (m : mem) (a : Z),
    load (foldl (fun acc w => store acc w (g w)) m l) a
    = if decide (a ∈ l) then wrap32 (g a) else load m a.
Proof.
  induction l as [|x l IH]; intros m a; cbn [foldl].
  - destruct (decide (a ∈ [])) as [H|H]; [inversion H | reflexivity].
  - rewrite IH. destruct (decide (a ∈ l)) as [Hl|Hl].
    + rewrite decide_True by (right; exact Hl). reflexivity.
    + destruct (decide (x = a)) as [->|Hx].
      * rewrite decide_True by left. apply load_store_eq.
      * rewrite decide_False by (intros H; apply elem_of_cons in H as [H|H]; congruence).
        apply load_store_ne, Hx.
Qed.

(** What a word of the buffer holds after the file was read: the file's
    word when the file holds all of it, the buffer's own when the file
    holds none of it. *)
Lemma load_read_file (m : mem) (f : image_file) (a : Z) :
  let n := Z.min (Z.max 0 (file_bytes f)) MEMORY_SIZE in
  (0 <= a -> WORD_SIZE * a + WORD_SIZE <= n -> load (read_file m f) a = load (file_words f) a)
  /\ (a < 0 \/ n <= WORD_SIZE * a -> load (read_file m f) a = load m a).
Proof.
  cbv zeta. unfold read_file.
  set (n := Z.min (Z.max 0 (file_bytes f)) MEMORY_SIZE).
  assert (0 <= n) as Hn by (unfold n, MEMORY_SIZE; lia).
  change WORD_SIZE with 4 in *.
  assert (n = 4 * (n / 4) + n mod 4) as D by (apply Z.div_mod; discriminate).
  assert (0 <= n mod 4 < 4) as B by (apply Z.mod_pos_bound; reflexivity).
  assert (forall b, load (foldl (fun acc w => store acc w (load (file_words f) w)) m
                              (seqZ 0 (n / 4))) b
                    = if decide (0 <= b < n / 4) then load (file_words f) b else load m b) as F.
  { intros b. rewrite load_foldl_store, wrap32_load.
    destruct (decide (b ∈ seqZ 0 (n / 4))) as [H|H]; rewrite elem_of_seqZ in H.
    - rewrite decide_True by lia. reflexivity.
    - rewrite decide_False by lia. reflexivity. }
  split.
  - intros Ha Hle. assert (a < n / 4) as Hq by lia.
    destruct (n mod 4 =? 0).
    + rewrite F, decide_True by lia. reflexivity.
    + rewrite load_store_ne by lia. rewrite F, decide_True by lia. reflexivity.
  - intros Hout. assert (~ 0 <= a < n / 4) as Hq by lia.
    destruct (n mod 4 =? 0) eqn:E.
    + rewrite F, decide_False by exact Hq. reflexivity.
    + apply Z.eqb_neq in E. rewrite load_store_ne by lia.
      rewrite F, decide_False by exact Hq. reflexivity.
Qed.

(** The word the file ends in: the bytes the file holds of it come from
    the file, the others stay. *)
Lemma load_read_file_partial (m : mem) (f : image_file) (a : Z) :
  let n := Z.min (Z.max 0 (file_bytes f)) MEMORY_SIZE in
  let p := 2 ^ (8 * (n - WORD_SIZE * a)) in
  WORD_SIZE * a < n < WORD_SIZE * a + WORD_SIZE ->
  load (read_file m f) a = load (file_words f) a mod p + load m a / p * p.
Proof.
  cbv zeta. unfold read_file.
  set (n := Z.min (Z.max 0 (file_bytes f)) MEMORY_SIZE).
  clearbody n. intros H. change WORD_SIZE with 4 in *.
  assert (n = 4 * (n / 4) + n mod 4) as D by (apply Z.div_mod; discriminate).
  assert (0 <= n mod 4 < 4) as B by (apply Z.mod_pos_bound; reflexivity).
  assert (n / 4 = a) as Hq by lia. assert (n - 4 * a = n mod 4) as Hr by lia.
  assert (n mod 4 <> 0) as Hnz by lia.
  rewrite Hr, Hq. clear D Hq Hr.
  destruct (n mod 4 =? 0) eqn:E; [apply Z.eqb_eq in E; contradiction|].
  rewrite load_store_eq. apply wrap32_small.
  pose proof (load_range m a) as R1.
  set (x := load (file_words f) a). set (y := load m a) in *. clearbody x y.
  assert (forall c d, 0 < c -> c * d = 4294967296 ->
                      0 <= x mod c + y / c * c < 4294967296) as P.
  { intros c d Hc Hcd.
    pose proof (Z.mod_pos_bound x c Hc) as Bx.
    pose proof (Z.mul_div_le y c Hc) as By.
    assert (y / c < d) as Bd by (apply Z.div_lt_upper_bound; lia).
    assert (0 <= y / c) as B0 by (apply Z.div_pos; lia).
    nia. }
  assert (n mod 4 = 1 \/ n mod 4 = 2 \/ n mod 4 = 3) as [E1|[E1|E1]] by lia;
    rewrite E1.
  - apply (P 256 16777216); reflexivity.
  - apply (P 65536 65536); reflexivity.
  - apply (P 16777216 256); reflexivity.
Qed.

(** X20. The image file.  When [filesystem.dat] can be opened for writing,
    [saveFileSystem] leaves a file of [MEMORY_SIZE] bytes, and the file
    system constructed again over it ([initializeFileSystem], then
    [loadFileSystem]) holds in every word of the buffer what the buffer
    held when it was saved, with the root as current directory and [/] as
    current path; when the file cannot be opened it is left as it was.
    Constructed with no file, the file system is the initial image.
    Constructed over any file [f], it has the root as current directory;
    a word the file holds in full is the file's, a word beyond the end of
    the file is the initial image's, the word the file ends in has its
    low-order bytes from the file and the others from the initial image;
    and on a file of [MEMORY_SIZE] bytes or more every word of the buffer
    is as [loadFileSystem] on the file's words gives it. *)
Theorem restart_restores_buffer (fs : FileSystem) (now : Z) (old : option image_file)
    (f : image_file) (w : Z) :
  0 <= w < MEMORY_WORDS ->
  let fs' := newFileSystem now (saveFileSystem fs true old) in
  let init := initializeFileSystem now in
  let over := newFileSystem now (Some f) in
  let n := Z.min (Z.max 0 (file_bytes f)) MEMORY_SIZE in
  let p := 2 ^ (8 * (n - WORD_SIZE * w)) in
  load (memory fs') w = load (memory fs) w
  /\ currentInodeNumber fs' = 0 /\ currentPath fs' = "/"%string
  /\ saveFileSystem fs false old = old
  /\ newFileSystem now None = init
  /\ currentInodeNumber over = 0 /\ currentPath over = "/"%string
  /\ (WORD_SIZE * w + WORD_SIZE <= n -> load (memory over) w = load (file_words f) w)
  /\ (n <= WORD_SIZE * w -> load (memory over) w = load (memory init) w)
  /\ (WORD_SIZE * w < n < WORD_SIZE * w + WORD_SIZE ->
      load (memory over) w = load (file_words f) w mod p + load (memory init) w / p * p)
  /\ (MEMORY_SIZE <= file_bytes f ->
      load (memory over) w = load (memory (loadFileSystem init (Some (file_words f)))) w).
Proof.
  intros Hw. cbv zeta.
  unfold newFileSystem, saveFileSystem, loadFileSystem_from, loadFileSystem.
  cbn [memory currentInodeNumber currentPath].
  change MEMORY_WORDS with 262144 in Hw.
  pose proof (load_read_file (memory (initializeFileSystem now)) f w) as [F1 F2].
  cbv zeta in F1, F2.
  split.
  { pose proof (load_read_file (memory (initializeFileSystem now))
                               (mkFile MEMORY_SIZE (memory fs)) w) as [G _].
    cbv zeta in G. cbn [file_bytes file_words] in G. apply G; [lia|].
    change WORD_SIZE with 4. change MEMORY_SIZE with 1048576. lia. }
  repeat (split; [reflexivity|]).
  split; [intros H; apply F1; [lia | exact H]|].
  split; [intros H; apply F2; right; exact H|].
  split; [apply load_read_file_partial|].
  intros H. apply F1; [lia|].
  change WORD_SIZE with 4. change MEMORY_SIZE with 1048576 in *. lia.
Qed.

(** X20 at the fresh image after [touch /f 10], saved over no earlier
    file, for a file [f] of 8 bytes and word 2, the count of blocks in
    the superblock. *)
Lemma restart_restores_buffer_witness :
  let fs := fst (cmdTouch fresh "/f" 10) in
  0 <= 2 < MEMORY_WORDS
  /\ load (memory (newFileSystem 0 (saveFileSystem fs true None))) 2 = load (memory fs) 2.
Proof.
  cbv zeta. assert (0 <= 2 < MEMORY_WORDS) as H by (change MEMORY_WORDS with 262144; lia).
  split; [exact H|].
  exact (proj1 (restart_restores_buffer (fst (cmdTouch fresh "/f" 10)) 0 None
                  (mkFile 8 (memory fresh)) 2 H)).
Defined.

(** ** The listing *)

Lemma strcmp_lt_asym (a : list Z) :
  forall b, strcmp_lt a b = true -> strcmp_lt b a = false.
Proof.
  induction a as [|x a IH]; intros [|y b]; cbn [strcmp_lt]; try reflexivity; try discriminate.
  destruct (x <? y) eqn:E1; destruct (y <? x) eqn:E2; try reflexivity; try discriminate.
  - apply Z.ltb_lt in E1. apply Z.ltb_lt in E2. lia.
  - apply IH.
Qed.

Lemma name_le_total (e1 e2 : DirectoryEntry) : name_le e1 e2 \/ name_le e2 e1.
Proof.
  unfold name_le. destruct (strcmp_lt (cstr (name e2)) (cstr (name e1))) eqn:E.
  - right. apply strcmp_lt_asym, E.
  - left. reflexivity.
Qed.

(** X28. [cmdLs] either reports an error and lists nothing, or lists a
    directory in range: the rows are the live entries of that directory,
    each exactly once (so never an entry naming inode 0), every row
    carrying the type, size and time read from the entry's inode, and no
    row has a name that [strcmp] puts before the name of an earlier
    row. *)
Theorem cmdLs_listing (fs : FileSystem) (path : string) :
  match cmdLs fs path with
  | (Ok_silent, header, rows) =>
    exists d,
      d = to_uint (if str_empty path then currentInodeNumber fs else getInodeFromPath fs path)
      /\ d < MAX_INODES /\ type (readInode fs d) = 1
      /\ header = (if str_empty path then currentPath fs else path)
      /\ Permutation rows (map (ls_entry_row fs) (readDirectoryEntries fs d))
      /\ Sorted.Sorted (fun r1 r2 => strcmp_lt (row_name r2) (row_name r1) = false) rows
  | (_, _, rows) => rows = []
  end.
Proof.
  unfold cmdLs.
  set (i := if str_empty path then currentInodeNumber fs else getInodeFromPath fs path).
  destruct (i =? -1); [reflexivity|].
  destruct (type (readInode fs (to_uint i)) =? 1) eqn:Ht; cbn [negb]; [|reflexivity].
  apply Z.eqb_eq in Ht. exists (to_uint i).
  split; [reflexivity|]. split; [apply (readInode_directory_range fs), Ht|].
  split; [exact Ht|]. split; [reflexivity|]. split.
  - apply Permutation_map, sorting.merge_sort_Permutation.
  - assert (Sorted.Sorted name_le
              (sorting.merge_sort name_le (readDirectoryEntries fs (to_uint i)))) as S.
    { apply sorting.Sorted_merge_sort. intros x y. apply name_le_total. }
    induction S as [|e l S IH Hd]; cbn [map]; constructor; [exact IH|].
    destruct Hd as [|e' l' Hle]; cbn [map]; constructor. exact Hle.
Qed.

(** * create-file then remove-file *)

(** The free list is read from the superblock and the data area only. *)
Lemma free_list_frame (fs fs' : FileSystem) :
  free_list_ok fs = true ->
  (forall a, a = SB.freeBlocks \/ a = SB.firstFreeBlock \/ 2304 <= a ->
     load (memory fs') a = load (memory fs) a) ->
  free_list fs' = free_list fs /\ free_list_ok fs' = true.
Proof.
  intros H F. apply free_list_ok_iff in H as (l & W & Ha & Hl).
  assert (walk_free (memory fs') (Z.to_nat TOTAL_BLOCKS) (firstFreeBlock fs') = Some l) as W'.
  { unfold firstFreeBlock. rewrite F by auto. fold (firstFreeBlock fs).
    apply (walk_free_frame (memory fs)); [exact W|].
    intros x Hx. specialize (Ha x Hx). apply F. right. right.
    rewrite block_word_small by lia. lia. }
  split.
  - unfold free_list. rewrite W, W'. reflexivity.
  - apply free_list_ok_iff. exists l. split; [exact W'|]. split; [exact Ha|].
    unfold freeBlocks. rewrite F by auto. exact Hl.
Qed.

Lemma on_free_list_iff (fs : FileSystem) (l : list Z) (x : Z) :
  free_list fs = Some l -> (on_free_list fs x = true <-> x ∈ l).
Proof.
  intros H. unfold on_free_list. rewrite H. rewrite existsb_exists. split.
  - intros (y & Hy & E). apply Z.eqb_eq in E. subst y. apply list_elem_of_In, Hy.
  - intros Hx. exists x. split; [apply list_elem_of_In, Hx | apply Z.eqb_refl].
Qed.

(** One successful allocation from a well-formed list. *)
Lemma allocateBlock_step (fs fs' : FileSystem) (b : Z) :
  free_list_ok fs = true -> allocateBlock fs = (fs', b) -> b <> 0 ->
  exists l, free_list fs = Some (b :: l) /\ free_list fs' = Some l
            /\ 9 <= b < 1024 /\ free_list_ok fs' = true
            /\ freeBlocks fs' = freeBlocks fs - 1.
Proof.
  intros H E Hb.
  pose proof (fun a => load_allocateBlock fs fs' b a E Hb) as L.
  destruct (allocateBlock_inv _ _ _ E Hb) as (Hhead & _ & _ & _).
  apply free_list_ok_iff in H as (l & W & Ha & Hl).
  pose proof (walk_free_NoDup _ _ _ _ W) as Hn.
  rewrite <- Hhead in W.
  destruct (walk_free_inv _ _ _ _ W) as [[? _]|(_ & f0 & l' & Ef & -> & W')]; [lia|].
  apply NoDup_cons in Hn as [Hnot Hn].
  assert (9 <= b < 1024) as Hr by (apply Ha; left).
  assert (block_word b = 256 * b) as Hw by (apply block_word_small; lia).
  assert (freeBlocks fs' = freeBlocks fs - 1) as Hc.
  { unfold freeBlocks at 1. rewrite L, Hw. change BLOCK_WORDS with 256.
    unfold SB.freeBlocks. destruct (decide _); [lia|].
    destruct (decide (3 = 3)); [reflexivity|lia]. }
  assert (walk_free (memory fs') (Z.to_nat TOTAL_BLOCKS) (firstFreeBlock fs') = Some l') as W2.
  { unfold firstFreeBlock. rewrite L, Hw. change BLOCK_WORDS with 256.
    unfold SB.firstFreeBlock, SB.freeBlocks.
    destruct (decide _); [lia|]. destruct (decide (6 = 3)); [lia|].
    destruct (decide (6 = 6)); [|lia].
    apply (walk_free_mono _ f0); [|lia].
    apply (walk_free_frame (memory fs)); [rewrite <- Hw; exact W'|].
    intros x Hx. assert (9 <= x < 1024) as Hx9 by (apply Ha; right; exact Hx).
    assert (x <> b) as Hxb by (intros ->; exact (Hnot Hx)).
    rewrite L, Hw. rewrite !block_word_small by lia. change BLOCK_WORDS with 256.
    unfold SB.firstFreeBlock, SB.freeBlocks.
    repeat (destruct (decide _); try lia); reflexivity. }
  exists l'. split; [unfold free_list; rewrite <- Hhead; exact W|].
  split; [exact W2|]. split; [exact Hr|]. split; [|exact Hc].
  apply free_list_ok_iff. exists l'. split; [exact W2|]. split.
  - intros x Hx. apply Ha. right. exact Hx.
  - rewrite Hc. cbn [length] in Hl. lia.
Qed.

Lemma addr_set_addr (ino : Inode) (i k v : Z) :
  0 <= i -> 0 <= k -> (Z.to_nat i < length (blockAddresses ino))%nat ->
  addr (set_addr ino i v) k = if decide (k = i) then v else addr ino k.
Proof.
  intros Hi Hk Hlen. unfold addr, set_addr. cbn [blockAddresses].
  destruct (decide (k = i)) as [->|Hne].
  - rewrite list_lookup_insert_eq by exact Hlen. reflexivity.
  - rewrite list_lookup_insert_ne by lia. reflexivity.
Qed.

(** The direct-block loop of create-file on a well-formed list, when it
    does not fail. *)
Lemma alloc_direct_steps (idx : list Z) :
  forall (fs : FileSystem) (ino : Inode) (fs' : FileSystem) (ino' : Inode),
    free_list_ok fs = true ->
    alloc_direct fs ino idx = (fs', ino', false) ->
    (forall k, k ∈ idx -> 0 <= k < 10) ->
    length (blockAddresses ino) = 10%nat ->
    free_list_ok fs' = true
    /\ freeBlocks fs' = freeBlocks fs - Z.of_nat (length idx)
    /\ (forall a, a <> SB.freeBlocks -> a <> SB.firstFreeBlock ->
          (forall x, on_free_list fs x = true -> ~ (256 * x <= a < 256 * x + 256)) ->
          load (memory fs') a = load (memory fs) a)
    /\ (forall x, on_free_list fs' x = true -> on_free_list fs x = true)
    /\ clock fs' = clock fs
    /\ (type ino' = type ino /\ size ino' = size ino
        /\ creationTime ino' = creationTime ino
        /\ modificationTime ino' = modificationTime ino
        /\ indirectBlock ino' = indirectBlock ino)
    /\ length (blockAddresses ino') = 10%nat
    /\ (forall k, k ∈ idx -> 9 <= addr ino' k < 1024)
    /\ (forall k, 0 <= k -> k ∉ idx -> addr ino' k = addr ino k).
Proof.
  induction idx as [|i idx IH]; intros fs ino fs' ino' Hok E Hidx Hlen.
  - cbn [alloc_direct] in E. injection E as <- <-.
    split; [exact Hok|]. split; [cbn [length]; lia|]. split; [reflexivity|].
    split; [auto|]. split; [reflexivity|]. split; [auto|].
    split; [exact Hlen|]. split; [|reflexivity].
    intros k Hk. apply elem_of_nil in Hk. contradiction.
  - cbn [alloc_direct] in E.
    destruct (allocateBlock fs) as [fs1 nb] eqn:A.
    destruct (nb =? 0) eqn:Enb; [discriminate|]. apply Z.eqb_neq in Enb.
    destruct (allocateBlock_step fs fs1 nb Hok A Enb) as (l & Fl & Fl1 & Hr & Hok1 & Hc1).
    pose proof (fun a => load_allocateBlock fs fs1 nb a A Enb) as L.
    assert (0 <= i < 10) as Hi by (apply Hidx; left).
    assert (length (blockAddresses (set_addr ino i nb)) = 10%nat) as Hlen1
      by (cbn [set_addr blockAddresses]; rewrite length_insert; exact Hlen).
    destruct (IH fs1 (set_addr ino i nb) fs' ino' Hok1 E
                 ltac:(intros k Hk; apply Hidx; right; exact Hk) Hlen1)
      as (R1 & R2 & R3 & R4 & R5 & R6 & R9 & R10 & R11).
    assert (forall x, on_free_list fs1 x = true -> on_free_list fs x = true) as Hsub.
    { intros x Hx. apply (on_free_list_iff fs1 l x Fl1) in Hx.
      apply (on_free_list_iff fs (nb :: l) x Fl). right. exact Hx. }
    assert (clock fs1 = clock fs) as Hclock.
    { destruct (allocateBlock_inv _ _ _ A Enb) as (_ & _ & _ & ->). reflexivity. }
    split; [exact R1|]. split; [rewrite R2, Hc1; cbn [length]; lia|]. split.
    { intros a H3 H6 Ha. rewrite R3; [|exact H3|exact H6|].
      - rewrite L. rewrite block_word_small by lia. change BLOCK_WORDS with 256.
        assert (on_free_list fs nb = true) as Hnb
          by (apply (on_free_list_iff fs (nb :: l) nb Fl); left).
        specialize (Ha nb Hnb).
        destruct (decide _); [lia|]. destruct (decide _); [contradiction|].
        destruct (decide _); [contradiction|]. reflexivity.
      - intros x Hx. apply Ha, Hsub, Hx. }
    split; [intros x Hx; apply Hsub, R4, Hx|].
    split; [congruence|]. split; [exact R6|].
    split; [exact R9|]. split.
    + intros k Hk. destruct (decide (k ∈ idx)) as [Hin|Hout]; [apply R10, Hin|].
      apply elem_of_cons in Hk as [->|Hk]; [|contradiction].
      rewrite R11 by (lia || exact Hout).
      rewrite addr_set_addr by (rewrite ?Hlen; lia).
      destruct (decide (i = i)); [exact Hr|contradiction].
    + intros k Hk Hout. apply not_elem_of_cons in Hout as [Hne Hout].
      rewrite R11 by assumption.
      rewrite addr_set_addr by (rewrite ?Hlen; lia).
      destruct (decide (k = i)); [contradiction|reflexivity].
Qed.

Lemma wrap32_add_l (x y : Z) : wrap32 (wrap32 x + y) = wrap32 (x + y).
Proof. unfold wrap32. apply Zplus_mod_idemp_l. Qed.

(** The release loop over the direct addresses: every nonzero address in
    the data area adds one to the count; the inode table is not touched. *)
Lemma free_direct_steps (ino : Inode) (idx : list Z) :
  forall fs : FileSystem,
    (forall k, k ∈ idx -> addr ino k = 0 \/ 9 <= addr ino k < 1024) ->
    freeBlocks (free_direct true fs ino idx)
    = wrap32 (freeBlocks fs
              + Z.of_nat (length (List.filter (fun k => nonzero (addr ino k)) idx)))
    /\ (forall a, a <> SB.freeBlocks -> a <> SB.firstFreeBlock -> a < 2304 ->
          load (memory (free_direct true fs ino idx)) a = load (memory fs) a)
    /\ clock (free_direct true fs ino idx) = clock fs.
Proof.
  induction idx as [|k idx IH]; intros fs H.
  - cbn [List.filter length]. change (free_direct true fs ino []) with fs.
    rewrite Z.add_0_r. unfold freeBlocks. rewrite wrap32_load. auto.
  - change (free_direct true fs ino (k :: idx))
      with (free_direct true
              (if true && (addr ino k =? 0) then fs else deallocateBlock fs (addr ino k))
              ino idx).
    cbn [andb List.filter]. unfold nonzero at 1.
    assert (forall k', k' ∈ idx -> addr ino k' = 0 \/ 9 <= addr ino k' < 1024) as H'
      by (intros k' Hk'; apply H; right; exact Hk').
    destruct (addr ino k =? 0) eqn:E; cbn [negb].
    + apply IH, H'.
    + apply Z.eqb_neq in E. destruct (H k ltac:(left)) as [?|Hr]; [contradiction|].
      assert (in_data_area (addr ino k) = true) as Hd by (apply in_data_area_range, Hr).
      pose proof (fun a => load_deallocateBlock fs (addr ino k) a Hd) as L.
      destruct (IH (deallocateBlock fs (addr ino k)) H') as (I1 & I2 & I3).
      split; [|split].
      * rewrite I1. unfold freeBlocks at 1. rewrite L.
        destruct (decide _); [|contradiction]. rewrite wrap32_add_l. f_equal.
        cbn [length]. lia.
      * intros a H3 H6 Ha. rewrite I2 by assumption. rewrite L.
        rewrite block_word_small by lia.
        destruct (decide _); [contradiction|]. destruct (decide _); [contradiction|].
        destruct (decide _); [lia|]. reflexivity.
      * rewrite I3. rewrite (deallocateBlock_data fs _ Hd). reflexivity.
Qed.

(** What a successful create-file of at most [DIRECT_BLOCKS] blocks did. *)
Lemma cmdTouch_direct_inv (fs fs1 : FileSystem) (p : string) (sz : Z) :
  cmdTouch fs p sz = (fs1, Ok_created) ->
  blocks_needed sz <= DIRECT_BLOCKS ->
  exists S1 i S2 ino2,
    fst (getParentInodeAndFilename fs p) <> -1
    /\ allocateInode fs = (S1, i) /\ i <> MAX_INODES
    /\ alloc_direct S1 (set_size (set_type (readInode S1 i) 0) sz)
                    (seqZ 0 (blocks_needed sz)) = (S2, ino2, false)
    /\ addDirectoryEntry (writeInode S2 i ino2)
                         (to_uint (fst (getParentInodeAndFilename fs p)))
                         (snd (getParentInodeAndFilename fs p)) i = (fs1, true).
Proof.
  intros E Hk. unfold cmdTouch in E.
  destruct (getParentInodeAndFilename fs p) as [parent nm]. cbn [fst snd].
  destruct (parent =? -1) eqn:E1; [discriminate|]. apply Z.eqb_neq in E1.
  destruct (negb _); [discriminate|].
  destruct (maxBlocks <? _); [discriminate|].
  destruct (freeBlocks fs <? _); [discriminate|].
  destruct (allocateInode fs) as [S1 i] eqn:AI.
  destruct (i =? MAX_INODES) eqn:E2; [discriminate|]. apply Z.eqb_neq in E2.
  rewrite (Z.min_l _ _ Hk) in E.
  destruct (alloc_direct S1 _ _) as [[S2 ino2] [|]] eqn:AD; [discriminate|].
  replace (DIRECT_BLOCKS <? blocks_needed sz) with false in E
    by (symmetry; apply Z.ltb_ge; exact Hk).
  destruct (addDirectoryEntry (writeInode S2 i ino2) (to_uint parent) nm i)
    as [fs' [|]] eqn:ADD; [|discriminate].
  injection E as <-. exists S1, i, S2, ino2. auto.
Qed.

(** What a successful remove-file did. *)
Lemma cmdRm_inv (fs fs2 : FileSystem) (p : string) :
  cmdRm fs p = (fs2, Ok_removed) ->
  exists fs' d,
    d = findDirectoryEntry fs (to_uint (fst (getParentInodeAndFilename fs p)))
                           (snd (getParentInodeAndFilename fs p))
    /\ type (readInode fs (to_uint d)) = 0
    /\ removeDirectoryEntry fs (to_uint (fst (getParentInodeAndFilename fs p)))
                            (snd (getParentInodeAndFilename fs p)) = (fs', true)
    /\ fs2 = release_inode fs' (readInode fs (to_uint d)) d.
Proof.
  unfold cmdRm. destruct (getParentInodeAndFilename fs p) as [parent nm]. cbn [fst snd].
  destruct (parent =? -1); [discriminate|].
  destruct (_ =? -1); [discriminate|].
  destruct (type _ =? 0) eqn:Et; cbn [negb]; [|discriminate]. apply Z.eqb_eq in Et.
  destruct (removeDirectoryEntry fs (to_uint parent) nm) as [fs' [|]] eqn:R;
    cbn [negb]; [|discriminate].
  intros [= <-]. exists fs', (findDirectoryEntry fs (to_uint parent) nm). auto.
Qed.

(** A directory reads the same in two images that agree on its inode and
    on its direct blocks. *)
Lemma directory_frame (fs fs' : FileSystem) (d : Z) :
  add_ready fs d = true ->
  indirectBlock (readInode fs d) = 0 ->
  (forall a, inode_word d <= a < inode_word d + 15 ->
     load (memory fs') a = load (memory fs) a) ->
  (forall b a, In b (blockAddresses (readInode fs d)) -> b <> 0 ->
     256 * b <= a < 256 * b + 256 -> load (memory fs') a = load (memory fs) a) ->
  readInode fs' d = readInode fs d
  /\ readDirectoryEntries fs' d = readDirectoryEntries fs d
  /\ add_ready fs' d = true.
Proof.
  intros Hready Hind Hi Hb.
  destruct (add_ready_inv fs d Hready) as (Hd & Htype & Hok & blk & j & Room).
  pose proof (dir_direct_ok_inv fs d Hok) as Hwf.
  assert (readInode fs' d = readInode fs d) as RI by (apply readInode_ext, Hi).
  assert (forall b k, In b (blockAddresses (readInode fs d)) -> b <> 0 -> 0 <= k < 32 ->
            read_entry (memory fs') (entry_word b k) = read_entry (memory fs) (entry_word b k))
    as RE.
  { intros b k Hin Hnz Hk. pose proof (Hwf b Hin Hnz) as Hr.
    apply read_entry_ext. intros a Ha. rewrite entry_word_small in Ha by lia.
    apply (Hb b); [exact Hin|exact Hnz|lia]. }
  assert (room_direct (memory fs') (blockAddresses (readInode fs d))
          = room_direct (memory fs) (blockAddresses (readInode fs d))) as RR.
  { apply room_direct_ext. intros b Hin Hnz. apply find_free_slot_ext. intros k Hk.
    pose proof (Hwf b Hin Hnz) as Hr. change NAME_WORDS with 7.
    rewrite entry_word_small by lia. apply (Hb b); [exact Hin|exact Hnz|lia]. }
  split; [exact RI|]. split.
  - unfold readDirectoryEntries. rewrite RI, Hind, Htype. cbn [Z.eqb Pos.eqb negb]. f_equal.
    apply flat_map_ext_In. intros b Hin. apply filter_In in Hin as [Hin Hnz].
    assert (b <> 0) as Hb0
      by (unfold nonzero in Hnz; destruct (b =? 0) eqn:E; [discriminate|lia]).
    unfold block_entries. f_equal. apply map_ext_in. intros k Hk.
    apply list_elem_of_In, elem_of_seqZ in Hk. change entriesPerBlock with 32 in Hk.
    apply RE; [exact Hin|exact Hb0|lia].
  - unfold add_ready, dir_direct_ok in *. rewrite RI, RR. exact Hready.
Qed.

Lemma filter_all_true {A : Type} (f : A -> bool) (l : list A) :
  (forall x, In x l -> f x = true) -> List.filter f l = l.
Proof.
  induction l as [|x l IH]; intros H; [reflexivity|]. cbn [List.filter].
  rewrite (H x (or_introl eq_refl)), IH; [reflexivity|].
  intros y Hy. apply H. right. exact Hy.
Qed.

Lemma filter_all_false {A : Type} (f : A -> bool) (l : list A) :
  (forall x, In x l -> f x = false) -> List.filter f l = [].
Proof.
  induction l as [|x l IH]; intros H; [reflexivity|]. cbn [List.filter].
  rewrite (H x (or_introl eq_refl)). apply IH. intros y Hy. apply H. right. exact Hy.
Qed.

(** The number of direct slots in use when exactly the first [k] are. *)
Lemma count_first_slots (f : Z -> bool) (k : Z) :
  0 <= k <= 10 ->
  (forall x, 0 <= x < k -> f x = true) ->
  (forall x, k <= x < 10 -> f x = false) ->
  Z.of_nat (length (List.filter f (seqZ 0 10))) = k.
Proof.
  intros Hk Ht Hf.
  replace 10 with (k + (10 - k)) by lia. rewrite seqZ_app by lia.
  rewrite List.filter_app, filter_all_true, filter_all_false.
  - rewrite app_nil_r, length_seqZ. lia.
  - intros x Hx. apply list_elem_of_In, elem_of_seqZ in Hx. apply Hf. lia.
  - intros x Hx. apply list_elem_of_In, elem_of_seqZ in Hx. apply Ht. lia.
Qed.

Lemma touch_ready_inv (fs : FileSystem) (P : Z) :
  touch_ready fs P = true ->
  free_list_ok fs = true /\ firstFreeInode fs < MAX_INODES /\ firstFreeInode fs <> P
  /\ add_ready fs P = true /\ indirectBlock (readInode fs P) = 0
  /\ (forall b, In b (blockAddresses (readInode fs P)) -> on_free_list fs b = false).
Proof.
  unfold touch_ready. intros H.
  apply andb_true_iff in H as [H H6]. apply andb_true_iff in H as [H H5].
  apply andb_true_iff in H as [H H4]. apply andb_true_iff in H as [H H3].
  apply andb_true_iff in H as [H1 H2].
  split; [exact H1|]. split; [lia|]. split; [apply negb_true_iff in H3; lia|].
  split; [exact H4|]. split; [lia|].
  rewrite forallb_forall in H6. intros b Hb. apply negb_true_iff, H6, Hb.
Qed.

Lemma inode_ok_addresses (ino : Inode) :
  length (blockAddresses ino) = 10%nat ->
  (forall k, 0 <= k < 10 -> 0 <= addr ino k < 4294967296) ->
  map wrap32 (blockAddresses ino) = blockAddresses ino.
Proof.
  intros Hlen H. rewrite <- (map_addr_seqZ ino Hlen) at 1 2.
  rewrite map_map. apply map_ext_in. intros k Hk.
  apply list_elem_of_In, elem_of_seqZ in Hk. change DIRECT_BLOCKS with 10 in Hk.
  apply wrap32_small, H. lia.
Qed.

(** X29. create-file then remove-file gives back what it took.  On an
    image with a well-formed free-block list, for a file of at most
    [DIRECT_BLOCKS] blocks created under a parent that has room for the
    entry and shares no block with the free list: when both commands
    report success and the parent resolves the same way for both, the
    free-block count, the free-inode count and the head of the free-inode
    list are what they were before.  (The head of the free-block list is
    not in general: the blocks come back in the reverse order.) *)
Theorem touch_rm_restores_counts (fs fs1 fs2 : FileSystem) (p : string) (sz : Z) :
  touch_ready fs (to_uint (fst (getParentInodeAndFilename fs p))) = true ->
  List.find (fun e => name_matches e (c_str (snd (getParentInodeAndFilename fs p))))
            (readDirectoryEntries fs (to_uint (fst (getParentInodeAndFilename fs p)))) = None ->
  0 <= sz < 4294967296 ->
  blocks_needed sz <= DIRECT_BLOCKS ->
  cmdTouch fs p sz = (fs1, Ok_created) ->
  fst (getParentInodeAndFilename fs1 p) = fst (getParentInodeAndFilename fs p) ->
  cmdRm fs1 p = (fs2, Ok_removed) ->
  freeBlocks fs2 = freeBlocks fs
  /\ freeInodes fs2 = freeInodes fs
  /\ firstFreeInode fs2 = firstFreeInode fs.
Proof.
  intros Hready Hnew Hsz Hk Htouch Hsame Hrm.
  destruct (cmdTouch_direct_inv _ _ _ _ Htouch Hk) as (S1 & i & S2 & ino2 & _ & AI & Hi & AD & ADD).
  apply cmdRm_inv in Hrm as (tomb & d & Hd & _ & Hrem & ->).
  rewrite Hsame in Hd, Hrem.
  rewrite !snd_getParentInodeAndFilename in *.
  set (P := to_uint (fst (getParentInodeAndFilename fs p))) in *.
  set (nm := snd (split_path p)) in *.
  destruct (touch_ready_inv fs P Hready) as (Hok & Hhead & HiP & Hadd & Hind & Hoff).
  destruct (add_ready_inv fs P Hadd) as (HP & Htype & Hdok & _).
  pose proof (dir_direct_ok_inv fs P Hdok) as Hwf.
  assert (0 <= blocks_needed sz) as Hk0.
  { unfold blocks_needed. pose proof (wrap32_range (sz + BLOCK_SIZE - 1)).
    apply Z.div_pos; [lia|reflexivity]. }
  change DIRECT_BLOCKS with 10 in Hk. set (k := blocks_needed sz) in *.
  (* the inode *)
  destruct (allocateInode_inv _ _ _ AI ltac:(destruct (allocateInode_head _ _ _ AI); lia))
    as (Ei & Hi0 & Hfi & ES1).
  pose proof (load_range (memory fs) SB.firstFreeInode) as R7.
  assert (1 <= i < 128) as Hir
    by (unfold firstFreeInode in *; change MAX_INODES with 128 in *; lia).
  assert (inode_word i = 256 + 16 * i) as Ewi by (apply inode_word_small; lia).
  assert (inode_word P = 256 + 16 * P) as EwP by (apply inode_word_small; lia).
  assert (i <> P) as HiP' by (rewrite Ei; exact HiP).
  set (rec0 := mkInode 0 0 (wrap32 (clock fs)) (wrap32 (clock fs)) (replicate 10 0) 0) in *.
  assert (forall a, a <> SB.freeInodes -> a <> SB.firstFreeInode ->
            a < inode_word i \/ inode_word i + 15 <= a ->
            load (memory S1) a = load (memory fs) a) as L1.
  { intros a H5 H7 Ha. rewrite ES1. rewrite load_writeInode_out by exact Ha.
    cbn [memory set_memory]. rewrite !load_store_ne by congruence. reflexivity. }
  assert (freeInodes S1 = wrap32 (freeInodes fs - 1)) as Hfi1.
  { unfold freeInodes at 1. rewrite ES1.
    rewrite load_writeInode_out by (rewrite Ewi; unfold SB.freeInodes; lia).
    cbn [memory set_memory]. rewrite load_store_eq. apply wrap32_idem. }
  assert (readInode S1 i = rec0) as RI1.
  { rewrite ES1. apply readInode_writeInode; [change MAX_INODES with 128; lia|].
    apply inode_ok_empty. }
  destruct (free_list_frame fs S1 Hok) as [Fl1 Hok1].
  { intros a Ha. apply L1; unfold SB.freeBlocks, SB.firstFreeBlock, SB.freeInodes,
      SB.firstFreeInode in *; lia. }
  (* the blocks *)
  rewrite RI1 in AD.
  destruct (alloc_direct_steps _ _ _ _ _ Hok1 AD) as
    (Hok2 & Hc2 & F2 & _ & _ & (T1 & T2 & T3 & T4 & T5) & Hlen2 & Hin2 & Hout2).
  { intros x Hx. apply elem_of_seqZ in Hx. lia. }
  { reflexivity. }
  rewrite length_seqZ in Hc2.
  assert (forall x, on_free_list S1 x = true -> 9 <= x < 1024) as Hlist.
  { intros x Hx. apply free_list_ok_iff in Hok1 as (l & W & Ha & _).
    apply Ha, (on_free_list_iff S1 l x W), Hx. }
  assert (forall a, a <> SB.freeBlocks -> a <> SB.firstFreeBlock -> a < 2304 ->
            load (memory S2) a = load (memory S1) a) as F2low.
  { intros a H3 H6 Ha. apply F2; [exact H3|exact H6|].
    intros x Hx. specialize (Hlist x Hx). lia. }
  assert (forall kk, 0 <= kk < 10 -> addr ino2 kk = 0 \/ 9 <= addr ino2 kk < 1024) as Haddr.
  { intros kk Hkk. destruct (decide (kk < k)) as [Hlt|Hge].
    - right. apply Hin2, elem_of_seqZ. lia.
    - left. rewrite Hout2; [|lia|rewrite elem_of_seqZ; lia].
      unfold addr. cbn [blockAddresses set_size set_type rec0].
      destruct (replicate 10 0 !! Z.to_nat kk) as [v|] eqn:E; [|reflexivity].
      apply lookup_replicate in E as [-> _]. reflexivity. }
  assert (inode_ok ino2) as Hino2.
  { unfold inode_ok. rewrite T1, T2, T3, T4, T5. cbn [type size creationTime
      modificationTime indirectBlock set_size set_type rec0].
    rewrite !wrap32_idem, (wrap32_small sz Hsz).
    repeat (split; [reflexivity|]). split; [|split; [exact Hlen2|reflexivity]].
    apply inode_ok_addresses; [exact Hlen2|]. intros kk Hkk.
    destruct (Haddr kk Hkk); lia. }
  set (S3 := writeInode S2 i ino2) in *.
  assert (forall a, a < inode_word i \/ inode_word i + 15 <= a ->
            load (memory S3) a = load (memory S2) a) as L3
    by (intros a Ha; apply load_writeInode_out, Ha).
  assert (readInode S3 i = ino2) as RI3
    by (apply readInode_writeInode; [change MAX_INODES with 128; lia | exact Hino2]).
  (* the parent reads the same *)
  destruct (directory_frame fs S3 P Hadd Hind) as (RP3 & RD3 & Hadd3).
  { intros a Ha. rewrite L3 by lia. rewrite F2low by (unfold SB.freeBlocks, SB.firstFreeBlock; lia).
    apply L1; unfold SB.freeInodes, SB.firstFreeInode; lia. }
  { intros b a Hb Hb0 Ha. pose proof (Hwf b Hb Hb0) as Hbr.
    rewrite L3 by lia. rewrite F2.
    - apply L1; unfold SB.freeInodes, SB.firstFreeInode; lia.
    - unfold SB.freeBlocks. lia.
    - unfold SB.firstFreeBlock. lia.
    - intros x Hx. assert (x <> b) as Hxb.
      { intros ->. unfold on_free_list in Hx. rewrite Fl1 in Hx.
        pose proof (Hoff b Hb) as Hno. unfold on_free_list in Hno. congruence. }
      lia. }
  (* the entry is added, found and removed *)
  destruct (addDirectoryEntry_true_inv _ _ _ _ _ ADD) as [Hlen _].
  destruct (add_remove_steps S3 P nm i Hadd3 ltac:(rewrite RP3; exact Hind) Hlen
              ltac:(rewrite RD3; exact Hnew) ltac:(lia))
    as (_ & Hfind & Flow & Hsnd & _ & _ & _ & Hcounts).
  rewrite ADD in Hfind, Flow, Hsnd, Hcounts. cbn [fst] in *.
  assert (to_int i = i) as Hti
    by (unfold to_int; destruct (2147483648 <=? i) eqn:E; [apply Z.leb_le in E; lia|reflexivity]).
  rewrite Hfind, Hti in Hd. subst d.
  rewrite Hrem in Flow, Hcounts. cbn [fst] in *.
  assert (to_uint i = i) as Hui by (apply wrap32_small; lia).
  rewrite Hui.
  assert (readInode fs1 i = ino2) as RIf.
  { rewrite <- RI3. apply readInode_ext. intros a Ha. apply Flow; lia. }
  rewrite RIf.
  (* the release *)
  unfold release_inode. rewrite T5. cbn [indirectBlock set_size set_type rec0 Z.eqb].
  rewrite Hui. change (seqZ 0 DIRECT_BLOCKS) with (seqZ 0 10).
  destruct (free_direct_steps ino2 (seqZ 0 10) tomb) as (C1 & C2 & _).
  { intros kk Hkk. apply elem_of_seqZ in Hkk. apply Haddr. lia. }
  rewrite (count_first_slots _ k) in C1; [|lia| |].
  2:{ intros x Hx. unfold nonzero. pose proof (Hin2 x ltac:(apply elem_of_seqZ; lia)).
      destruct (addr ino2 x =? 0) eqn:E; [apply Z.eqb_eq in E; lia|reflexivity]. }
  2:{ intros x Hx. unfold nonzero. rewrite Hout2; [|lia|rewrite elem_of_seqZ; lia].
      unfold addr. cbn [blockAddresses set_size set_type rec0].
      destruct (replicate 10 0 !! Z.to_nat x) as [v|] eqn:E; [|reflexivity].
      apply lookup_replicate in E as [-> _]. reflexivity. }
  set (X := free_direct true tomb ino2 (seqZ 0 10)) in *.
  rewrite (deallocateInode_valid X i) by (change MAX_INODES with 128; lia).
  unfold counts in Hcounts. injection Hcounts as Hc3 Hc5 _ _.
  pose proof (load_range (memory fs) SB.freeBlocks) as R3.
  pose proof (load_range (memory fs) SB.freeInodes) as R5.
  unfold freeBlocks, freeInodes, firstFreeInode in *. cbn [memory set_memory].
  unfold SB.freeBlocks, SB.freeInodes, SB.firstFreeInode, SB.firstFreeBlock,
    IN.indirectBlock in *.
  rewrite Ewi. rewrite !load_store.
  repeat (destruct (decide _); try lia).
  split; [|split].
  - rewrite C1, Hc3. rewrite L3 by lia. rewrite Hc2. rewrite L1 by lia.
    rewrite <- (wrap32_small _ R3) at 2. f_equal. lia.
  - rewrite C2 by lia. rewrite Hc5. rewrite L3 by lia. rewrite F2low by lia.
    rewrite Hfi1. rewrite wrap32_idem. apply wrap32_pred_succ; assumption.
  - rewrite Ei. apply wrap32_load.
Qed.

(** X29 at the fresh image, for [touch /f 3000] (three blocks) and
    [rm /f]. *)
Lemma touch_rm_restores_counts_witness :
  let fs1 := fst (cmdTouch fresh "/f" 3000) in
  let fs2 := fst (cmdRm fs1 "/f") in
  touch_ready fresh (to_uint (fst (getParentInodeAndFilename fresh "/f"))) = true
  /\ blocks_needed 3000 <= DIRECT_BLOCKS
  /\ snd (cmdTouch fresh "/f" 3000) = Ok_created
  /\ snd (cmdRm fs1 "/f") = Ok_removed
  /\ freeBlocks fs2 = freeBlocks fresh
  /\ freeInodes fs2 = freeInodes fresh
  /\ firstFreeInode fs2 = firstFreeInode fresh.
Proof.
  cbv zeta.
  assert (touch_ready fresh (to_uint (fst (getParentInodeAndFilename fresh "/f"))) = true)
    as H1 by (vm_compute; reflexivity).
  assert (List.find (fun e => name_matches e (c_str (snd (getParentInodeAndFilename fresh "/f"))))
            (readDirectoryEntries fresh (to_uint (fst (getParentInodeAndFilename fresh "/f"))))
          = None) as H2 by (vm_compute; reflexivity).
  assert (0 <= 3000 < 4294967296) as H3 by lia.
  assert (blocks_needed 3000 <= DIRECT_BLOCKS) as H4 by (vm_compute; discriminate).
  assert (snd (cmdTouch fresh "/f" 3000) = Ok_created) as H5 by (vm_compute; reflexivity).
  assert (fst (getParentInodeAndFilename (fst (cmdTouch fresh "/f" 3000)) "/f")
          = fst (getParentInodeAndFilename fresh "/f")) as H6 by (vm_compute; reflexivity).
  assert (snd (cmdRm (fst (cmdTouch fresh "/f" 3000)) "/f") = Ok_removed) as H7
    by (vm_compute; reflexivity).
  split; [exact H1|]. split; [exact H4|]. split; [exact H5|]. split; [exact H7|].
  exact (touch_rm_restores_counts fresh _ _ "/f" 3000 H1 H2 H3 H4
           (pair_eta_snd _ _ H5) H6 (pair_eta_snd _ _ H7)).
Defined.

(** * Resolving a path through its parent *)

Lemma walk_components_single (fs : FileSystem) (q : Z) (nm : string) :
  nm <> "."%string -> nm <> ".."%string ->
  walk_components fs q [nm] = findDirectoryEntry fs (to_uint q) nm.
Proof.
  intros H1 H2. cbn [walk_components].
  apply String.eqb_neq in H1. apply String.eqb_neq in H2. rewrite H1, H2.
  destruct (findDirectoryEntry fs (to_uint q) nm =? -1) eqn:E; [|reflexivity].
  apply Z.eqb_eq in E. symmetry. exact E.
Qed.

(** X30. The two lookups agree.  For a path whose basename is an ordinary
    name (not empty, [.] or [..]) and whose parent resolves,
    [getInodeFromPath] gives what [findDirectoryEntry] finds for the
    basename in the parent [getParentInodeAndFilename] returns: what
    create-file, create-dir and the removals look up is what change-dir,
    list and dump resolve. *)
Theorem getInodeFromPath_via_parent (fs : FileSystem) (p : string) :
  snd (getParentInodeAndFilename fs p) <> EmptyString ->
  snd (getParentInodeAndFilename fs p) <> "."%string ->
  snd (getParentInodeAndFilename fs p) <> ".."%string ->
  fst (getParentInodeAndFilename fs p) <> -1 ->
  getInodeFromPath fs p
  = findDirectoryEntry fs (to_uint (fst (getParentInodeAndFilename fs p)))
                       (snd (getParentInodeAndFilename fs p)).
Proof.
  unfold getParentInodeAndFilename, split_path.
  destruct (find_last_of p) as [[|k]|] eqn:F; cbn [fst snd]; intros Hne Hd Hdd Hpar.
  - destruct (find_last_of_Some p 0%nat F) as [E N]. cbn [substr_to] in E.
    rewrite append_nil_l in E. set (nm := substr_from 1 p) in *.
    rewrite E at 1. unfold getInodeFromPath at 1. rewrite Ascii.eqb_refl.
    change (String slash nm) with (EmptyString ++ String slash nm)%string.
    rewrite parsePath_join. change (parsePath EmptyString) with (@nil string). cbn [app].
    rewrite (parsePath_component nm (conj Hne N)).
    apply walk_components_single; assumption.
  - destruct (find_last_of_Some p (S k) F) as [E N].
    set (dir := substr_to (S k) p) in *. set (nm := substr_from (S (S k)) p) in *.
    assert (exists c s, dir = String c s) as (c & s & Edir).
    { unfold dir. destruct p as [|c s]; [discriminate|]. cbn [substr_to]. eauto. }
    rewrite E at 1. rewrite Edir in *. rewrite append_cons.
    unfold getInodeFromPath in *. rewrite <- append_cons, parsePath_join.
    rewrite (parsePath_component nm (conj Hne N)).
    rewrite walk_components_app by exact Hpar.
    apply walk_components_single; assumption.
  - destruct p as [|c s]; [contradiction|].
    assert (Ascii.eqb c slash = false) as Ec.
    { cbn [find_last_of] in F. destruct (find_last_of s); [discriminate|].
      destruct (Ascii.eqb c slash); [discriminate|reflexivity]. }
    change (getInodeFromPath fs ".") with (currentInodeNumber fs).
    unfold getInodeFromPath. rewrite Ec.
    rewrite (parsePath_component (String c s) (conj Hne F)).
    apply walk_components_single; assumption.
Qed.

(** X30 for [/d/f] after [mkdir /d] and [touch /d/f 10] on the fresh
    image. *)
Lemma getInodeFromPath_via_parent_witness :
  let fs := run fresh [Mkdir "/d"; Touch "/d/f" 10] in
  snd (getParentInodeAndFilename fs "/d/f") <> EmptyString
  /\ fst (getParentInodeAndFilename fs "/d/f") <> -1
  /\ getInodeFromPath fs "/d/f"
     = findDirectoryEntry fs (to_uint (fst (getParentInodeAndFilename fs "/d/f")))
                          (snd (getParentInodeAndFilename fs "/d/f")).
Proof.
  cbv zeta.
  assert (snd (getParentInodeAndFilename (run fresh [Mkdir "/d"; Touch "/d/f" 10]) "/d/f")
          = "f"%string) as E by reflexivity.
  assert (fst (getParentInodeAndFilename (run fresh [Mkdir "/d"; Touch "/d/f" 10]) "/d/f")
          <> -1) as H4 by (vm_compute; discriminate).
  split; [rewrite E; discriminate|]. split; [exact H4|].
  apply getInodeFromPath_via_parent; [rewrite E; discriminate ..|exact H4].
Defined.
